(** * Question and subject services: a model of the service layer

    The two service modules ([questionService.js], [subjectService.js]) are
    thin layers over a Prisma client.  The development has these parts:

    - [Js]: the fragment of JavaScript the services rely on (truthiness,
      [isNaN], relational operators, [parseInt], [??], [!==]);
    - [Prisma]: an in-memory model of the record store the services call;
    - [Question] and [Subject]: the service functions, written in a state and
      exception monad over the store;
    - [Spec]: the notions of the specification, stated over the embedding;
    - facts about each part, and the properties of the services. *)

From Stdlib Require Import ZArith String Ascii List Lia Bool.
From Stdlib Require Import DecimalPos DecimalFacts.
From stdpp Require Import base option list gmap sorting.

Local Open Scope Z_scope.

(** ** The JavaScript fragment *)

Module Js.

(** A JavaScript number.  A finite number is kept as a decimal [m * 10^e]:
    the digits and the exponent [Number::toString] prints.  Both zeros are
    [Finite 0 _]; no operation the services use tells [+0] from [-0].
    Rounding of the mantissa to binary64 is not modelled. *)
Inductive number : Type :=
  | NaN
  | Infinity (negative : bool)
  | Finite (m e : Z).

(** The primitive values a caller can hand to the services (objects and
    arrays are left out).  An absent property reads as [Undefined].  A
    string is a sequence of code units below 256. *)
Inductive JsValue : Type :=
  | Undefined
  | Null
  | Bool (b : bool)
  | Num (x : number)
  | Str (s : string).

Definition of_Z (n : Z) : JsValue := Num (Finite n 0).

(** *** Numbers: order, integrality *)

(** Sign of a finite decimal, and comparison of two of them after bringing
    them to the smaller exponent. *)
Definition fin_compare (m1 e1 m2 e2 : Z) : comparison :=
  let e0 := Z.min e1 e2 in
  (m1 * 10 ^ (e1 - e0)) ?= (m2 * 10 ^ (e2 - e0)).

(** [None] stands for the "undefined" answer of a comparison with [NaN]. *)
Definition num_compare (x y : number) : option comparison :=
  match x, y with
  | NaN, _ | _, NaN => None
  | Infinity a, Infinity b =>
      Some (if a then (if b then Eq else Lt) else (if b then Gt else Eq))
  | Infinity a, Finite _ _ => Some (if a then Lt else Gt)
  | Finite _ _, Infinity b => Some (if b then Gt else Lt)
  | Finite m1 e1, Finite m2 e2 => Some (fin_compare m1 e1 m2 e2)
  end.

(** The integer a number denotes, when it denotes one. *)
Definition to_int (x : number) : option Z :=
  match x with
  | Finite m e =>
      if 0 <=? e then Some (m * 10 ^ e)
      else if m mod 10 ^ (- e) =? 0 then Some (m / 10 ^ (- e))
      else None
  | _ => None
  end.

(** Truncation towards zero of a finite number (what [Math.trunc] gives). *)
Definition trunc (x : number) : option Z :=
  match x with
  | Finite m e => Some (if 0 <=? e then m * 10 ^ e else Z.quot m (10 ^ (- e)))
  | _ => None
  end.

(** *** Characters and digit strings *)

Definition code (c : ascii) : Z := Z.of_nat (nat_of_ascii c).

(** StrWhiteSpaceChar, for code units below 256: TAB, LF, VT, FF, CR, SP,
    NBSP. *)
Definition is_white (c : ascii) : bool :=
  let n := code c in
  (n =? 9) || (n =? 10) || (n =? 11) || (n =? 12) || (n =? 13) || (n =? 32)
  || (n =? 160).

(** Value of a character as a digit: [0-9], then letters for 10 to 35. *)
Definition digit_value (c : ascii) : option Z :=
  let n := code c in
  if (48 <=? n) && (n <=? 57) then Some (n - 48)
  else if (97 <=? n) && (n <=? 122) then Some (n - 87)
  else if (65 <=? n) && (n <=? 90) then Some (n - 55)
  else None.

Definition is_digit (radix : Z) (c : ascii) : bool :=
  match digit_value c with
  | Some d => d <? radix
  | None => false
  end.

Definition digit_or_zero (c : ascii) : Z := default 0 (digit_value c).

(** The integer a digit string denotes in a radix, most significant first. *)
Definition step (radix acc : Z) (c : ascii) : Z := acc * radix + digit_or_zero c.

Definition digits_value (radix : Z) (ds : list ascii) : Z :=
  fold_left (step radix) ds 0.

(** A decimal digit. *)
Definition digit (c : ascii) : Prop := is_digit 10 c = true.

Fixpoint span {A} (p : A -> bool) (l : list A) : list A * list A :=
  match l with
  | [] => ([], [])
  | x :: t => if p x then let '(a, b) := span p t in (x :: a, b) else ([], l)
  end.

Fixpoint trim_start (s : list ascii) : list ascii :=
  match s with
  | c :: t => if is_white c then trim_start t else s
  | [] => []
  end.

Definition trim_end (s : list ascii) : list ascii := rev (trim_start (rev s)).

(** Decimal digits of a positive number, most significant first. *)
Fixpoint uint_chars (d : Decimal.uint) : list ascii :=
  match d with
  | Decimal.Nil => []
  | Decimal.D0 d => "0"%char :: uint_chars d
  | Decimal.D1 d => "1"%char :: uint_chars d
  | Decimal.D2 d => "2"%char :: uint_chars d
  | Decimal.D3 d => "3"%char :: uint_chars d
  | Decimal.D4 d => "4"%char :: uint_chars d
  | Decimal.D5 d => "5"%char :: uint_chars d
  | Decimal.D6 d => "6"%char :: uint_chars d
  | Decimal.D7 d => "7"%char :: uint_chars d
  | Decimal.D8 d => "8"%char :: uint_chars d
  | Decimal.D9 d => "9"%char :: uint_chars d
  end.

Definition pos_digits (p : positive) : list ascii := uint_chars (Pos.to_uint p).

Definition nat_digits (n : Z) : list ascii :=
  match n with
  | Zpos p => pos_digits p
  | _ => ["0"%char]
  end.

Definition is_zero_char (c : ascii) : bool := code c =? 48.

(** [s] without its trailing zeros. *)
Definition strip_zeros (ds : list ascii) : list ascii :=
  rev (snd (span is_zero_char (rev ds))).

Definition zeros (n : nat) : list ascii := repeat "0"%char n.

(** *** Number::toString, radix 10 *)

(** For a positive [m * 10^e]: [s] are the digits without trailing zeros,
    [k] their number and [n] the position of the decimal point, as in the
    language definition. *)
Definition positive_to_chars (m : positive) (e : Z) : list ascii :=
  let ds := pos_digits m in
  let s := strip_zeros ds in
  let k := Z.of_nat (length s) in
  let n := e + Z.of_nat (length ds) in
  if (-5 <=? n) && (n <=? 21) then
    if k <=? n then s ++ zeros (Z.to_nat (n - k))
    else if 0 <? n then
      take (Z.to_nat n) s ++ "."%char :: drop (Z.to_nat n) s
    else "0"%char :: "."%char :: zeros (Z.to_nat (- n)) ++ s
  else
    let x := n - 1 in
    let sign := if 0 <=? x then "+"%char else "-"%char in
    let mant :=
      match s with
      | [d] => [d]
      | d :: rest => d :: "."%char :: rest
      | [] => []
      end in
    mant ++ "e"%char :: sign :: nat_digits (Z.abs x).

Definition number_to_chars (x : number) : list ascii :=
  match x with
  | NaN => list_ascii_of_string "NaN"
  | Infinity false => list_ascii_of_string "Infinity"
  | Infinity true => list_ascii_of_string "-Infinity"
  | Finite Z0 _ => ["0"%char]
  | Finite (Zpos m) e => positive_to_chars m e
  | Finite (Zneg m) e => "-"%char :: positive_to_chars m e
  end.

(** ToString *)
Definition ToString (v : JsValue) : string :=
  match v with
  | Undefined => "undefined"
  | Null => "null"
  | Bool true => "true"
  | Bool false => "false"
  | Num x => string_of_list_ascii (number_to_chars x)
  | Str s => s
  end.

(** *** StringToNumber *)

(** RoundMVResult, as far as the range goes: a value at most half the least
    subnormal becomes zero, one at least [2^1024 - 2^970] becomes an
    infinity.  In between the decimal is kept as it is. *)
Definition round_range (m e : Z) : number :=
  let a := Z.abs m in
  if a =? 0 then Finite 0 0
  else if 0 <=? e then
    if 2 ^ 1024 - 2 ^ 970 <=? a * 10 ^ e then Infinity (m <? 0) else Finite m e
  else
    if a * 2 ^ 1075 <=? 10 ^ (- e) then Finite 0 0
    else if (2 ^ 1024 - 2 ^ 970) * 10 ^ (- e) <=? a then Infinity (m <? 0)
    else Finite m e.

Definition chars (s : string) : list ascii := list_ascii_of_string s.

Definition ascii_eqb (a b : ascii) : bool := code a =? code b.

Definition is_char (s : string) (c : ascii) : bool :=
  existsb (ascii_eqb c) (chars s).

(** ExponentPart, optional: the exponent, or [None] when the text is not
    an exponent part followed by nothing. *)
Definition exponent_part (s : list ascii) : option Z :=
  match s with
  | [] => Some 0
  | c :: t =>
      if is_char "eE" c then
        let '(neg, u) :=
          match t with
          | d :: u' =>
              if is_char "-" d then (true, u')
              else if is_char "+" d then (false, u') else (false, t)
          | [] => (false, t)
          end in
        match span (is_digit 10) u with
        | ((_ :: _) as ds, []) =>
            Some (if neg then - digits_value 10 ds else digits_value 10 ds)
        | _ => None
        end
      else None
  end.

(** StrUnsignedDecimalLiteral other than [Infinity]: mantissa and exponent. *)
Definition unsigned_decimal (s : list ascii) : option (Z * Z) :=
  let '(ip, r1) := span (is_digit 10) s in
  let '(fp, r2, dot) :=
    match r1 with
    | c :: t =>
        if is_char "." c then let '(f, r) := span (is_digit 10) t in (f, r, true)
        else ([], r1, false)
    | [] => ([], r1, false)
    end in
  match ip, fp with
  | [], [] => None
  | _, _ =>
      match exponent_part r2 with
      | Some x =>
          Some (digits_value 10 (ip ++ fp), x - Z.of_nat (length fp))
      | None => None
      end
  end.

(** StrDecimalLiteral *)
Definition str_decimal (s : list ascii) : number :=
  let '(neg, u) :=
    match s with
    | c :: t =>
        if is_char "-" c then (true, t)
        else if is_char "+" c then (false, t) else (false, s)
    | [] => (false, s)
    end in
  if String.eqb (string_of_list_ascii u) "Infinity" then Infinity neg
  else
    match unsigned_decimal u with
    | Some (m, e) => round_range (if neg then - m else m) e
    | None => NaN
    end.

(** NonDecimalIntegerLiteral: [0b], [0o] and [0x] prefixes, unsigned. *)
Definition non_decimal (s : list ascii) : option number :=
  match s with
  | z :: p :: ds =>
      if is_char "0" z then
        let radix :=
          if is_char "bB" p then Some 2
          else if is_char "oO" p then Some 8
          else if is_char "xX" p then Some 16 else None in
        match radix, ds with
        | Some r, _ :: _ =>
            if forallb (is_digit r) ds
            then Some (round_range (digits_value r ds) 0) else None
        | _, _ => None
        end
      else None
  | _ => None
  end.

Definition StringToNumber (s : string) : number :=
  let t := trim_end (trim_start (chars s)) in
  match t with
  | [] => Finite 0 0
  | _ =>
      match non_decimal t with
      | Some x => x
      | None => str_decimal t
      end
  end.

Definition ToNumber (v : JsValue) : number :=
  match v with
  | Undefined => NaN
  | Null => Finite 0 0
  | Bool true => Finite 1 0
  | Bool false => Finite 0 0
  | Num x => x
  | Str s => StringToNumber s
  end.

(** *** The operators of the services *)

(** ToBoolean *)
Definition truthy (v : JsValue) : bool :=
  match v with
  | Undefined | Null => false
  | Bool b => b
  | Num NaN => false
  | Num (Infinity _) => true
  | Num (Finite m _) => negb (m =? 0)
  | Str s => negb (String.eqb s EmptyString)
  end.

(** The global [isNaN] *)
Definition isNaN (v : JsValue) : bool :=
  match ToNumber v with
  | NaN => true
  | _ => false
  end.

(** IsLessThan on primitives: two strings are compared as strings, anything
    else as numbers; [None] is the undefined answer. *)
Definition IsLessThan (x y : JsValue) : option bool :=
  match x, y with
  | Str a, Str b => Some (String.ltb a b)
  | _, _ =>
      match num_compare (ToNumber x) (ToNumber y) with
      | Some Lt => Some true
      | Some _ => Some false
      | None => None
      end
  end.

(** [x < y], [x > y] and [x <= y] *)
Definition lt (x y : JsValue) : bool := default false (IsLessThan x y).
Definition gt (x y : JsValue) : bool := default false (IsLessThan y x).
Definition le (x y : JsValue) : bool :=
  match IsLessThan y x with
  | Some false => true
  | _ => false
  end.

(** [x === y] and [x !== y] *)
Definition strict_eq (x y : JsValue) : bool :=
  match x, y with
  | Undefined, Undefined | Null, Null => true
  | Bool a, Bool b => Bool.eqb a b
  | Num a, Num b =>
      match num_compare a b with
      | Some Eq => true
      | _ => false
      end
  | Str a, Str b => String.eqb a b
  | _, _ => false
  end.

Definition strict_ne (x y : JsValue) : bool := negb (strict_eq x y).

(** [x ?? y] *)
Definition nullish (x y : JsValue) : JsValue :=
  match x with
  | Undefined | Null => y
  | _ => x
  end.

(** *** parseInt, no radix given *)

Definition parseInt_chars (input : list ascii) : number :=
  let s := trim_start input in
  let '(neg, s) :=
    match s with
    | c :: t =>
        if is_char "-" c then (true, t)
        else if is_char "+" c then (false, t) else (false, s)
    | [] => (false, s)
    end in
  let '(radix, s) :=
    match s with
    | z :: x :: t =>
        if is_char "0" z && is_char "xX" x then (16, t) else (10, s)
    | _ => (10, s)
    end in
  match fst (span (is_digit radix) s) with
  | [] => NaN
  | ds =>
      let n := digits_value radix ds in
      round_range (if neg then - n else n) 0
  end.

Definition parseInt (v : JsValue) : number := parseInt_chars (chars (ToString v)).

End Js.

(** ** Results, exceptions and the service monad *)

(** The messages the services throw with [new Error(...)], and the two
    failures of the client itself. *)
Inductive Message : Type :=
  | IdInvalido
      (* 'ID inválido. Deve ser um número positivo' *)
  | QuestaoCamposObrigatorios
      (* 'Enunciado, dificuldade, resposta correta, id da disciplina e id do
         autor são obrigatórios' *)
  | DificuldadeEntre1e5
      (* 'Dificuldade deve ser entre 1 e 5' *)
  | EnunciadoJaCadastrado
      (* 'Enunciado já cadastrado no sistema' *)
  | EnunciadoEmUso
      (* 'Enunciado já está em uso por outra questão' *)
  | QuestaoNaoEncontrada (questionId : Js.JsValue)
      (* `Questão com ID ${questionId} não encontrada` *)
  | DisciplinaCamposObrigatorios
      (* 'Nome e ID do professor são obrigatórios.' *)
  | NomeJaCadastrado
      (* 'Nome de disciplina já cadastrado no sistema' *)
  | NomeEmUso
      (* 'Nome já está em uso por outra disciplina' *)
  | DisciplinaNaoEncontrada (subjectId : Js.JsValue).
      (* `Disciplina com ID ${subjectId} não encontrada` *)

Inductive Exception : Type :=
  | Error (message : Message)
  | PrismaClientValidationError
  | PrismaRecordNotFound.

(** The error kinds of the specification.  What the client raises by itself
    is outside its closed set. *)
Inductive ErrorKind : Type :=
  | InvalidArgument
  | ValidationError
  | Conflict
  | NotFound
  | ClientFailure.

Definition kind (e : Exception) : ErrorKind :=
  match e with
  | Error IdInvalido => InvalidArgument
  | Error QuestaoCamposObrigatorios | Error DificuldadeEntre1e5
  | Error DisciplinaCamposObrigatorios => ValidationError
  | Error EnunciadoJaCadastrado | Error EnunciadoEmUso
  | Error NomeJaCadastrado | Error NomeEmUso => Conflict
  | Error (QuestaoNaoEncontrada _) | Error (DisciplinaNaoEncontrada _) =>
      NotFound
  | PrismaClientValidationError | PrismaRecordNotFound => ClientFailure
  end.

Inductive Result (A : Type) : Type :=
  | Ok (a : A)
  | Throw (e : Exception).
Arguments Ok {A} a.
Arguments Throw {A} e.

(** A computation reads and writes a store [S] and returns or throws; the
    store it leaves behind is part of the outcome in both cases. *)
Definition M (S A : Type) : Type := S -> Result A * S.

Definition ret {S A} (a : A) : M S A := fun s => (Ok a, s).

Definition throw {S A} (e : Exception) : M S A := fun s => (Throw e, s).

Definition bind {S A B} (c : M S A) (k : A -> M S B) : M S B :=
  fun s =>
    match c s with
    | (Ok a, s') => k a s'
    | (Throw e, s') => (Throw e, s')
    end.

Declare Scope js_scope.
Delimit Scope js_scope with js.
Notation "'await' x <- c ;; k" := (bind c (fun x => k))
  (at level 10, x name, c at level 99, k at level 200) : js_scope.
Notation "'run' c ;; k" := (bind c (fun _ => k))
  (at level 10, c at level 99, k at level 200) : js_scope.
Notation "'when' b 'throw_' e ;; k" :=
  (bind (if b then throw e else ret tt) (fun _ => k))
  (at level 10, b at level 99, e at level 99, k at level 200) : js_scope.

Definition failed {A} (r : Result A) : option ErrorKind :=
  match r with
  | Ok _ => None
  | Throw e => Some (kind e)
  end.

(** ** The record store *)

Module Prisma.
Import Js.

Inductive SortOrder : Type := asc | desc.

(** An object with property names in [F], in the order they were set. *)
Definition JsObject (F : Type) : Type := list (F * JsValue).

(** A model of the schema: its columns, how a stored row reads as
    JavaScript values and which values a column takes.  An integer column
    takes any integer: the width of the columns is not known here. *)
Class Model (F R : Type) : Type := {
  field_eq_dec :: EqDecision F;
  key : F;                            (* the primary key column *)
  columns : list F;                   (* every scalar column *)
  writable : list F;                  (* the columns a caller may give *)
  required : list F;                  (* those without a default *)
  accepts : F -> JsValue -> bool;     (* the value has the column's type *)
  blank : Z -> R;                     (* the defaults, both timestamps now *)
  read : Z -> R -> F -> JsValue;      (* a column of the row with this key *)
  write : F -> JsValue -> R -> R;     (* set a column to an accepted value *)
  touch : Z -> R -> R;                (* updatedAt becomes now *)
  leb_by : F -> Z * R -> Z * R -> bool (* order on the column's values *)
}.

(** A table: the rows by primary key, the next key of the sequence and the
    time of the next write. *)
Record Table (R : Type) : Type := {
  rows : gmap Z R;
  nextId : Z;
  now : Z
}.
Arguments rows {R} _.
Arguments nextId {R} _.
Arguments now {R} _.

Definition field_eqb {F} `{EqDecision F} (a b : F) : bool :=
  if decide (a = b) then true else false.

(** [o.f] *)
Definition prop {F} `{EqDecision F} (o : JsObject F) (f : F) : JsValue :=
  match List.find (fun p => field_eqb (fst p) f) o with
  | Some p => snd p
  | None => Undefined
  end.

Definition keys {F} (o : JsObject F) : list F := map fst o.

(** The value is an integer; the integer it is, with a default. *)
Definition is_int (v : JsValue) : bool :=
  match v with
  | Num x => if to_int x is Some _ then true else false
  | _ => false
  end.

Definition int_of (v : JsValue) (d : Z) : Z :=
  match v with
  | Num x => default d (to_int x)
  | _ => d
  end.

Definition defined (v : JsValue) : bool :=
  match v with
  | Undefined => false
  | _ => true
  end.

(** The client, [prisma.<model>].  It is not among the sources: its five
    operations follow the external-interface section of the specification.
    Every operation validates its arguments first, as the client does, and
    fails with [PrismaClientValidationError] before it reads or writes.
    Writes take their time from the table and advance it.  Foreign keys and
    the unique index on the statement (name) are the database's and are not
    enforced by [create] and [update]; the index only serves [findUnique]. *)
Section Client.
Context {F R : Type} `{!Model F R}.

(** The projection [select] asks for; every column when there is none. *)
Definition select_fields (select : option (list F)) (rec : Z * R)
  : JsObject F :=
  map (fun f => (f, read (fst rec) (snd rec) f)) (default columns select).

(** The row a unique [where] designates. *)
Definition locate (where_ : F * JsValue) (t : Table R)
  : Result (option (Z * R)) :=
  let '(f, v) := where_ in
  if field_eqb f key then
    match v with
    | Num x =>
        match to_int x with
        | Some n => Ok ((fun r => (n, r)) <$> rows t !! n)
        | None => Throw PrismaClientValidationError
        end
    | _ => Throw PrismaClientValidationError
    end
  else if accepts f v then
    Ok (head (List.filter (fun p => strict_eq (read (fst p) (snd p) f) v)
                          (map_to_list (rows t))))
  else Throw PrismaClientValidationError.

(** The entries of [data] set on a row; a property that is [undefined]
    counts as absent. *)
Fixpoint assign (data : JsObject F) (r : R) : option R :=
  match data with
  | [] => Some r
  | (f, v) :: rest =>
      if defined v then
        if existsb (field_eqb f) writable && accepts f v
        then assign rest (write f v r) else None
      else assign rest r
  end.

Definition given (data : JsObject F) (f : F) : bool :=
  defined (prop data f).

Definition ordered (orderBy : F * SortOrder) (a b : Z * R) : Prop :=
  match snd orderBy with
  | asc => leb_by (fst orderBy) a b
  | desc => leb_by (fst orderBy) b a
  end.

#[global] Instance ordered_dec orderBy a b : Decision (ordered orderBy a b).
Proof. unfold ordered. destruct (snd orderBy); apply _. Defined.

(** Modelled from the spec: [findMany(selection, ordering)], the sequence
    of all records in the order asked for; no filter, no page. *)
Definition findMany (select : option (list F)) (orderBy : F * SortOrder)
  : M (Table R) (list (JsObject F)) :=
  fun t =>
    (Ok (map (select_fields select)
             (merge_sort (ordered orderBy) (map_to_list (rows t)))), t).

(** Modelled from the spec: [findUnique(criteria, selection?)], a single
    record or [null]. *)
Definition findUnique (where_ : F * JsValue) (select : option (list F))
  : M (Table R) (option (JsObject F)) :=
  fun t =>
    match locate where_ t with
    | Ok rec => (Ok (select_fields select <$> rec), t)
    | Throw e => (Throw e, t)
    end.

(** Modelled from the spec: [create(fields, selection)], the persisted
    record with the key and the timestamps the store assigns. *)
Definition create (data : JsObject F) (select : option (list F))
  : M (Table R) (JsObject F) :=
  fun t =>
    if forallb (given data) required then
      match assign data (blank (now t)) with
      | Some r =>
          (Ok (select_fields select (nextId t, r)),
           {| rows := <[nextId t := r]> (rows t);
              nextId := nextId t + 1;
              now := now t + 1 |})
      | None => (Throw PrismaClientValidationError, t)
      end
    else (Throw PrismaClientValidationError, t).

(** Modelled from the spec: [update(criteria, fields, selection)], the
    persisted record; only the fields given change, and [updatedAt]. *)
Definition update (where_ : F * JsValue) (data : JsObject F)
    (select : option (list F)) : M (Table R) (JsObject F) :=
  fun t =>
    match locate where_ t with
    | Ok (Some (n, r)) =>
        match assign data r with
        | Some r' =>
            let r'' := touch (now t) r' in
            (Ok (select_fields select (n, r'')),
             {| rows := <[n := r'']> (rows t);
                nextId := nextId t;
                now := now t + 1 |})
        | None => (Throw PrismaClientValidationError, t)
        end
    | Ok None => (Throw PrismaRecordNotFound, t)
    | Throw e => (Throw e, t)
    end.

(** Modelled from the spec: [delete(criteria)], which removes the record
    and acknowledges with it. *)
Definition delete_ (where_ : F * JsValue) : M (Table R) (JsObject F) :=
  fun t =>
    match locate where_ t with
    | Ok (Some (n, r)) =>
        (Ok (select_fields None (n, r)),
         {| rows := delete n (rows t);
            nextId := nextId t;
            now := now t |})
    | Ok None => (Throw PrismaRecordNotFound, t)
    | Throw e => (Throw e, t)
    end.
End Client.

End Prisma.

(** ** questionService.js *)

Module Question.
Import Js Prisma.
Local Open Scope js_scope.

(** The columns of the question model. *)
Inductive Field : Type :=
  | Id | Enunciado | Dificuldade | RespostaCorreta | DisciplinaId | AutorId
  | Ativa | CreatedAt | UpdatedAt.

#[global] Instance Field_eq_dec : EqDecision Field.
Proof. solve_decision. Defined.

(** A stored question; its [id] is the key it is stored under.  Dates are
    kept, and read, as milliseconds. *)
Record Row : Type := {
  col_enunciado : string;
  col_dificuldade : Z;
  col_respostaCorreta : string;
  col_disciplinaId : Z;
  col_autorId : Z;
  col_ativa : bool;
  col_createdAt : Z;
  col_updatedAt : Z
}.

Definition accepts_ (f : Field) (v : JsValue) : bool :=
  match f, v with
  | (Enunciado | RespostaCorreta), Str _ => true
  | (Id | Dificuldade | DisciplinaId | AutorId), _ => is_int v
  | Ativa, Bool _ => true
  | _, _ => false
  end.

Definition read_ (id : Z) (r : Row) (f : Field) : JsValue :=
  match f with
  | Id => of_Z id
  | Enunciado => Str (col_enunciado r)
  | Dificuldade => of_Z (col_dificuldade r)
  | RespostaCorreta => Str (col_respostaCorreta r)
  | DisciplinaId => of_Z (col_disciplinaId r)
  | AutorId => of_Z (col_autorId r)
  | Ativa => Bool (col_ativa r)
  | CreatedAt => of_Z (col_createdAt r)
  | UpdatedAt => of_Z (col_updatedAt r)
  end.

Definition set_enunciado (s : string) (r : Row) : Row :=
  {| col_enunciado := s;
     col_dificuldade := col_dificuldade r;
     col_respostaCorreta := col_respostaCorreta r;
     col_disciplinaId := col_disciplinaId r;
     col_autorId := col_autorId r;
     col_ativa := col_ativa r;
     col_createdAt := col_createdAt r;
     col_updatedAt := col_updatedAt r |}.

Definition set_dificuldade (n : Z) (r : Row) : Row :=
  {| col_enunciado := col_enunciado r;
     col_dificuldade := n;
     col_respostaCorreta := col_respostaCorreta r;
     col_disciplinaId := col_disciplinaId r;
     col_autorId := col_autorId r;
     col_ativa := col_ativa r;
     col_createdAt := col_createdAt r;
     col_updatedAt := col_updatedAt r |}.

Definition set_respostaCorreta (s : string) (r : Row) : Row :=
  {| col_enunciado := col_enunciado r;
     col_dificuldade := col_dificuldade r;
     col_respostaCorreta := s;
     col_disciplinaId := col_disciplinaId r;
     col_autorId := col_autorId r;
     col_ativa := col_ativa r;
     col_createdAt := col_createdAt r;
     col_updatedAt := col_updatedAt r |}.

Definition set_disciplinaId (n : Z) (r : Row) : Row :=
  {| col_enunciado := col_enunciado r;
     col_dificuldade := col_dificuldade r;
     col_respostaCorreta := col_respostaCorreta r;
     col_disciplinaId := n;
     col_autorId := col_autorId r;
     col_ativa := col_ativa r;
     col_createdAt := col_createdAt r;
     col_updatedAt := col_updatedAt r |}.

Definition set_autorId (n : Z) (r : Row) : Row :=
  {| col_enunciado := col_enunciado r;
     col_dificuldade := col_dificuldade r;
     col_respostaCorreta := col_respostaCorreta r;
     col_disciplinaId := col_disciplinaId r;
     col_autorId := n;
     col_ativa := col_ativa r;
     col_createdAt := col_createdAt r;
     col_updatedAt := col_updatedAt r |}.

Definition set_ativa (b : bool) (r : Row) : Row :=
  {| col_enunciado := col_enunciado r;
     col_dificuldade := col_dificuldade r;
     col_respostaCorreta := col_respostaCorreta r;
     col_disciplinaId := col_disciplinaId r;
     col_autorId := col_autorId r;
     col_ativa := b;
     col_createdAt := col_createdAt r;
     col_updatedAt := col_updatedAt r |}.

Definition write_ (f : Field) (v : JsValue) (r : Row) : Row :=
  match f, v with
  | Enunciado, Str s => set_enunciado s r
  | Dificuldade, _ => set_dificuldade (int_of v (col_dificuldade r)) r
  | RespostaCorreta, Str s => set_respostaCorreta s r
  | DisciplinaId, _ => set_disciplinaId (int_of v (col_disciplinaId r)) r
  | AutorId, _ => set_autorId (int_of v (col_autorId r)) r
  | Ativa, Bool b => set_ativa b r
  | _, _ => r
  end.

Definition blank_ (t : Z) : Row :=
  {| col_enunciado := EmptyString; col_dificuldade := 0;
     col_respostaCorreta := EmptyString;
     col_disciplinaId := 0; col_autorId := 0; col_ativa := true;
     col_createdAt := t; col_updatedAt := t |}.

Definition touch_ (t : Z) (r : Row) : Row :=
  {| col_enunciado := col_enunciado r;
     col_dificuldade := col_dificuldade r;
     col_respostaCorreta := col_respostaCorreta r;
     col_disciplinaId := col_disciplinaId r;
     col_autorId := col_autorId r;
     col_ativa := col_ativa r;
     col_createdAt := col_createdAt r;
     col_updatedAt := t |}.

Definition leb_by_ (f : Field) (a b : Z * Row) : bool :=
  match f with
  | Id => fst a <=? fst b
  | Enunciado => String.leb (col_enunciado (snd a)) (col_enunciado (snd b))
  | Dificuldade => col_dificuldade (snd a) <=? col_dificuldade (snd b)
  | RespostaCorreta =>
      String.leb (col_respostaCorreta (snd a)) (col_respostaCorreta (snd b))
  | DisciplinaId => col_disciplinaId (snd a) <=? col_disciplinaId (snd b)
  | AutorId => col_autorId (snd a) <=? col_autorId (snd b)
  | Ativa => implb (col_ativa (snd a)) (col_ativa (snd b))
  | CreatedAt => col_createdAt (snd a) <=? col_createdAt (snd b)
  | UpdatedAt => col_updatedAt (snd a) <=? col_updatedAt (snd b)
  end.

(** Modelled from the spec: the schema of the question model, which is not
    among the sources.  The column types are those of the data model
    (text, integer, boolean, timestamps), [ativa] defaults to [true], the
    key and the timestamps are assigned by the store. *)
#[global] Instance question : Model Field Row := {
  key := Id;
  columns := [Id; Enunciado; Dificuldade; RespostaCorreta; DisciplinaId;
              AutorId; Ativa; CreatedAt; UpdatedAt];
  writable := [Enunciado; Dificuldade; RespostaCorreta; DisciplinaId;
               AutorId; Ativa];
  required := [Enunciado; Dificuldade; RespostaCorreta; DisciplinaId;
               AutorId];
  accepts := accepts_;
  blank := blank_;
  read := read_;
  write := write_;
  touch := touch_;
  leb_by := leb_by_
}.

(** [prisma.question] *)
Abbreviation Store := (Table Row).

(** The argument [questionData] of [createQuestion] and [updateQuestion]:
    the properties the services read, [Undefined] when absent. *)
Record QuestionData : Type := {
  enunciado : JsValue;
  dificuldade : JsValue;
  respostaCorreta : JsValue;
  disciplinaId : JsValue;
  autorId : JsValue;
  ativa : JsValue
}.

(** The [select] of every call but the one in [deleteQuestion]. *)
Definition select_all : list Field :=
  [Id; Enunciado; Dificuldade; RespostaCorreta; DisciplinaId; AutorId; Ativa;
   CreatedAt; UpdatedAt].

(** The [select] of [deleteQuestion]. *)
Definition select_snapshot : list Field :=
  [Id; Enunciado; Dificuldade; RespostaCorreta; DisciplinaId; AutorId].

(** The guard on ids:
    [!questionId || isNaN(questionId) || questionId <= 0]. *)
Definition invalid_id (questionId : JsValue) : bool :=
  negb (truthy questionId) || isNaN questionId || le questionId (of_Z 0).

Definition getAllQuestions : M Store (list (JsObject Field)) :=
  await questoes <- findMany (Some select_all) (CreatedAt, desc) ;;
  ret questoes.

Definition getQuestionById (questionId : JsValue)
  : M Store (option (JsObject Field)) :=
  when invalid_id questionId throw_ Error IdInvalido ;;
  await questao <-
    findUnique (Id, Num (parseInt questionId)) (Some select_all) ;;
  ret questao.

Definition enunciadoExists (enunciado : JsValue) : M Store bool :=
  await questao <- findUnique (Enunciado, enunciado) None ;;
  ret (if questao is Some _ then true else false).

Definition validateQuestionData (questionData : QuestionData) : M Store unit :=
  let enunciado := enunciado questionData in
  let dificuldade := dificuldade questionData in
  let respostaCorreta := respostaCorreta questionData in
  let disciplinaId := disciplinaId questionData in
  let autorId := autorId questionData in
  when negb (truthy enunciado) || negb (truthy dificuldade)
       || negb (truthy respostaCorreta) || negb (truthy disciplinaId)
       || negb (truthy autorId)
    throw_ Error QuestaoCamposObrigatorios ;;
  when lt dificuldade (of_Z 1) || gt dificuldade (of_Z 5)
    throw_ Error DificuldadeEntre1e5 ;;
  ret tt.

Definition createQuestion (questionData : QuestionData)
  : M Store (JsObject Field) :=
  run validateQuestionData questionData ;;
  await enunciadoJaExiste <- enunciadoExists (enunciado questionData) ;;
  when enunciadoJaExiste throw_ Error EnunciadoJaCadastrado ;;
  await novaQuestao <-
    create [(Enunciado, enunciado questionData);
            (Dificuldade, dificuldade questionData);
            (RespostaCorreta, respostaCorreta questionData);
            (DisciplinaId, disciplinaId questionData);
            (AutorId, autorId questionData);
            (Ativa, nullish (ativa questionData) (Bool true))]
           (Some select_all) ;;
  ret novaQuestao.

(** [if (c) o.f = v], on the object built so far. *)
Definition set_if (c : bool) (f : Field) (v : JsValue) (o : JsObject Field)
  : JsObject Field :=
  if c then o ++ [(f, v)] else o.

Definition dadosAtualizacao (questionData : QuestionData) : JsObject Field :=
  let o := [] in
  let o := set_if (truthy (enunciado questionData))
             Enunciado (enunciado questionData) o in
  let o := set_if (truthy (dificuldade questionData))
             Dificuldade (dificuldade questionData) o in
  let o := set_if (truthy (respostaCorreta questionData))
             RespostaCorreta (respostaCorreta questionData) o in
  let o := set_if (truthy (disciplinaId questionData))
             DisciplinaId (disciplinaId questionData) o in
  let o := set_if (truthy (autorId questionData))
             AutorId (autorId questionData) o in
  let o := set_if (strict_ne (ativa questionData) Undefined)
             Ativa (ativa questionData) o in
  o.

Definition updateQuestion (questionId : JsValue) (questionData : QuestionData)
  : M Store (JsObject Field) :=
  when invalid_id questionId throw_ Error IdInvalido ;;
  await questaoExistente <- findUnique (Id, Num (parseInt questionId)) None ;;
  match questaoExistente with
  | None => throw (Error (QuestaoNaoEncontrada questionId))
  | Some questaoExistente =>
      run (if truthy (enunciado questionData)
              && strict_ne (enunciado questionData)
                           (prop questaoExistente Enunciado)
           then
             await enunciadoJaExiste <-
               enunciadoExists (enunciado questionData) ;;
             when enunciadoJaExiste throw_ Error EnunciadoEmUso ;;
             ret tt
           else ret tt) ;;
      when truthy (dificuldade questionData)
           && (lt (dificuldade questionData) (of_Z 1)
               || gt (dificuldade questionData) (of_Z 5))
        throw_ Error DificuldadeEntre1e5 ;;
      await questaoAtualizada <-
        update (Id, Num (parseInt questionId)) (dadosAtualizacao questionData)
               (Some select_all) ;;
      ret questaoAtualizada
  end.

Definition deleteQuestion (questionId : JsValue) : M Store (JsObject Field) :=
  when invalid_id questionId throw_ Error IdInvalido ;;
  await questaoExistente <-
    findUnique (Id, Num (parseInt questionId)) (Some select_snapshot) ;;
  match questaoExistente with
  | None => throw (Error (QuestaoNaoEncontrada questionId))
  | Some questaoExistente =>
      run delete_ (Id, Num (parseInt questionId)) ;;
      ret questaoExistente
  end.

End Question.

(** ** subjectService.js *)

Module Subject.
Import Js Prisma.
Local Open Scope js_scope.

(** The columns of the subject model. *)
Inductive Field : Type :=
  | Id | Nome | Ativa | ProfessorId | CreatedAt | UpdatedAt.

#[global] Instance Field_eq_dec : EqDecision Field.
Proof. solve_decision. Defined.

Record Row : Type := {
  col_nome : string;
  col_ativa : bool;
  col_professorId : Z;
  col_createdAt : Z;
  col_updatedAt : Z
}.

Definition accepts_ (f : Field) (v : JsValue) : bool :=
  match f, v with
  | Nome, Str _ => true
  | (Id | ProfessorId), _ => is_int v
  | Ativa, Bool _ => true
  | _, _ => false
  end.

Definition read_ (id : Z) (r : Row) (f : Field) : JsValue :=
  match f with
  | Id => of_Z id
  | Nome => Str (col_nome r)
  | Ativa => Bool (col_ativa r)
  | ProfessorId => of_Z (col_professorId r)
  | CreatedAt => of_Z (col_createdAt r)
  | UpdatedAt => of_Z (col_updatedAt r)
  end.

Definition set_nome (s : string) (r : Row) : Row :=
  {| col_nome := s;
     col_ativa := col_ativa r;
     col_professorId := col_professorId r;
     col_createdAt := col_createdAt r;
     col_updatedAt := col_updatedAt r |}.

Definition set_ativa (b : bool) (r : Row) : Row :=
  {| col_nome := col_nome r;
     col_ativa := b;
     col_professorId := col_professorId r;
     col_createdAt := col_createdAt r;
     col_updatedAt := col_updatedAt r |}.

Definition set_professorId (n : Z) (r : Row) : Row :=
  {| col_nome := col_nome r;
     col_ativa := col_ativa r;
     col_professorId := n;
     col_createdAt := col_createdAt r;
     col_updatedAt := col_updatedAt r |}.

Definition write_ (f : Field) (v : JsValue) (r : Row) : Row :=
  match f, v with
  | Nome, Str s => set_nome s r
  | Ativa, Bool b => set_ativa b r
  | ProfessorId, _ => set_professorId (int_of v (col_professorId r)) r
  | _, _ => r
  end.

Definition blank_ (t : Z) : Row :=
  {| col_nome := EmptyString; col_ativa := true; col_professorId := 0;
     col_createdAt := t; col_updatedAt := t |}.

Definition touch_ (t : Z) (r : Row) : Row :=
  {| col_nome := col_nome r;
     col_ativa := col_ativa r;
     col_professorId := col_professorId r;
     col_createdAt := col_createdAt r;
     col_updatedAt := t |}.

Definition leb_by_ (f : Field) (a b : Z * Row) : bool :=
  match f with
  | Id => fst a <=? fst b
  | Nome => String.leb (col_nome (snd a)) (col_nome (snd b))
  | Ativa => implb (col_ativa (snd a)) (col_ativa (snd b))
  | ProfessorId => col_professorId (snd a) <=? col_professorId (snd b)
  | CreatedAt => col_createdAt (snd a) <=? col_createdAt (snd b)
  | UpdatedAt => col_updatedAt (snd a) <=? col_updatedAt (snd b)
  end.

(** Modelled from the spec: the schema of the subject model, which is not
    among the sources.  Column types as in the data model, [ativa]
    defaulting to [true], key and timestamps assigned by the store. *)
#[global] Instance subject : Model Field Row := {
  key := Id;
  columns := [Id; Nome; Ativa; ProfessorId; CreatedAt; UpdatedAt];
  writable := [Nome; Ativa; ProfessorId];
  required := [Nome; ProfessorId];
  accepts := accepts_;
  blank := blank_;
  read := read_;
  write := write_;
  touch := touch_;
  leb_by := leb_by_
}.

(** [prisma.subject] *)
Abbreviation Store := (Table Row).

(** The argument [subjectData] of [createSubject] and [updateSubject]. *)
Record SubjectData : Type := {
  nome : JsValue;
  ativa : JsValue;
  professorId : JsValue
}.

(** The [select] of every call but the one in [deleteSubject]. *)
Definition select_all : list Field :=
  [Id; Nome; Ativa; ProfessorId; CreatedAt; UpdatedAt].

(** The [select] of [deleteSubject]. *)
Definition select_snapshot : list Field := [Id; Nome; Ativa; ProfessorId].

(** [!subjectId || isNaN(subjectId) || subjectId <= 0] *)
Definition invalid_id (subjectId : JsValue) : bool :=
  negb (truthy subjectId) || isNaN subjectId || le subjectId (of_Z 0).

Definition getAllSubjects : M Store (list (JsObject Field)) :=
  await disciplinas <- findMany (Some select_all) (CreatedAt, desc) ;;
  ret disciplinas.

Definition getSubjectById (subjectId : JsValue)
  : M Store (option (JsObject Field)) :=
  when invalid_id subjectId throw_ Error IdInvalido ;;
  await disciplina <-
    findUnique (Id, Num (parseInt subjectId)) (Some select_all) ;;
  ret disciplina.

Definition nomeExists (nome : JsValue) : M Store bool :=
  await disciplina <- findUnique (Nome, nome) None ;;
  ret (if disciplina is Some _ then true else false).

Definition validateSubjectData (subjectData : SubjectData) : M Store unit :=
  let nome := nome subjectData in
  let professorId := professorId subjectData in
  when negb (truthy nome) || negb (truthy professorId)
    throw_ Error DisciplinaCamposObrigatorios ;;
  ret tt.

Definition createSubject (subjectData : SubjectData)
  : M Store (JsObject Field) :=
  run validateSubjectData subjectData ;;
  await nomeJaExiste <- nomeExists (nome subjectData) ;;
  when nomeJaExiste throw_ Error NomeJaCadastrado ;;
  await novaDisciplina <-
    create [(Nome, nome subjectData);
            (Ativa, nullish (ativa subjectData) (Bool true));
            (ProfessorId, professorId subjectData)]
           (Some select_all) ;;
  ret novaDisciplina.

Definition set_if (c : bool) (f : Field) (v : JsValue) (o : JsObject Field)
  : JsObject Field :=
  if c then o ++ [(f, v)] else o.

Definition dadosAtualizacao (subjectData : SubjectData) : JsObject Field :=
  let o := [] in
  let o := set_if (truthy (nome subjectData)) Nome (nome subjectData) o in
  let o := set_if (strict_ne (ativa subjectData) Undefined)
             Ativa (ativa subjectData) o in
  let o := set_if (truthy (professorId subjectData))
             ProfessorId (professorId subjectData) o in
  o.

Definition updateSubject (subjectId : JsValue) (subjectData : SubjectData)
  : M Store (JsObject Field) :=
  when invalid_id subjectId throw_ Error IdInvalido ;;
  await disciplinaExistente <-
    findUnique (Id, Num (parseInt subjectId)) None ;;
  match disciplinaExistente with
  | None => throw (Error (DisciplinaNaoEncontrada subjectId))
  | Some disciplinaExistente =>
      run (if truthy (nome subjectData)
              && strict_ne (nome subjectData) (prop disciplinaExistente Nome)
           then
             await nomeJaExiste <- nomeExists (nome subjectData) ;;
             when nomeJaExiste throw_ Error NomeEmUso ;;
             ret tt
           else ret tt) ;;
      await disciplinaAtualizada <-
        update (Id, Num (parseInt subjectId)) (dadosAtualizacao subjectData)
               (Some select_all) ;;
      ret disciplinaAtualizada
  end.

Definition deleteSubject (subjectId : JsValue) : M Store (JsObject Field) :=
  when invalid_id subjectId throw_ Error IdInvalido ;;
  await disciplinaExistente <-
    findUnique (Id, Num (parseInt subjectId)) (Some select_snapshot) ;;
  match disciplinaExistente with
  | None => throw (Error (DisciplinaNaoEncontrada subjectId))
  | Some disciplinaExistente =>
      run delete_ (Id, Num (parseInt subjectId)) ;;
      ret disciplinaExistente
  end.

End Subject.

(** ** The vocabulary of the specification

    The data model of the specification is typed: text, integers, flags.
    The definitions below state its notions over the embedding, and inject
    its typed inputs into the objects the services receive. *)

Module Spec.
Import Js Prisma.

(** A number greater than zero. *)
Definition positive_number (x : number) : bool :=
  match x with
  | NaN => false
  | Infinity negative => negb negative
  | Finite m _ => 0 <? m
  end.

(** The three ways an id is invalid. *)
Definition missing (v : JsValue) : Prop := v = Undefined \/ v = Null.

Definition non_numeric (v : JsValue) : Prop := ToNumber v = NaN.

Definition non_positive (v : JsValue) : Prop :=
  match ToNumber v with
  | NaN => False
  | Infinity negative => negative = true
  | Finite m _ => m <= 0
  end.

(** An id whose numeric value is greater than zero and that [parseInt]
    reads as the key [n]. *)
Definition designates (v : JsValue) (n : Z) : Prop :=
  positive_number (ToNumber v) = true /\ to_int (parseInt v) = Some n.

(** A number from 0.000001 up to, and without, 1e21: those that
    [Number::toString] prints without an exponent. *)
Definition plain_decimal (x : number) : Prop :=
  le (Num (Finite 1 (-6))) (Num x) = true
  /\ lt (Num x) (Num (Finite 1 21)) = true.

Definition text (o : option string) : JsValue :=
  match o with
  | Some s => Str s
  | None => Undefined
  end.

Definition int (o : option Z) : JsValue :=
  match o with
  | Some n => of_Z n
  | None => Undefined
  end.

Definition flag (o : option bool) : JsValue :=
  match o with
  | Some b => Bool b
  | None => Undefined
  end.

(** *** Questions *)

(** The input of a creation, typed as in the data model. *)
Record NewQuestion : Type := {
  statement : string;
  difficulty : Z;
  correctAnswer : string;
  subjectId : Z;
  authorId : Z;
  active : option bool
}.

Definition question_data (q : NewQuestion) : Question.QuestionData :=
  {| Question.enunciado := Str (statement q);
     Question.dificuldade := of_Z (difficulty q);
     Question.respostaCorreta := Str (correctAnswer q);
     Question.disciplinaId := of_Z (subjectId q);
     Question.autorId := of_Z (authorId q);
     Question.ativa := flag (active q) |}.

(** The fields of a creation other than the difficulty are valid. *)
Definition other_fields_valid (q : NewQuestion) : Prop :=
  statement q <> EmptyString /\ correctAnswer q <> EmptyString
  /\ 0 < subjectId q /\ 0 < authorId q.

Definition valid_question (q : NewQuestion) : Prop :=
  other_fields_valid q /\ 1 <= difficulty q <= 5.

(** Some stored question, respectively none, has this statement. *)
Definition statement_taken (s : string) (t : Question.Store) : Prop :=
  exists k r, rows t !! k = Some r /\ Question.col_enunciado r = s.

Definition statement_free (s : string) (t : Question.Store) : Prop :=
  forall k r, rows t !! k = Some r -> Question.col_enunciado r <> s.

(** A partial update: every field optional. *)
Record QuestionPatch : Type := {
  new_statement : option string;
  new_difficulty : option Z;
  new_correctAnswer : option string;
  new_subjectId : option Z;
  new_authorId : option Z;
  new_active : option bool
}.

Definition question_patch (p : QuestionPatch) : Question.QuestionData :=
  {| Question.enunciado := text (new_statement p);
     Question.dificuldade := int (new_difficulty p);
     Question.respostaCorreta := text (new_correctAnswer p);
     Question.disciplinaId := int (new_subjectId p);
     Question.autorId := int (new_authorId p);
     Question.ativa := flag (new_active p) |}.

Definition empty_question_patch : QuestionPatch :=
  {| new_statement := None; new_difficulty := None;
     new_correctAnswer := None; new_subjectId := None; new_authorId := None;
     new_active := None |}.

(** A text or an integer of a patch as the update takes it: an empty text
    and a zero leave the stored value. *)
Definition new_text (o : option string) (old : string) : string :=
  match o with
  | Some s => if String.eqb s EmptyString then old else s
  | None => old
  end.

Definition new_int (o : option Z) (old : Z) : Z :=
  match o with
  | Some n => if n =? 0 then old else n
  | None => old
  end.

(** The row an update leaves, written at time [now]. *)
Definition patched_question (p : QuestionPatch) (now : Z) (r : Question.Row)
  : Question.Row :=
  {| Question.col_enunciado :=
       new_text (new_statement p) (Question.col_enunciado r);
     Question.col_dificuldade :=
       new_int (new_difficulty p) (Question.col_dificuldade r);
     Question.col_respostaCorreta :=
       new_text (new_correctAnswer p) (Question.col_respostaCorreta r);
     Question.col_disciplinaId :=
       new_int (new_subjectId p) (Question.col_disciplinaId r);
     Question.col_autorId := new_int (new_authorId p) (Question.col_autorId r);
     Question.col_ativa := default (Question.col_ativa r) (new_active p);
     Question.col_createdAt := Question.col_createdAt r;
     Question.col_updatedAt := now |}.

(** The statement of a patch clashes with another question: it is given,
    not empty, not the current one, and stored somewhere. *)
Definition statement_clash (p : QuestionPatch) (r : Question.Row)
    (t : Question.Store) : Prop :=
  exists s, new_statement p = Some s /\ s <> EmptyString
    /\ s <> Question.col_enunciado r /\ statement_taken s t.

(** The statement of a patch passes the uniqueness check of the update:
    it is absent or empty, the current one, or stored nowhere. *)
Definition statement_accepted (p : QuestionPatch) (r : Question.Row)
    (t : Question.Store) : Prop :=
  forall s, new_statement p = Some s ->
    s = EmptyString \/ s = Question.col_enunciado r \/ statement_free s t.

(** The difficulty of a patch is given and outside 1..5. *)
Definition difficulty_out_of_range (p : QuestionPatch) : Prop :=
  exists d, new_difficulty p = Some d /\ (d < 1 \/ 5 < d).

(** The difficulty of a patch passes the range check of the update: it is
    absent, zero, or within 1..5. *)
Definition difficulty_accepted (p : QuestionPatch) : Prop :=
  forall d, new_difficulty p = Some d -> d = 0 \/ 1 <= d <= 5.

(** The store after a write to the row [n]. *)
Definition written {R} (n : Z) (r : R) (t : Table R) : Table R :=
  {| rows := <[n := r]> (rows t); nextId := nextId t; now := now t + 1 |}.

Definition removed {R} (n : Z) (t : Table R) : Table R :=
  {| rows := delete n (rows t); nextId := nextId t; now := now t |}.

Definition inserted {R} (r : R) (t : Table R) : Table R :=
  {| rows := <[nextId t := r]> (rows t);
     nextId := nextId t + 1;
     now := now t + 1 |}.

(** The row a valid creation stores. *)
Definition new_question_row (q : NewQuestion) (now : Z) : Question.Row :=
  {| Question.col_enunciado := statement q;
     Question.col_dificuldade := difficulty q;
     Question.col_respostaCorreta := correctAnswer q;
     Question.col_disciplinaId := subjectId q;
     Question.col_autorId := authorId q;
     Question.col_ativa := default true (active q);
     Question.col_createdAt := now;
     Question.col_updatedAt := now |}.

(** The uniqueness check of [updateQuestion], as the source writes it,
    on the stored question [existente]. *)
Definition statement_check (d : Question.QuestionData)
    (existente : JsObject Question.Field) : M Question.Store unit :=
  if truthy (Question.enunciado d)
     && strict_ne (Question.enunciado d) (prop existente Question.Enunciado)
  then
    bind (Question.enunciadoExists (Question.enunciado d))
      (fun b => bind (if b then throw (Error EnunciadoEmUso) else ret tt)
                     (fun _ => ret tt))
  else ret tt.

(** A value that is not truthy, taken as absent. *)
Definition if_truthy (v : JsValue) : JsValue :=
  if truthy v then v else Undefined.

Definition question_without_falsy (d : Question.QuestionData)
  : Question.QuestionData :=
  {| Question.enunciado := if_truthy (Question.enunciado d);
     Question.dificuldade := if_truthy (Question.dificuldade d);
     Question.respostaCorreta := if_truthy (Question.respostaCorreta d);
     Question.disciplinaId := if_truthy (Question.disciplinaId d);
     Question.autorId := if_truthy (Question.autorId d);
     Question.ativa := Question.ativa d |}.

(** Newest first, on stored questions. *)
Definition newer_question (a b : Z * Question.Row) : Prop :=
  Question.col_createdAt (snd b) <= Question.col_createdAt (snd a).

(** *** Subjects *)

Record NewSubject : Type := {
  name : string;
  instructorId : Z;
  subject_active : option bool
}.

Definition subject_data (s : NewSubject) : Subject.SubjectData :=
  {| Subject.nome := Str (name s);
     Subject.ativa := flag (subject_active s);
     Subject.professorId := of_Z (instructorId s) |}.

Definition valid_subject (s : NewSubject) : Prop :=
  name s <> EmptyString /\ 0 < instructorId s.

Definition name_taken (s : string) (t : Subject.Store) : Prop :=
  exists k r, rows t !! k = Some r /\ Subject.col_nome r = s.

Definition name_free (s : string) (t : Subject.Store) : Prop :=
  forall k r, rows t !! k = Some r -> Subject.col_nome r <> s.

Record SubjectPatch : Type := {
  new_name : option string;
  new_subject_active : option bool;
  new_instructorId : option Z
}.

Definition subject_patch (p : SubjectPatch) : Subject.SubjectData :=
  {| Subject.nome := text (new_name p);
     Subject.ativa := flag (new_subject_active p);
     Subject.professorId := int (new_instructorId p) |}.

Definition empty_subject_patch : SubjectPatch :=
  {| new_name := None; new_subject_active := None; new_instructorId := None |}.

Definition patched_subject (p : SubjectPatch) (now : Z) (r : Subject.Row)
  : Subject.Row :=
  {| Subject.col_nome := new_text (new_name p) (Subject.col_nome r);
     Subject.col_ativa := default (Subject.col_ativa r) (new_subject_active p);
     Subject.col_professorId :=
       new_int (new_instructorId p) (Subject.col_professorId r);
     Subject.col_createdAt := Subject.col_createdAt r;
     Subject.col_updatedAt := now |}.

Definition name_clash (p : SubjectPatch) (r : Subject.Row) (t : Subject.Store)
  : Prop :=
  exists s, new_name p = Some s /\ s <> EmptyString
    /\ s <> Subject.col_nome r /\ name_taken s t.

Definition name_accepted (p : SubjectPatch) (r : Subject.Row)
    (t : Subject.Store) : Prop :=
  forall s, new_name p = Some s ->
    s = EmptyString \/ s = Subject.col_nome r \/ name_free s t.

Definition name_check (d : Subject.SubjectData)
    (existente : JsObject Subject.Field) : M Subject.Store unit :=
  if truthy (Subject.nome d)
     && strict_ne (Subject.nome d) (prop existente Subject.Nome)
  then
    bind (Subject.nomeExists (Subject.nome d))
      (fun b => bind (if b then throw (Error NomeEmUso) else ret tt)
                     (fun _ => ret tt))
  else ret tt.

Definition subject_without_falsy (d : Subject.SubjectData)
  : Subject.SubjectData :=
  {| Subject.nome := if_truthy (Subject.nome d);
     Subject.ativa := Subject.ativa d;
     Subject.professorId := if_truthy (Subject.professorId d) |}.

Definition newer_subject (a b : Z * Subject.Row) : Prop :=
  Subject.col_createdAt (snd b) <= Subject.col_createdAt (snd a).

Definition new_subject_row (s : NewSubject) (now : Z) : Subject.Row :=
  {| Subject.col_nome := name s;
     Subject.col_ativa := default true (subject_active s);
     Subject.col_professorId := instructorId s;
     Subject.col_createdAt := now;
     Subject.col_updatedAt := now |}.

(** *** The claims that fail, as they are stated *)


(** An id greater than zero is read as its integer truncation (stated for
    numbers and [getById] on questions). *)
Definition operates_on_truncation : Prop :=
  forall (x : number) (n : Z) (t : Question.Store),
    positive_number x = true -> trunc x = Some n ->
    Question.getQuestionById (Num x) t
    = (Ok (select_fields (Some Question.select_all)
             <$> ((fun r => (n, r)) <$> rows t !! n)), t).

(** A positive integer id with no matching record gets the absent result
    (stated for [getById] on questions). *)
Definition absent_for_every_positive_integer : Prop :=
  forall (n : Z) (t : Question.Store),
    0 < n -> rows t !! n = None ->
    Question.getQuestionById (of_Z n) t = (Ok None, t).

(** *** Patches whose fields are present and falsy *)

Definition falsy_question_patch (a : option bool) : QuestionPatch :=
  {| new_statement := Some EmptyString; new_difficulty := Some 0;
     new_correctAnswer := Some EmptyString; new_subjectId := Some 0;
     new_authorId := Some 0; new_active := a |}.

Definition falsy_subject_patch (a : option bool) : SubjectPatch :=
  {| new_name := Some EmptyString; new_subject_active := a;
     new_instructorId := Some 0 |}.

Definition zero_difficulty : QuestionPatch :=
  {| new_statement := None; new_difficulty := Some 0;
     new_correctAnswer := None; new_subjectId := None; new_authorId := None;
     new_active := None |}.

End Spec.

(** ** Sample stores and inputs *)

Module Examples.
Import Spec Prisma.

Definition question_1 : Question.Row :=
  {| Question.col_enunciado := "2+2=?";
     Question.col_dificuldade := 1;
     Question.col_respostaCorreta := "4";
     Question.col_disciplinaId := 1;
     Question.col_autorId := 3;
     Question.col_ativa := true;
     Question.col_createdAt := 1000;
     Question.col_updatedAt := 1000 |}.

Definition questions (id : Z) : Question.Store :=
  {| rows := {[id := question_1]}; nextId := id + 1; now := 1001 |}.

Definition question_2 : Question.Row :=
  {| Question.col_enunciado := "3+3=?";
     Question.col_dificuldade := 2;
     Question.col_respostaCorreta := "6";
     Question.col_disciplinaId := 1;
     Question.col_autorId := 3;
     Question.col_ativa := true;
     Question.col_createdAt := 1001;
     Question.col_updatedAt := 1001 |}.

Definition two_questions : Question.Store :=
  {| rows := {[1 := question_1; 2 := question_2]}; nextId := 3; now := 1002 |}.

(** Question 2 renamed to the statement of question 1, and to its own. *)
Definition rename_to_1 : QuestionPatch :=
  {| new_statement := Some (Question.col_enunciado question_1);
     new_difficulty := None; new_correctAnswer := None;
     new_subjectId := None; new_authorId := None; new_active := None |}.

Definition rename_to_2 : QuestionPatch :=
  {| new_statement := Some (Question.col_enunciado question_2);
     new_difficulty := None; new_correctAnswer := None;
     new_subjectId := None; new_authorId := None; new_active := None |}.

Definition subject_1 : Subject.Row :=
  {| Subject.col_nome := "Algebra";
     Subject.col_ativa := true;
     Subject.col_professorId := 7;
     Subject.col_createdAt := 1000;
     Subject.col_updatedAt := 1000 |}.

Definition subjects (id : Z) : Subject.Store :=
  {| rows := {[id := subject_1]}; nextId := id + 1; now := 1001 |}.

Definition new_question : NewQuestion :=
  {| statement := "3*3=?"; difficulty := 2; correctAnswer := "9";
     subjectId := 1; authorId := 3; active := Some false |}.

Definition new_subject : NewSubject :=
  {| name := "Geometry"; instructorId := 7; subject_active := None |}.

Definition same_statement : NewQuestion :=
  {| statement := "2+2=?"; difficulty := 3; correctAnswer := "four";
     subjectId := 2; authorId := 4; active := None |}.

Definition same_name : NewSubject :=
  {| name := "Algebra"; instructorId := 9; subject_active := Some true |}.

End Examples.

(** ** Further notions

    The conditions the checks of the services test, and properties of the
    store, for the properties stated at the end. *)

Module Notions.
Import Js Prisma Spec.

(** Every required field of a creation is truthy. *)
Definition question_fields_present (d : Question.QuestionData) : bool :=
  truthy (Question.enunciado d) && truthy (Question.dificuldade d)
  && truthy (Question.respostaCorreta d) && truthy (Question.disciplinaId d)
  && truthy (Question.autorId d).

Definition subject_fields_present (d : Subject.SubjectData) : bool :=
  truthy (Subject.nome d) && truthy (Subject.professorId d).

(** A number below 1 or above 5; [NaN] is neither. *)
Definition outside_1_5 (x : number) : bool :=
  match x with
  | NaN => false
  | Infinity _ => true
  | Finite m e =>
      match fin_compare m e 1 0, fin_compare m e 5 0 with
      | Lt, _ | _, Gt => true
      | _, _ => false
      end
  end.



(** The decimal digits of a positive integer, as a string: the form in
    which a route parameter carries an id. *)
Definition decimal_string (n : Z) : string :=
  string_of_list_ascii (nat_digits n).

(** [if (c) o.f = v] on its own: the entry it adds. *)
Definition question_entry (c : bool) (f : Question.Field) (v : JsValue)
  : JsObject Question.Field :=
  if c then [(f, v)] else [].

(** What [dadosAtualizacao] holds besides the statement. *)
Definition question_other_entries (d : Question.QuestionData)
  : JsObject Question.Field :=
  question_entry (truthy (Question.dificuldade d))
                 Question.Dificuldade (Question.dificuldade d)
  ++ question_entry (truthy (Question.respostaCorreta d))
                    Question.RespostaCorreta (Question.respostaCorreta d)
  ++ question_entry (truthy (Question.disciplinaId d))
                    Question.DisciplinaId (Question.disciplinaId d)
  ++ question_entry (truthy (Question.autorId d))
                    Question.AutorId (Question.autorId d)
  ++ question_entry (strict_ne (Question.ativa d) Undefined)
                    Question.Ativa (Question.ativa d).

Definition subject_entry (c : bool) (f : Subject.Field) (v : JsValue)
  : JsObject Subject.Field :=
  if c then [(f, v)] else [].

Definition subject_other_entries (d : Subject.SubjectData)
  : JsObject Subject.Field :=
  subject_entry (strict_ne (Subject.ativa d) Undefined)
                Subject.Ativa (Subject.ativa d)
  ++ subject_entry (truthy (Subject.professorId d))
                   Subject.ProfessorId (Subject.professorId d).

(** A typed creation with an empty text or a zero among its required
    fields. *)
Definition empty_or_zero (q : NewQuestion) : Prop :=
  statement q = EmptyString \/ difficulty q = 0
  \/ correctAnswer q = EmptyString \/ subjectId q = 0 \/ authorId q = 0.

Definition subject_empty_or_zero (s : NewSubject) : Prop :=
  name s = EmptyString \/ instructorId s = 0.





End Notions.

(** ** Facts about the JavaScript fragment *)

Import Js Prisma Spec.

(** *** The guard on ids *)

Lemma fin_compare_zero_l m e : fin_compare 0 0 m e = (0 ?= m).
Proof.
  unfold fin_compare. rewrite Z.mul_0_l.
  assert (0 < 10 ^ (e - Z.min 0 e)) by (apply Z.pow_pos_nonneg; lia).
  destruct (Z.compare_spec 0 m) as [<-|Hlt|Hgt].
  - now rewrite Z.mul_0_l.
  - apply Z.compare_lt_iff. nia.
  - apply Z.compare_gt_iff. nia.
Qed.

(** The last two tests of the guard reject what is not a positive number. *)
Lemma guard_numeric v :
  isNaN v || le v (of_Z 0) = negb (positive_number (ToNumber v)).
Proof.
  unfold isNaN, le, IsLessThan, of_Z.
  change (ToNumber (Num (Finite 0 0))) with (Finite 0 0).
  destruct (ToNumber v) as [|[]|m e]; try reflexivity.
  cbn [num_compare positive_number orb]. rewrite fin_compare_zero_l.
  destruct m; reflexivity.
Qed.

Lemma positive_truthy v : positive_number (ToNumber v) = true -> truthy v = true.
Proof.
  destruct v as [| |[]|[|[]|[]]|[]]; try reflexivity; try discriminate.
Qed.

(** *** Digits *)

Lemma digits_value_step ds : digits_value 10 ds = fold_left (step 10) ds 0.
Proof. reflexivity. Qed.

Lemma uint_chars_digits d : Forall (fun c => is_digit 10 c = true) (uint_chars d).
Proof. induction d; simpl; constructor; auto. Qed.

Lemma fold_uint_acc d : forall acc,
  fold_left (step 10) (uint_chars d) (Zpos acc) = Zpos (Pos.of_uint_acc d acc).
Proof.
  induction d; intros acc; simpl; try reflexivity;
    rewrite <- IHd; f_equal; unfold step;
    match goal with |- context [digit_or_zero ?c] =>
      let v := eval vm_compute in (digit_or_zero c) in
      change (digit_or_zero c) with v end; lia.
Qed.

Lemma fold_uint d : fold_left (step 10) (uint_chars d) 0 = Z.of_N (Pos.of_uint d).
Proof.
  induction d; simpl; try reflexivity; try exact IHd;
    unfold step at 2;
    match goal with |- context [digit_or_zero ?c] =>
      let v := eval vm_compute in (0 * 10 + digit_or_zero c) in
      change (0 * 10 + digit_or_zero c) with v end;
    apply fold_uint_acc.
Qed.

(** Printing then reading the digits of a positive number gives it back. *)
Lemma pos_digits_value p : digits_value 10 (pos_digits p) = Zpos p.
Proof.
  rewrite digits_value_step. unfold pos_digits.
  rewrite fold_uint, DecimalPos.Unsigned.of_to. reflexivity.
Qed.

Lemma digit_code c :
  digit c -> 48 <= code c <= 57 /\ digit_or_zero c = code c - 48.
Proof.
  unfold digit, is_digit, digit_or_zero, digit_value.
  destruct ((48 <=? code c) && (code c <=? 57)) eqn:E1.
  - intros _. apply andb_true_iff in E1 as [?%Z.leb_le ?%Z.leb_le]. simpl. lia.
  - destruct ((97 <=? code c) && (code c <=? 122)) eqn:E2.
    + apply andb_true_iff in E2 as [?%Z.leb_le ?%Z.leb_le].
      intros ?%Z.ltb_lt. lia.
    + destruct ((65 <=? code c) && (code c <=? 90)) eqn:E3; [|discriminate].
      apply andb_true_iff in E3 as [?%Z.leb_le ?%Z.leb_le].
      intros ?%Z.ltb_lt. lia.
Qed.

Lemma is_char_1 (a c : ascii) :
  is_char (String a EmptyString) c = (code c =? code a).
Proof. unfold is_char, chars. simpl. unfold ascii_eqb. apply orb_false_r. Qed.

Lemma digit_not_white c : digit c -> is_white c = false.
Proof.
  intros [H _]%digit_code. unfold is_white.
  repeat (apply orb_false_iff; split); apply Z.eqb_neq; lia.
Qed.

Lemma digit_not_sign c :
  digit c -> is_char "-" c = false /\ is_char "+" c = false.
Proof.
  intros [H _]%digit_code. rewrite !is_char_1.
  change (code "-") with 45. change (code "+") with 43.
  split; apply Z.eqb_neq; lia.
Qed.

Lemma digit_not_point c : is_char "." c = true -> is_digit 10 c = false.
Proof.
  rewrite is_char_1. change (code ".") with 46. intros H%Z.eqb_eq.
  destruct (is_digit 10 c) eqn:E; [|reflexivity].
  apply digit_code in E. lia.
Qed.

Lemma zero_char_eq c : is_zero_char c = true -> c = "0"%char.
Proof.
  unfold is_zero_char, code. intros H%Z.eqb_eq.
  rewrite <- (ascii_nat_embedding c).
  replace (nat_of_ascii c) with 48%nat by lia. reflexivity.
Qed.

Lemma span_app {A} (p : A -> bool) l :
  l = fst (span p l) ++ snd (span p l)
  /\ Forall (fun x => p x = true) (fst (span p l)).
Proof.
  induction l as [|x l [IH1 IH2]]; simpl.
  - split; [reflexivity | constructor].
  - destruct (p x) eqn:E; [|split; [reflexivity | constructor]].
    destruct (span p l) as [a b]. simpl in *. split.
    + now f_equal.
    + now constructor.
Qed.

Lemma span_all {A} (p : A -> bool) l r :
  Forall (fun x => p x = true) l ->
  match r with [] => True | x :: _ => p x = false end ->
  span p (l ++ r) = (l, r).
Proof.
  intros Hl Hr. induction Hl as [|x l Hx _ IH]; simpl.
  - destruct r as [|y r]; [reflexivity|]. simpl. now rewrite Hr.
  - now rewrite Hx, IH.
Qed.

Lemma fold_step_acc ds : forall acc,
  fold_left (step 10) ds acc = acc * 10 ^ Z.of_nat (length ds) + fold_left (step 10) ds 0.
Proof.
  induction ds as [|c ds IH]; intros acc.
  - simpl. lia.
  - cbn [fold_left length]. rewrite IH, (IH (step 10 0 c)).
    unfold step. rewrite Nat2Z.inj_succ, Z.pow_succ_r by lia. lia.
Qed.

Lemma digits_value_app a b :
  digits_value 10 (a ++ b)
  = digits_value 10 a * 10 ^ Z.of_nat (length b) + digits_value 10 b.
Proof.
  rewrite !digits_value_step, fold_left_app. apply fold_step_acc.
Qed.

Lemma digits_value_bound ds :
  Forall digit ds -> 0 <= digits_value 10 ds < 10 ^ Z.of_nat (length ds).
Proof.
  induction ds as [|c ds IH] using rev_ind; intros H.
  - simpl. rewrite digits_value_step. simpl. lia.
  - apply Forall_app in H as [H1 H2]. apply Forall_inv in H2.
    specialize (IH H1). rewrite digits_value_app, length_app.
    cbn [length]. rewrite Nat2Z.inj_add, Z.pow_add_r by lia.
    change (digits_value 10 [c]) with (0 * 10 + digit_or_zero c).
    apply digit_code in H2. change (10 ^ Z.of_nat 1) with 10. lia.
Qed.

Lemma digits_value_zeros n : digits_value 10 (zeros n) = 0.
Proof.
  induction n as [|n IH]; [reflexivity|].
  change (zeros (S n)) with (["0"%char] ++ zeros n).
  rewrite digits_value_app, IH. reflexivity.
Qed.

Lemma zeros_digits n : Forall digit (zeros n).
Proof. induction n; constructor; auto. reflexivity. Qed.

Lemma length_zeros n : length (zeros n) = n.
Proof. apply repeat_length. Qed.

Lemma to_uint_head p :
  match Pos.to_uint p with
  | Decimal.Nil | Decimal.D0 _ => False
  | _ => True
  end.
Proof.
  pose proof (DecimalPos.Unsigned.to_of (Pos.to_uint p)) as H.
  rewrite DecimalPos.Unsigned.of_to in H. change (N.to_uint (N.pos p)) with (Pos.to_uint p) in H.
  pose proof (DecimalPos.Unsigned.to_uint_nonnil p) as Hnil.
  pose proof (DecimalPos.Unsigned.to_uint_nonzero p) as Hz.
  destruct (Pos.to_uint p) as [|d| | | | | | | | | ]; try exact I.
  - now apply Hnil.
  - unfold Decimal.unorm in H. simpl in H.
    destruct (Decimal.nzhead d) eqn:E; try discriminate.
    + injection H as H. subst d. now apply Hz.
    + now apply (nzhead_nonzero d u).
Qed.

Lemma pos_digits_head p :
  exists c rest, pos_digits p = c :: rest /\ is_zero_char c = false.
Proof.
  unfold pos_digits. pose proof (to_uint_head p) as H.
  destruct (Pos.to_uint p); try contradiction; simpl; eauto.
Qed.

Lemma pos_digits_digits p : Forall digit (pos_digits p).
Proof. apply uint_chars_digits. Qed.

Lemma rev_zeros n : rev (zeros n) = zeros n.
Proof.
  unfold zeros. induction n as [|n IH]; [reflexivity|].
  cbn [repeat rev]. rewrite IH. symmetry. apply repeat_cons.
Qed.

Lemma all_zero_chars a :
  Forall (fun c => is_zero_char c = true) a -> a = zeros (length a).
Proof.
  induction 1 as [|c a Hc _ IH]; [reflexivity|].
  rewrite (zero_char_eq c Hc). cbn [length]. unfold zeros. cbn [repeat].
  f_equal. exact IH.
Qed.

(** A digit string is its stripped form followed by zeros. *)
Lemma strip_zeros_spec ds :
  ds = strip_zeros ds ++ zeros (length ds - length (strip_zeros ds)).
Proof.
  unfold strip_zeros.
  destruct (span_app is_zero_char (rev ds)) as [H1 H2].
  destruct (span is_zero_char (rev ds)) as [a b]. simpl in *.
  apply (f_equal (@rev ascii)) in H1. rewrite rev_involutive, rev_app_distr in H1.
  rewrite (all_zero_chars a H2), rev_zeros in H1.
  assert (length ds = (length (rev b) + length a)%nat) as Hl.
  { rewrite H1 at 1. now rewrite length_app, length_zeros. }
  replace (length ds - length (rev b))%nat with (length a) by lia.
  exact H1.
Qed.

Lemma strip_zeros_head c rest :
  is_zero_char c = false ->
  exists rest', strip_zeros (c :: rest) = c :: rest'.
Proof.
  intros Hc. pose proof (strip_zeros_spec (c :: rest)) as H.
  destruct (strip_zeros (c :: rest)) as [|c' rest'].
  - simpl in H. injection H as H _. subst c.
    vm_compute in Hc. discriminate.
  - injection H as H _. subst c'. eauto.
Qed.

Lemma strip_zeros_digits ds : Forall digit ds -> Forall digit (strip_zeros ds).
Proof.
  intros H. rewrite (strip_zeros_spec ds) in H.
  now apply Forall_app in H as [H _].
Qed.

Lemma to_int_round_range v :
  0 <= v < 10 ^ 21 -> to_int (round_range v 0) = Some v.
Proof.
  intros H. unfold round_range.
  destruct (Z.abs v =? 0) eqn:E.
  - apply Z.eqb_eq in E. simpl. f_equal. lia.
  - change (0 <=? 0) with true. cbv iota.
    assert (10 ^ 21 < 2 ^ 1024 - 2 ^ 970) as Hb by (vm_compute; reflexivity).
    set (B := 2 ^ 1024 - 2 ^ 970) in *. set (C := 10 ^ 21) in *.
    change (10 ^ 0) with 1.
    destruct (B <=? Z.abs v * 1) eqn:E2.
    + apply Z.leb_le in E2. lia.
    + simpl. f_equal. lia.
Qed.

(** [parseInt] on digits followed by something that is not a digit, when
    the text does not start with [0x]. *)
Lemma parseInt_chars_digits c ds r :
  Forall digit (c :: ds) ->
  match r with [] => True | x :: _ => is_digit 10 x = false end ->
  match ds ++ r with
  | x :: _ => is_char "0" c && is_char "xX" x = false
  | [] => True
  end ->
  parseInt_chars ((c :: ds) ++ r) = round_range (digits_value 10 (c :: ds)) 0.
Proof.
  intros Hd Hr Hx. pose proof (Forall_inv Hd) as Hc.
  unfold parseInt_chars. cbn [app trim_start].
  rewrite (digit_not_white c Hc).
  destruct (digit_not_sign c Hc) as [-> ->].
  assert (span (is_digit 10) (c :: ds ++ r) = (c :: ds, r)) as Hs
    by (apply (span_all (is_digit 10) (c :: ds) r); assumption).
  destruct (ds ++ r) as [|x t] eqn:E.
  - rewrite Hs. reflexivity.
  - rewrite Hx, Hs. reflexivity.
Qed.

(** *** [parseInt] of a number *)

Lemma is_char_zero c : is_char "0" c = is_zero_char c.
Proof. apply is_char_1. Qed.

Lemma pos_digits_lower p :
  10 ^ (Z.of_nat (length (pos_digits p)) - 1) <= Zpos p.
Proof.
  rewrite <- (pos_digits_value p).
  destruct (pos_digits_head p) as (c & rest & E & Hc).
  pose proof (pos_digits_digits p) as Hd. rewrite E in *.
  change (c :: rest) with ([c] ++ rest). rewrite digits_value_app.
  apply Forall_cons in Hd as [H1 H2].
  pose proof (digits_value_bound rest H2).
  apply digit_code in H1 as [H1 H1'].
  change (digits_value 10 [c]) with (0 * 10 + digit_or_zero c).
  unfold is_zero_char in Hc. apply Z.eqb_neq in Hc.
  rewrite length_app. cbn [length].
  replace (Z.of_nat (1 + length rest) - 1) with (Z.of_nat (length rest)) by lia.
  nia.
Qed.

(** [parseInt] of a positive number printed without an exponent is its
    truncation: the three shapes of [Number::toString] in turn. *)
Lemma parseInt_plain p e :
  -5 <= e + Z.of_nat (length (pos_digits p)) <= 21 ->
  to_int (parseInt (Num (Finite (Zpos p) e))) = trunc (Finite (Zpos p) e).
Proof.
  intros Hn. unfold parseInt, chars, ToString.
  rewrite list_ascii_of_string_of_list_ascii.
  cbn [number_to_chars]. unfold positive_to_chars.
  destruct (pos_digits_head p) as (c & rest & E & Hc).
  pose proof (pos_digits_digits p) as Hd.
  pose proof (pos_digits_value p) as Hv.
  pose proof (strip_zeros_spec (pos_digits p)) as Hs.
  pose proof (strip_zeros_digits _ Hd) as Hsd.
  assert (exists rest', strip_zeros (pos_digits p) = c :: rest') as [rest' Es]
    by (rewrite E; now apply strip_zeros_head).
  set (ds := pos_digits p) in *. set (s := strip_zeros ds) in *.
  assert (length s <= length ds)%nat as Hle.
  { rewrite Hs at 1. rewrite length_app. lia. }
  set (z := (length ds - length s)%nat) in *.
  assert (Zpos p = digits_value 10 s * 10 ^ Z.of_nat z) as Hp.
  { rewrite <- Hv, Hs, digits_value_app, digits_value_zeros, length_zeros. lia. }
  pose proof (digits_value_bound s Hsd) as Hb.
  assert (Z.of_nat (length ds) = Z.of_nat (length s) + Z.of_nat z) as Hlen by lia.
  assert (is_char "0" c = false) as Hc0 by now rewrite is_char_zero.
  replace ((-5 <=? e + Z.of_nat (length ds)) && (e + Z.of_nat (length ds) <=? 21))
    with true by (symmetry; apply andb_true_iff; split; apply Z.leb_le; lia).
  cbv iota.
  destruct (Z.of_nat (length s) <=? e + Z.of_nat (length ds)) eqn:E1.
  - (* an integer: the digits and then zeros *)
    apply Z.leb_le in E1.
    set (m := Z.to_nat (e + Z.of_nat (length ds) - Z.of_nat (length s))).
    assert (Z.of_nat m = e + Z.of_nat z) as Hm by lia.
    rewrite Es. rewrite <- (app_nil_r ((c :: rest') ++ zeros m)).
    change ((c :: rest') ++ zeros m) with (c :: (rest' ++ zeros m)).
    rewrite parseInt_chars_digits.
    + change (c :: rest' ++ zeros m) with ((c :: rest') ++ zeros m).
      rewrite <- Es, digits_value_app, digits_value_zeros, length_zeros, Z.add_0_r.
      rewrite to_int_round_range.
      * unfold trunc. f_equal. rewrite Hp, Hm.
        destruct (0 <=? e) eqn:E2.
        -- apply Z.leb_le in E2. rewrite Z.pow_add_r by lia. ring.
        -- apply Z.leb_gt in E2.
           assert (10 ^ Z.of_nat z = 10 ^ (e + Z.of_nat z) * 10 ^ (- e)) as ->
             by (rewrite <- Z.pow_add_r by lia; f_equal; lia).
           rewrite Z.mul_assoc.
           rewrite Z.quot_mul; [reflexivity|].
           apply Z.pow_nonzero; lia.
      * split; [apply Z.mul_nonneg_nonneg; [lia | apply Z.pow_nonneg; lia]|].
        apply Z.lt_le_trans with (10 ^ Z.of_nat (length s) * 10 ^ Z.of_nat m).
        -- apply Z.mul_lt_mono_pos_r; [apply Z.pow_pos_nonneg; lia | lia].
        -- rewrite <- Z.pow_add_r by lia. apply Z.pow_le_mono_r; lia.
    + change (c :: rest' ++ zeros m) with ((c :: rest') ++ zeros m).
      rewrite <- Es. apply Forall_app. split; [exact Hsd | apply zeros_digits].
    + exact I.
    + rewrite Hc0. now destruct ((rest' ++ zeros m) ++ []).
  - apply Z.leb_gt in E1.
    destruct (0 <? e + Z.of_nat (length ds)) eqn:E2.
    + (* digits on both sides of the point *)
      apply Z.ltb_lt in E2.
      set (n := Z.to_nat (e + Z.of_nat (length ds))).
      assert (0 < n < length s)%nat as Hn' by lia.
      assert (exists t', take n s = c :: t') as [t' Et].
      { rewrite Es. destruct n; [lia|]. simpl. eauto. }
      pose proof (take_drop n s) as Htd.
      assert (Forall digit (take n s)) as Hdt by now apply Forall_take.
      assert (Forall digit (drop n s)) as Hdd by now apply Forall_drop.
      assert (length (take n s) = n) as Hlt by (rewrite length_take; lia).
      assert (length (drop n s) = (length s - n)%nat) as Hld
        by now rewrite length_drop.
      rewrite Et. change ((c :: t') ++ "."%char :: drop n s)
        with ((c :: t') ++ ("."%char :: drop n s)).
      rewrite parseInt_chars_digits.
      * rewrite <- Et. pose proof (digits_value_bound _ Hdt) as Hbt.
        pose proof (digits_value_bound _ Hdd) as Hbd.
        rewrite Hlt in Hbt. rewrite Hld in Hbd.
        rewrite to_int_round_range.
        -- unfold trunc. f_equal.
           replace (0 <=? e) with false by (symmetry; apply Z.leb_gt; lia).
           rewrite Z.quot_div_nonneg by (try apply Z.pow_pos_nonneg; lia).
           apply Z.div_unique with
             (r := digits_value 10 (drop n s) * 10 ^ Z.of_nat z).
           ++ left. split; [apply Z.mul_nonneg_nonneg; [lia | apply Z.pow_nonneg; lia]|].
              replace (- e) with (Z.of_nat (length s - n) + Z.of_nat z) by lia.
              rewrite Z.pow_add_r by lia.
              apply Z.mul_lt_mono_pos_r; [apply Z.pow_pos_nonneg; lia | lia].
           ++ rewrite Hp. rewrite <- Htd at 1.
              rewrite digits_value_app, Hld.
              replace (- e) with (Z.of_nat (length s - n) + Z.of_nat z) by lia.
              rewrite Z.pow_add_r by lia. ring.
        -- split; [lia|]. apply Z.lt_le_trans with (10 ^ Z.of_nat n); [lia|].
           apply Z.pow_le_mono_r; lia.
      * now rewrite <- Et.
      * reflexivity.
      * rewrite Hc0. now destruct (t' ++ "."%char :: drop n s).
    + (* below one: a zero before the point *)
      apply Z.ltb_ge in E2.
      change ("0"%char :: "."%char :: zeros (Z.to_nat (- (e + Z.of_nat (length ds)))) ++ s)
        with (("0"%char :: []) ++ ("."%char :: zeros (Z.to_nat (- (e + Z.of_nat (length ds)))) ++ s)).
      rewrite parseInt_chars_digits.
      * change (to_int (round_range (digits_value 10 ["0"%char]) 0)) with (Some 0).
        unfold trunc. f_equal.
        replace (0 <=? e) with false by (symmetry; apply Z.leb_gt; lia).
        symmetry. apply Z.quot_small. split; [lia|].
        pose proof (digits_value_bound ds Hd) as Hbds. rewrite Hv in Hbds.
        apply Z.lt_le_trans with (10 ^ Z.of_nat (length ds)); [lia|].
        apply Z.pow_le_mono_r; lia.
      * constructor; [reflexivity | constructor].
      * reflexivity.
      * reflexivity.
Qed.

(** In particular [parseInt] gives a positive integer below 10^21 back. *)
Lemma parseInt_of_Z n : 0 < n < 10 ^ 21 -> to_int (parseInt (of_Z n)) = Some n.
Proof.
  intros [H1 H2]. destruct n as [|p|p]; try lia.
  unfold of_Z. rewrite parseInt_plain.
  - unfold trunc. simpl. f_equal. lia.
  - pose proof (pos_digits_lower p) as Hl.
    destruct (pos_digits_head p) as (c & rest & E & _).
    assert (Z.of_nat (length (pos_digits p)) - 1 < 21).
    { apply (Z.pow_lt_mono_r_iff 10); lia. }
    rewrite E in *. cbn [length] in *. lia.
Qed.

Lemma pos_digits_upper p : Zpos p < 10 ^ Z.of_nat (length (pos_digits p)).
Proof.
  rewrite <- (pos_digits_value p) at 1.
  apply digits_value_bound, pos_digits_digits.
Qed.

(** Between 0.000001 and 1e21 the decimal point falls where
    [Number::toString] prints no exponent. *)
Lemma plain_decimal_inv x :
  plain_decimal x ->
  exists p e, x = Finite (Zpos p) e
    /\ -5 <= e + Z.of_nat (length (pos_digits p)) <= 21.
Proof.
  unfold plain_decimal, le, lt, IsLessThan. cbn [ToNumber].
  destruct x as [|[]|m e]; cbn [num_compare]; try (intros [? ?]; discriminate).
  unfold fin_compare. intros [H1 H2].
  assert (0 < m) as Hm.
  { destruct (Z.compare_spec (m * 10 ^ (e - Z.min e (-6)))
                             (1 * 10 ^ (-6 - Z.min e (-6)))) as [Heq|Hlt|Hgt];
      try discriminate.
    - assert (0 < 10 ^ (-6 - Z.min e (-6))) by (apply Z.pow_pos_nonneg; lia).
      assert (0 < 10 ^ (e - Z.min e (-6))) by (apply Z.pow_pos_nonneg; lia).
      nia.
    - assert (0 < 10 ^ (-6 - Z.min e (-6))) by (apply Z.pow_pos_nonneg; lia).
      assert (0 < 10 ^ (e - Z.min e (-6))) by (apply Z.pow_pos_nonneg; lia).
      nia. }
  destruct m as [|p|p]; try lia. exists p, e. split; [reflexivity|].
  pose proof (pos_digits_lower p) as Hlo.
  pose proof (pos_digits_upper p) as Hup.
  set (L := Z.of_nat (length (pos_digits p))) in *.
  assert (1 <= L) as HL.
  { destruct (pos_digits_head p) as (c & rest & E & _).
    unfold L. rewrite E. cbn [length]. lia. }
  split.
  - destruct (Z.le_gt_cases (-6) e) as [He|He]; [lia|].
    rewrite Z.min_l in H1 by lia.
    replace (e - e) with 0 in H1 by lia.
    destruct (Z.compare_spec (Z.pos p * 10 ^ 0) (1 * 10 ^ (-6 - e)))
      as [Heq|Hlt|Hgt]; try discriminate.
    + assert (10 ^ (-6 - e) < 10 ^ L) as Hpw by (change (10 ^ 0) with 1 in Heq; lia).
      apply Z.pow_lt_mono_r_iff in Hpw; lia.
    + assert (10 ^ (-6 - e) < 10 ^ L) as Hpw by (change (10 ^ 0) with 1 in Hgt; lia).
      apply Z.pow_lt_mono_r_iff in Hpw; lia.
  - destruct (Z.compare_spec (Z.pos p * 10 ^ (e - Z.min e 21))
                             (1 * 10 ^ (21 - Z.min e 21))) as [Heq|Hlt|Hgt];
      try discriminate.
    destruct (Z.le_gt_cases e 21) as [He|He].
    + rewrite Z.min_l in Hlt by lia. replace (e - e) with 0 in Hlt by lia.
      change (10 ^ 0) with 1 in Hlt.
      assert (10 ^ (L - 1) < 10 ^ (21 - e)) as Hpw by lia.
      apply Z.pow_lt_mono_r_iff in Hpw; lia.
    + rewrite Z.min_r in Hlt by lia. replace (21 - 21) with 0 in Hlt by lia.
      change (10 ^ 0) with 1 in Hlt.
      assert (0 < 10 ^ (e - 21)) by (apply Z.pow_pos_nonneg; lia). nia.
Qed.

Lemma parseInt_trunc x :
  plain_decimal x -> to_int (parseInt (Num x)) = trunc x.
Proof.
  intros (p & e & -> & H)%plain_decimal_inv. now apply parseInt_plain.
Qed.

(** *** Integers as values *)

Lemma fin_compare_int a b : fin_compare a 0 b 0 = (a ?= b).
Proof. unfold fin_compare. simpl. now rewrite !Z.mul_1_r. Qed.

Lemma lt_of_Z a b : lt (of_Z a) (of_Z b) = (a <? b).
Proof.
  unfold lt, IsLessThan, of_Z. cbn [ToNumber num_compare].
  rewrite fin_compare_int. unfold Z.ltb. now destruct (a ?= b).
Qed.

Lemma gt_of_Z a b : gt (of_Z a) (of_Z b) = (b <? a).
Proof.
  unfold gt, IsLessThan, of_Z. cbn [ToNumber num_compare].
  rewrite fin_compare_int. unfold Z.ltb. now destruct (b ?= a).
Qed.

Lemma truthy_of_Z a : truthy (of_Z a) = negb (a =? 0).
Proof. reflexivity. Qed.

Lemma truthy_Str s : s <> EmptyString -> truthy (Str s) = true.
Proof.
  intros H. simpl. apply negb_true_iff. now apply String.eqb_neq.
Qed.

Lemma to_int_of_Z a : to_int (Finite a 0) = Some a.
Proof. simpl. f_equal. lia. Qed.

Lemma is_int_of_Z a : is_int (of_Z a) = true.
Proof. unfold is_int, of_Z. now rewrite to_int_of_Z. Qed.

Lemma int_of_of_Z a d : int_of (of_Z a) d = a.
Proof. unfold int_of, of_Z. now rewrite to_int_of_Z. Qed.

Lemma of_Z_designates n : 0 < n < 10 ^ 21 -> designates (of_Z n) n.
Proof.
  intros H. split; [|now apply parseInt_of_Z].
  simpl. apply Z.ltb_lt. lia.
Qed.

(** ** Facts about the record store *)

Section ClientFacts.
Context {F R : Type} `{!Model F R}.

Lemma field_eqb_refl (f : F) : field_eqb f f = true.
Proof. unfold field_eqb. now destruct (decide (f = f)). Qed.

Lemma field_eqb_ne (f g : F) : f <> g -> field_eqb f g = false.
Proof. intros H. unfold field_eqb. now destruct (decide (f = g)). Qed.

(** A [where] on the key is a lookup. *)
Lemma locate_key x n (t : Table R) :
  to_int x = Some n ->
  locate (key, Num x) t = Ok ((fun r => (n, r)) <$> rows t !! n).
Proof. intros H. unfold locate. now rewrite field_eqb_refl, H. Qed.

Lemma head_filter_Some {A} (p : A -> bool) l x :
  x ∈ l -> p x = true -> exists y, head (List.filter p l) = Some y.
Proof.
  intros Hin Hp. induction Hin as [x l|x y l _ IH]; simpl.
  - rewrite Hp. simpl. eauto.
  - destruct (p y); simpl; eauto.
Qed.

Lemma head_filter_None {A} (p : A -> bool) l :
  (forall x, x ∈ l -> p x = false) -> head (List.filter p l) = None.
Proof.
  induction l as [|y l IH]; intros H; simpl; [reflexivity|].
  rewrite (H y) by constructor. apply IH. intros x Hx. apply H. now constructor.
Qed.

Lemma locate_found f v (t : Table R) k r :
  f <> key -> accepts f v = true ->
  rows t !! k = Some r -> strict_eq (read k r f) v = true ->
  exists rec, locate (f, v) t = Ok (Some rec).
Proof.
  intros Hf Ha Hk Hv. unfold locate. rewrite (field_eqb_ne _ _ Hf), Ha.
  destruct (head_filter_Some
    (fun p => strict_eq (read (fst p) (snd p) f) v)
    (map_to_list (rows t)) (k, r)) as [y Hy].
  - now apply elem_of_map_to_list.
  - exact Hv.
  - exists y. now rewrite Hy.
Qed.

Lemma locate_absent f v (t : Table R) :
  f <> key -> accepts f v = true ->
  (forall k r, rows t !! k = Some r -> strict_eq (read k r f) v = false) ->
  locate (f, v) t = Ok None.
Proof.
  intros Hf Ha Hn. unfold locate. rewrite (field_eqb_ne _ _ Hf), Ha.
  rewrite head_filter_None; [reflexivity|].
  intros [k r] Hin. apply elem_of_map_to_list in Hin. now apply Hn.
Qed.

(** Assigning an object built in two steps. *)
Lemma assign_app (a b : JsObject F) (r : R) :
  assign (a ++ b) r
  = match assign a r with Some r' => assign b r' | None => None end.
Proof.
  revert r. induction a as [|[f v] a IH]; intros r; simpl; [reflexivity|].
  destruct (defined v); [|apply IH].
  destruct (existsb (field_eqb f) writable && accepts f v); [apply IH|reflexivity].
Qed.

End ClientFacts.

Section Listing.
Context {F R : Type} `{!Model F R}.

(** [findMany] returns the selection of a sorted permutation of the table. *)
Lemma findMany_sorted sel orderBy (t : Table R) :
  Transitive (ordered orderBy) -> Total (ordered orderBy) ->
  exists l,
    findMany sel orderBy t = (Ok (map (select_fields sel) l), t)
    /\ l ≡ₚ map_to_list (rows t)
    /\ StronglySorted (ordered orderBy) l.
Proof.
  intros Htr Hto. exists (merge_sort (ordered orderBy) (map_to_list (rows t))).
  split; [reflexivity|]. split.
  - apply merge_sort_Permutation.
  - now apply StronglySorted_merge_sort.
Qed.


End Listing.

Lemma StronglySorted_weaken {A} (R1 R2 : A -> A -> Prop) l :
  (forall a b, R1 a b -> R2 a b) -> StronglySorted R1 l -> StronglySorted R2 l.
Proof.
  intros H. induction 1 as [|a l _ IH Hall]; constructor; [exact IH|].
  eapply Forall_impl; [exact Hall|]. intros b. apply H.
Qed.


Section Shapes.
Context {F R : Type} `{!Model F R}.





End Shapes.

Lemma when_Ok {S} (b : bool) e (s s' : S) u :
  (if b then throw e else ret tt) s = (Ok u, s') -> b = false /\ s' = s.
Proof. destruct b; [discriminate|]. now intros [= _ <-]. Qed.

(** ** Facts about the question service *)

Module QuestionFacts.
Import Question.

(** The guard rejects an id exactly when its numeric value is not a
    positive number; its first test adds nothing. *)
Lemma question_invalid_id_spec v :
  Question.invalid_id v = negb (positive_number (ToNumber v)).
Proof.
  unfold Question.invalid_id. rewrite <- orb_assoc, guard_numeric.
  destruct (positive_number (ToNumber v)) eqn:E.
  - now rewrite (positive_truthy v E).
  - apply orb_true_r.
Qed.

Lemma question_invalid_id_designates v n : designates v n -> invalid_id v = false.
Proof. intros [H _]. now rewrite question_invalid_id_spec, H. Qed.

Lemma question_locate_id x n (t : Store) :
  to_int x = Some n ->
  locate (Id, Num x) t = Ok ((fun r => (n, r)) <$> rows t !! n).
Proof. exact (locate_key x n t). Qed.

Lemma question_findUnique_id v n sel (t : Store) :
  designates v n ->
  findUnique (Id, Num (parseInt v)) sel t
  = (Ok (select_fields sel <$> ((fun r => (n, r)) <$> rows t !! n)), t).
Proof. intros [_ H]. unfold findUnique. now rewrite (question_locate_id _ n t H). Qed.

Lemma enunciadoExists_taken s (t : Store) :
  statement_taken s t -> enunciadoExists (Str s) t = (Ok true, t).
Proof.
  intros (k & r & Hk & Hs). unfold enunciadoExists, bind, findUnique, ret.
  destruct (locate_found Enunciado (Str s) t k r) as [rec ->];
    try done.
  simpl. now apply String.eqb_eq.
Qed.

Lemma enunciadoExists_free s (t : Store) :
  statement_free s t -> enunciadoExists (Str s) t = (Ok false, t).
Proof.
  intros Hf. unfold enunciadoExists, bind, findUnique, ret.
  rewrite locate_absent; try done.
  intros k r Hk. simpl. apply String.eqb_neq. exact (Hf k r Hk).
Qed.

(** Whether a statement is stored can be decided. *)
Lemma question_taken_or_free s (t : Store) : statement_taken s t \/ statement_free s t.
Proof.
  destruct (List.filter (fun p : Z * Row => String.eqb (col_enunciado (snd p)) s)
              (map_to_list (rows t))) as [|[k r] l] eqn:E.
  - right. intros k r Hk Hs.
    assert (In (k, r) []) as [].
    rewrite <- E. apply filter_In. split.
    + apply list_elem_of_In. now apply elem_of_map_to_list.
    + simpl. now apply String.eqb_eq.
  - left. exists k, r.
    assert (In (k, r) (List.filter
      (fun p : Z * Row => String.eqb (col_enunciado (snd p)) s)
      (map_to_list (rows t)))) as Hin by (rewrite E; now left).
    apply filter_In in Hin as [Hin Hs]. split.
    + apply elem_of_map_to_list. now apply list_elem_of_In.
    + now apply String.eqb_eq.
Qed.

Lemma question_taken_not_free s (t : Store) :
  statement_taken s t -> statement_free s t -> False.
Proof. intros (k & r & Hk & Hs) Hf. exact (Hf k r Hk Hs). Qed.

Lemma getQuestionById_valid v n (t : Store) :
  designates v n ->
  getQuestionById v t
  = (Ok (select_fields (Some select_all) <$> ((fun r => (n, r)) <$> rows t !! n)), t).
Proof.
  intros H. unfold getQuestionById, bind.
  rewrite (question_invalid_id_designates v n H). unfold ret at 1.
  now rewrite (question_findUnique_id v n _ t H).
Qed.

Lemma getQuestionById_invalid v (t : Store) :
  positive_number (ToNumber v) = false ->
  getQuestionById v t = (Throw (Error IdInvalido), t).
Proof.
  intros H. unfold getQuestionById, bind.
  now rewrite question_invalid_id_spec, H.
Qed.

Lemma deleteQuestion_absent v n (t : Store) :
  designates v n -> rows t !! n = None ->
  deleteQuestion v t = (Throw (Error (QuestaoNaoEncontrada v)), t).
Proof.
  intros H Hn. unfold deleteQuestion, bind.
  rewrite (question_invalid_id_designates v n H). unfold ret at 1.
  now rewrite (question_findUnique_id v n _ t H), Hn.
Qed.

Lemma deleteQuestion_present v n r (t : Store) :
  designates v n -> rows t !! n = Some r ->
  deleteQuestion v t
  = (Ok (select_fields (Some select_snapshot) (n, r)), removed n t).
Proof.
  intros H Hn. unfold deleteQuestion, bind.
  rewrite (question_invalid_id_designates v n H). unfold ret at 1.
  rewrite (question_findUnique_id v n _ t H), Hn. cbn [fmap option_fmap option_map].
  unfold delete_. destruct H as [_ H]. rewrite (question_locate_id _ n t H), Hn.
  reflexivity.
Qed.

Lemma question_validate_ok q (t : Store) :
  valid_question q -> validateQuestionData (question_data q) t = (Ok tt, t).
Proof.
  intros [(Hs & Hc & Hd & Ha) Hr]. unfold validateQuestionData, bind.
  cbn [question_data enunciado dificuldade respostaCorreta disciplinaId autorId].
  rewrite !truthy_Str, !truthy_of_Z, lt_of_Z, gt_of_Z by assumption.
  replace (difficulty q =? 0) with false by (symmetry; apply Z.eqb_neq; lia).
  replace (subjectId q =? 0) with false by (symmetry; apply Z.eqb_neq; lia).
  replace (authorId q =? 0) with false by (symmetry; apply Z.eqb_neq; lia).
  replace (difficulty q <? 1) with false by (symmetry; apply Z.ltb_ge; lia).
  replace (5 <? difficulty q) with false by (symmetry; apply Z.ltb_ge; lia).
  reflexivity.
Qed.

Lemma question_validate_zero q (t : Store) :
  difficulty q = 0 ->
  validateQuestionData (question_data q) t
  = (Throw (Error QuestaoCamposObrigatorios), t).
Proof.
  intros H. unfold validateQuestionData, bind.
  cbn [question_data enunciado dificuldade respostaCorreta disciplinaId autorId].
  rewrite H. change (truthy (of_Z 0)) with false.
  cbn [negb]. rewrite orb_true_r. reflexivity.
Qed.

Lemma question_validate_range q (t : Store) :
  other_fields_valid q -> difficulty q <> 0 ->
  difficulty q < 1 \/ 5 < difficulty q ->
  validateQuestionData (question_data q) t
  = (Throw (Error DificuldadeEntre1e5), t).
Proof.
  intros (Hs & Hc & Hd & Ha) H0 Hr. unfold validateQuestionData, bind.
  cbn [question_data enunciado dificuldade respostaCorreta disciplinaId autorId].
  rewrite !truthy_Str, !truthy_of_Z, lt_of_Z, gt_of_Z by assumption.
  replace (difficulty q =? 0) with false by (symmetry; apply Z.eqb_neq; lia).
  replace (subjectId q =? 0) with false by (symmetry; apply Z.eqb_neq; lia).
  replace (authorId q =? 0) with false by (symmetry; apply Z.eqb_neq; lia).
  cbn [negb orb ret]. 
  replace ((difficulty q <? 1) || (5 <? difficulty q)) with true; [reflexivity|].
  symmetry. apply orb_true_iff. destruct Hr; [left; apply Z.ltb_lt | right; apply Z.ltb_lt]; lia.
Qed.

Lemma question_create_row q (t : Store) :
  create [(Enunciado, Str (statement q));
          (Dificuldade, of_Z (difficulty q));
          (RespostaCorreta, Str (correctAnswer q));
          (DisciplinaId, of_Z (subjectId q));
          (AutorId, of_Z (authorId q));
          (Ativa, nullish (flag (active q)) (Bool true))]
         (Some select_all) t
  = (Ok (select_fields (Some select_all) (nextId t, new_question_row q (now t))),
     inserted (new_question_row q (now t)) t).
Proof.
  unfold create.
  assert (nullish (flag (active q)) (Bool true) = Bool (default true (active q)))
    as -> by now destruct (active q).
  cbn. rewrite !Z.mul_1_r. reflexivity.
Qed.

(** A valid creation with a free statement stores [new_question_row]. *)
Lemma createQuestion_ok q (t : Store) :
  valid_question q -> statement_free (statement q) t ->
  createQuestion (question_data q) t
  = (Ok (select_fields (Some select_all) (nextId t, new_question_row q (now t))),
     inserted (new_question_row q (now t)) t).
Proof.
  intros Hv Hf. unfold createQuestion, bind.
  rewrite (question_validate_ok q t Hv).
  cbn [question_data enunciado dificuldade respostaCorreta disciplinaId autorId ativa].
  rewrite (enunciadoExists_free _ t Hf). unfold ret at 1.
  now rewrite question_create_row.
Qed.

Lemma createQuestion_conflict q (t : Store) :
  valid_question q -> statement_taken (statement q) t ->
  createQuestion (question_data q) t = (Throw (Error EnunciadoJaCadastrado), t).
Proof.
  intros Hv Hf. unfold createQuestion, bind.
  rewrite (question_validate_ok q t Hv).
  cbn [question_data enunciado dificuldade respostaCorreta disciplinaId autorId ativa].
  now rewrite (enunciadoExists_taken _ t Hf).
Qed.

Lemma createQuestion_out_of_range q (t : Store) :
  other_fields_valid q -> difficulty q < 1 \/ 5 < difficulty q ->
  exists e, createQuestion (question_data q) t = (Throw (Error e), t)
            /\ kind (Error e) = ValidationError.
Proof.
  intros Hv Hr. unfold createQuestion, bind.
  destruct (Z.eq_dec (difficulty q) 0) as [H0|H0].
  - rewrite (question_validate_zero q t H0). eauto.
  - rewrite (question_validate_range q t Hv H0 Hr). eauto.
Qed.

Lemma question_assign_set_if c f v (o : JsObject Field) (r : Row) :
  assign (set_if c f v o) r
  = match assign o r with
    | Some r' => if c then assign [(f, v)] r' else Some r'
    | None => None
    end.
Proof.
  unfold set_if. destruct c; [rewrite assign_app|]; now destruct (assign o r).
Qed.

Lemma question_step_enunciado o (r : Row) :
  (if truthy (text o) then assign [(Enunciado, text o)] r else Some r)
  = Some (set_enunciado (new_text o (col_enunciado r)) r).
Proof.
  destruct o as [s|]; cbn [text truthy new_text]; [|now destruct r].
  destruct (String.eqb s EmptyString); [now destruct r | reflexivity].
Qed.

Lemma question_step_respostaCorreta o (r : Row) :
  (if truthy (text o) then assign [(RespostaCorreta, text o)] r else Some r)
  = Some (set_respostaCorreta (new_text o (col_respostaCorreta r)) r).
Proof.
  destruct o as [s|]; cbn [text truthy new_text]; [|now destruct r].
  destruct (String.eqb s EmptyString); [now destruct r | reflexivity].
Qed.

Lemma question_step_dificuldade o (r : Row) :
  (if truthy (int o) then assign [(Dificuldade, int o)] r else Some r)
  = Some (set_dificuldade (new_int o (col_dificuldade r)) r).
Proof.
  destruct o as [n|]; cbn [int new_int]; [|now destruct r].
  rewrite truthy_of_Z. destruct (n =? 0); [now destruct r|].
  cbn. now rewrite Z.mul_1_r.
Qed.

Lemma question_step_disciplinaId o (r : Row) :
  (if truthy (int o) then assign [(DisciplinaId, int o)] r else Some r)
  = Some (set_disciplinaId (new_int o (col_disciplinaId r)) r).
Proof.
  destruct o as [n|]; cbn [int new_int]; [|now destruct r].
  rewrite truthy_of_Z. destruct (n =? 0); [now destruct r|].
  cbn. now rewrite Z.mul_1_r.
Qed.

Lemma question_step_autorId o (r : Row) :
  (if truthy (int o) then assign [(AutorId, int o)] r else Some r)
  = Some (set_autorId (new_int o (col_autorId r)) r).
Proof.
  destruct o as [n|]; cbn [int new_int]; [|now destruct r].
  rewrite truthy_of_Z. destruct (n =? 0); [now destruct r|].
  cbn. now rewrite Z.mul_1_r.
Qed.

Lemma question_step_ativa o (r : Row) :
  (if strict_ne (flag o) Undefined then assign [(Ativa, flag o)] r else Some r)
  = Some (set_ativa (default (col_ativa r) o) r).
Proof. destruct o as [b|]; [reflexivity | now destruct r]. Qed.

(** The patch object of a typed patch, assigned and touched, is
    [patched_question]. *)
Lemma question_assign_patch p now_ (r : Row) :
  touch_ now_ <$> assign (dadosAtualizacao (question_patch p)) r
  = Some (patched_question p now_ r).
Proof.
  unfold dadosAtualizacao. rewrite !question_assign_set_if.
  change (assign [] r) with (Some r).
  cbn [question_patch enunciado dificuldade respostaCorreta disciplinaId autorId ativa].
  cbv beta iota. rewrite question_step_enunciado.
  cbv beta iota. rewrite question_step_dificuldade.
  cbv beta iota. rewrite question_step_respostaCorreta.
  cbv beta iota. rewrite question_step_disciplinaId.
  cbv beta iota. rewrite question_step_autorId.
  cbv beta iota. rewrite question_step_ativa.
  reflexivity.
Qed.

Lemma question_unique_check_ok p n r (t : Store) :
  statement_accepted p r t ->
  statement_check (question_patch p) (select_fields None (n, r)) t = (Ok tt, t).
Proof.
  intros H. unfold statement_check.
  change (prop (select_fields None (n, r)) Enunciado) with (Str (col_enunciado r)).
  cbn [question_patch enunciado].
  destruct (new_statement p) as [s|] eqn:E; [|reflexivity].
  unfold strict_ne. cbn [text truthy strict_eq].
  destruct (String.eqb_spec s EmptyString) as [->|Hne]; [reflexivity|].
  destruct (String.eqb_spec s (col_enunciado r)) as [->|Hne']; [reflexivity|].
  destruct (H s E) as [?|[?|Hf]]; try contradiction.
  cbn [negb andb]. unfold bind. now rewrite (enunciadoExists_free s t Hf).
Qed.

Lemma question_unique_check_clash p n r (t : Store) :
  statement_clash p r t ->
  statement_check (question_patch p) (select_fields None (n, r)) t
  = (Throw (Error EnunciadoEmUso), t).
Proof.
  intros (s & E & Hne & Hne' & Ht). unfold statement_check.
  change (prop (select_fields None (n, r)) Enunciado) with (Str (col_enunciado r)).
  cbn [question_patch enunciado]. rewrite E.
  unfold strict_ne. cbn [text truthy strict_eq].
  destruct (String.eqb_spec s EmptyString) as [->|_]; [contradiction|].
  destruct (String.eqb_spec s (col_enunciado r)) as [->|_]; [contradiction|].
  cbn [negb andb]. unfold bind. now rewrite (enunciadoExists_taken s t Ht).
Qed.

(** [updateQuestion] on the key of a stored question: the uniqueness check,
    the range check, the write. *)
Lemma updateQuestion_unfold v n r d (t : Store) :
  designates v n -> rows t !! n = Some r ->
  updateQuestion v d t
  = match statement_check d (select_fields None (n, r)) t with
    | (Ok _, t') =>
        if truthy (dificuldade d)
           && (lt (dificuldade d) (of_Z 1) || gt (dificuldade d) (of_Z 5))
        then (Throw (Error DificuldadeEntre1e5), t')
        else
          match update (Id, Num (parseInt v)) (dadosAtualizacao d)
                       (Some select_all) t' with
          | (Ok o, t'') => (Ok o, t'')
          | (Throw e, t'') => (Throw e, t'')
          end
    | (Throw e, t') => (Throw e, t')
    end.
Proof.
  intros H Hn. unfold updateQuestion, bind at 1.
  rewrite (question_invalid_id_designates v n H). unfold ret at 1. unfold bind at 1.
  rewrite (question_findUnique_id v n _ t H), Hn. cbn [fmap option_fmap option_map].
  unfold bind at 1. fold (statement_check d (select_fields None (n, r))).
  destruct (statement_check d (select_fields None (n, r)) t) as [[[]|e] t']; [|reflexivity].
  unfold bind at 1.
  destruct (truthy (dificuldade d)
            && (lt (dificuldade d) (of_Z 1) || gt (dificuldade d) (of_Z 5)));
    [reflexivity|].
  unfold ret at 1. unfold bind, ret.
  now destruct (update (Id, Num (parseInt v)) (dadosAtualizacao d)
                       (Some select_all) t') as [[o|e] t''].
Qed.

Lemma question_update_patch v n r p (t : Store) :
  designates v n -> rows t !! n = Some r ->
  update (Id, Num (parseInt v)) (dadosAtualizacao (question_patch p))
         (Some select_all) t
  = (Ok (select_fields (Some select_all) (n, patched_question p (now t) r)),
     written n (patched_question p (now t) r) t).
Proof.
  intros [_ H] Hn. unfold update. rewrite (question_locate_id _ n t H), Hn.
  cbn [fmap option_fmap option_map].
  pose proof (question_assign_patch p (now t) r) as Ha.
  destruct (assign (dadosAtualizacao (question_patch p)) r) as [r'|];
    [|discriminate].
  change (Some (touch_ (now t) r') = Some (patched_question p (now t) r)) in Ha.
  assert (touch (now t) r' = patched_question p (now t) r) as Hb
    by (change (touch (now t) r') with (touch_ (now t) r'); congruence).
  cbv zeta. rewrite Hb. reflexivity.
Qed.

Lemma question_difficulty_check_ok p :
  difficulty_accepted p ->
  truthy (dificuldade (question_patch p))
  && (lt (dificuldade (question_patch p)) (of_Z 1)
      || gt (dificuldade (question_patch p)) (of_Z 5)) = false.
Proof.
  intros H. cbn [question_patch dificuldade].
  destruct (new_difficulty p) as [d|] eqn:E; [|reflexivity].
  cbn [int]. rewrite truthy_of_Z, lt_of_Z, gt_of_Z.
  destruct (H d E) as [->|Hr]; [reflexivity|].
  replace (d <? 1) with false by (symmetry; apply Z.ltb_ge; lia).
  replace (5 <? d) with false by (symmetry; apply Z.ltb_ge; lia).
  apply andb_false_r.
Qed.

(** A typed patch that passes both checks is applied as [patched_question]
    says. *)
Lemma updateQuestion_applied v n r p (t : Store) :
  designates v n -> rows t !! n = Some r ->
  statement_accepted p r t -> difficulty_accepted p ->
  updateQuestion v (question_patch p) t
  = (Ok (select_fields (Some select_all) (n, patched_question p (now t) r)),
     written n (patched_question p (now t) r) t).
Proof.
  intros H Hn Hs Hd. rewrite (updateQuestion_unfold v n r _ t H Hn).
  rewrite (question_unique_check_ok p n r t Hs), (question_difficulty_check_ok p Hd).
  now rewrite (question_update_patch v n r p t H Hn).
Qed.

Lemma updateQuestion_conflict v n r p (t : Store) :
  designates v n -> rows t !! n = Some r -> statement_clash p r t ->
  updateQuestion v (question_patch p) t = (Throw (Error EnunciadoEmUso), t).
Proof.
  intros H Hn Hs. rewrite (updateQuestion_unfold v n r _ t H Hn).
  now rewrite (question_unique_check_clash p n r t Hs).
Qed.

Lemma updateQuestion_out_of_range v n r p d (t : Store) :
  designates v n -> rows t !! n = Some r -> statement_accepted p r t ->
  new_difficulty p = Some d -> d <> 0 -> d < 1 \/ 5 < d ->
  updateQuestion v (question_patch p) t
  = (Throw (Error DificuldadeEntre1e5), t).
Proof.
  intros H Hn Hs E H0 Hr. rewrite (updateQuestion_unfold v n r _ t H Hn).
  rewrite (question_unique_check_ok p n r t Hs).
  cbn [question_patch dificuldade]. rewrite E. cbn [int].
  rewrite truthy_of_Z, lt_of_Z, gt_of_Z.
  replace (d =? 0) with false by (symmetry; apply Z.eqb_neq; lia).
  replace ((d <? 1) || (5 <? d)) with true; [reflexivity|].
  symmetry. apply orb_true_iff.
  destruct Hr; [left | right]; apply Z.ltb_lt; lia.
Qed.

Lemma updateQuestion_absent v n d (t : Store) :
  designates v n -> rows t !! n = None ->
  updateQuestion v d t = (Throw (Error (QuestaoNaoEncontrada v)), t).
Proof.
  intros H Hn. unfold updateQuestion, bind at 1.
  rewrite (question_invalid_id_designates v n H). unfold ret at 1. unfold bind at 1.
  now rewrite (question_findUnique_id v n _ t H), Hn.
Qed.

End QuestionFacts.

(** ** Facts about the subject service *)

Module SubjectFacts.
Import Subject.

Lemma subject_invalid_id_spec v :
  invalid_id v = negb (positive_number (ToNumber v)).
Proof. exact (QuestionFacts.question_invalid_id_spec v). Qed.

Lemma subject_invalid_id_designates v n : designates v n -> invalid_id v = false.
Proof. intros [H _]. now rewrite subject_invalid_id_spec, H. Qed.

Lemma subject_locate_id x n (t : Store) :
  to_int x = Some n ->
  locate (Id, Num x) t = Ok ((fun r => (n, r)) <$> rows t !! n).
Proof. exact (locate_key x n t). Qed.

Lemma subject_findUnique_id v n sel (t : Store) :
  designates v n ->
  findUnique (Id, Num (parseInt v)) sel t
  = (Ok (select_fields sel <$> ((fun r => (n, r)) <$> rows t !! n)), t).
Proof. intros [_ H]. unfold findUnique. now rewrite (subject_locate_id _ n t H). Qed.

Lemma nomeExists_taken s (t : Store) :
  name_taken s t -> nomeExists (Str s) t = (Ok true, t).
Proof.
  intros (k & r & Hk & Hs). unfold nomeExists, bind, findUnique, ret.
  destruct (locate_found Nome (Str s) t k r) as [rec ->]; try done.
  simpl. now apply String.eqb_eq.
Qed.

Lemma nomeExists_free s (t : Store) :
  name_free s t -> nomeExists (Str s) t = (Ok false, t).
Proof.
  intros Hf. unfold nomeExists, bind, findUnique, ret.
  rewrite locate_absent; try done.
  intros k r Hk. simpl. apply String.eqb_neq. exact (Hf k r Hk).
Qed.

Lemma subject_taken_or_free s (t : Store) : name_taken s t \/ name_free s t.
Proof.
  destruct (List.filter (fun p : Z * Row => String.eqb (col_nome (snd p)) s)
              (map_to_list (rows t))) as [|[k r] l] eqn:E.
  - right. intros k r Hk Hs.
    assert (In (k, r) []) as [].
    rewrite <- E. apply filter_In. split.
    + apply list_elem_of_In. now apply elem_of_map_to_list.
    + simpl. now apply String.eqb_eq.
  - left. exists k, r.
    assert (In (k, r) (List.filter
      (fun p : Z * Row => String.eqb (col_nome (snd p)) s)
      (map_to_list (rows t)))) as Hin by (rewrite E; now left).
    apply filter_In in Hin as [Hin Hs]. split.
    + apply elem_of_map_to_list. now apply list_elem_of_In.
    + now apply String.eqb_eq.
Qed.

Lemma getSubjectById_valid v n (t : Store) :
  designates v n ->
  getSubjectById v t
  = (Ok (select_fields (Some select_all) <$> ((fun r => (n, r)) <$> rows t !! n)), t).
Proof.
  intros H. unfold getSubjectById, bind.
  rewrite (subject_invalid_id_designates v n H). unfold ret at 1.
  now rewrite (subject_findUnique_id v n _ t H).
Qed.

Lemma getSubjectById_invalid v (t : Store) :
  positive_number (ToNumber v) = false ->
  getSubjectById v t = (Throw (Error IdInvalido), t).
Proof.
  intros H. unfold getSubjectById, bind. now rewrite subject_invalid_id_spec, H.
Qed.

Lemma deleteSubject_absent v n (t : Store) :
  designates v n -> rows t !! n = None ->
  deleteSubject v t = (Throw (Error (DisciplinaNaoEncontrada v)), t).
Proof.
  intros H Hn. unfold deleteSubject, bind.
  rewrite (subject_invalid_id_designates v n H). unfold ret at 1.
  now rewrite (subject_findUnique_id v n _ t H), Hn.
Qed.

Lemma deleteSubject_present v n r (t : Store) :
  designates v n -> rows t !! n = Some r ->
  deleteSubject v t
  = (Ok (select_fields (Some select_snapshot) (n, r)), removed n t).
Proof.
  intros H Hn. unfold deleteSubject, bind.
  rewrite (subject_invalid_id_designates v n H). unfold ret at 1.
  rewrite (subject_findUnique_id v n _ t H), Hn. cbn [fmap option_fmap option_map].
  unfold delete_. destruct H as [_ H]. rewrite (subject_locate_id _ n t H), Hn.
  reflexivity.
Qed.

(** *** Creation *)

Lemma subject_validate_ok s (t : Store) :
  valid_subject s -> validateSubjectData (subject_data s) t = (Ok tt, t).
Proof.
  intros [Hn Hp]. unfold validateSubjectData, bind.
  cbn [subject_data nome professorId].
  rewrite truthy_Str, truthy_of_Z by assumption.
  replace (instructorId s =? 0) with false by (symmetry; apply Z.eqb_neq; lia).
  reflexivity.
Qed.

Lemma subject_create_row s (t : Store) :
  create [(Nome, Str (name s));
          (Ativa, nullish (flag (subject_active s)) (Bool true));
          (ProfessorId, of_Z (instructorId s))]
         (Some select_all) t
  = (Ok (select_fields (Some select_all) (nextId t, new_subject_row s (now t))),
     inserted (new_subject_row s (now t)) t).
Proof.
  unfold create.
  assert (nullish (flag (subject_active s)) (Bool true)
          = Bool (default true (subject_active s)))
    as -> by now destruct (subject_active s).
  cbn. rewrite !Z.mul_1_r. reflexivity.
Qed.

Lemma createSubject_ok s (t : Store) :
  valid_subject s -> name_free (name s) t ->
  createSubject (subject_data s) t
  = (Ok (select_fields (Some select_all) (nextId t, new_subject_row s (now t))),
     inserted (new_subject_row s (now t)) t).
Proof.
  intros Hv Hf. unfold createSubject, bind.
  rewrite (subject_validate_ok s t Hv). cbn [subject_data nome ativa professorId].
  rewrite (nomeExists_free _ t Hf). unfold ret at 1.
  now rewrite subject_create_row.
Qed.

Lemma createSubject_conflict s (t : Store) :
  valid_subject s -> name_taken (name s) t ->
  createSubject (subject_data s) t = (Throw (Error NomeJaCadastrado), t).
Proof.
  intros Hv Hf. unfold createSubject, bind.
  rewrite (subject_validate_ok s t Hv). cbn [subject_data nome ativa professorId].
  now rewrite (nomeExists_taken _ t Hf).
Qed.

(** *** Update *)

Lemma subject_assign_set_if c f v (o : JsObject Field) (r : Row) :
  assign (set_if c f v o) r
  = match assign o r with
    | Some r' => if c then assign [(f, v)] r' else Some r'
    | None => None
    end.
Proof.
  unfold set_if. destruct c; [rewrite assign_app|]; now destruct (assign o r).
Qed.

Lemma subject_step_nome o (r : Row) :
  (if truthy (text o) then assign [(Nome, text o)] r else Some r)
  = Some (set_nome (new_text o (col_nome r)) r).
Proof.
  destruct o as [s|]; cbn [text truthy new_text]; [|now destruct r].
  destruct (String.eqb s EmptyString); [now destruct r | reflexivity].
Qed.

Lemma subject_step_professorId o (r : Row) :
  (if truthy (int o) then assign [(ProfessorId, int o)] r else Some r)
  = Some (set_professorId (new_int o (col_professorId r)) r).
Proof.
  destruct o as [n|]; cbn [int new_int]; [|now destruct r].
  rewrite truthy_of_Z. destruct (n =? 0); [now destruct r|].
  cbn. now rewrite Z.mul_1_r.
Qed.

Lemma subject_step_ativa o (r : Row) :
  (if strict_ne (flag o) Undefined then assign [(Ativa, flag o)] r else Some r)
  = Some (set_ativa (default (col_ativa r) o) r).
Proof. destruct o as [b|]; [reflexivity | now destruct r]. Qed.

Lemma subject_assign_patch p now_ (r : Row) :
  touch_ now_ <$> assign (dadosAtualizacao (subject_patch p)) r
  = Some (patched_subject p now_ r).
Proof.
  unfold dadosAtualizacao. rewrite !subject_assign_set_if.
  change (assign [] r) with (Some r).
  cbn [subject_patch nome ativa professorId].
  cbv beta iota. rewrite subject_step_nome.
  cbv beta iota. rewrite subject_step_ativa.
  cbv beta iota. rewrite subject_step_professorId.
  reflexivity.
Qed.

Lemma subject_unique_check_ok p n r (t : Store) :
  name_accepted p r t ->
  name_check (subject_patch p) (select_fields None (n, r)) t = (Ok tt, t).
Proof.
  intros H. unfold name_check.
  change (prop (select_fields None (n, r)) Nome) with (Str (col_nome r)).
  cbn [subject_patch nome].
  destruct (new_name p) as [s|] eqn:E; [|reflexivity].
  unfold strict_ne. cbn [text truthy strict_eq].
  destruct (String.eqb_spec s EmptyString) as [->|Hne]; [reflexivity|].
  destruct (String.eqb_spec s (col_nome r)) as [->|Hne']; [reflexivity|].
  destruct (H s E) as [?|[?|Hf]]; try contradiction.
  cbn [negb andb]. unfold bind. now rewrite (nomeExists_free s t Hf).
Qed.

Lemma subject_unique_check_clash p n r (t : Store) :
  name_clash p r t ->
  name_check (subject_patch p) (select_fields None (n, r)) t
  = (Throw (Error NomeEmUso), t).
Proof.
  intros (s & E & Hne & Hne' & Ht). unfold name_check.
  change (prop (select_fields None (n, r)) Nome) with (Str (col_nome r)).
  cbn [subject_patch nome]. rewrite E.
  unfold strict_ne. cbn [text truthy strict_eq].
  destruct (String.eqb_spec s EmptyString) as [->|_]; [contradiction|].
  destruct (String.eqb_spec s (col_nome r)) as [->|_]; [contradiction|].
  cbn [negb andb]. unfold bind. now rewrite (nomeExists_taken s t Ht).
Qed.

Lemma updateSubject_unfold v n r d (t : Store) :
  designates v n -> rows t !! n = Some r ->
  updateSubject v d t
  = match name_check d (select_fields None (n, r)) t with
    | (Ok _, t') =>
        match update (Id, Num (parseInt v)) (dadosAtualizacao d)
                     (Some select_all) t' with
        | (Ok o, t'') => (Ok o, t'')
        | (Throw e, t'') => (Throw e, t'')
        end
    | (Throw e, t') => (Throw e, t')
    end.
Proof.
  intros H Hn. unfold updateSubject, bind at 1.
  rewrite (subject_invalid_id_designates v n H). unfold ret at 1. unfold bind at 1.
  rewrite (subject_findUnique_id v n _ t H), Hn. cbn [fmap option_fmap option_map].
  unfold bind at 1. fold (name_check d (select_fields None (n, r))).
  destruct (name_check d (select_fields None (n, r)) t) as [[[]|e] t']; [|reflexivity].
  unfold bind, ret.
  now destruct (update (Id, Num (parseInt v)) (dadosAtualizacao d)
                       (Some select_all) t') as [[o|e] t''].
Qed.

Lemma subject_update_patch v n r p (t : Store) :
  designates v n -> rows t !! n = Some r ->
  update (Id, Num (parseInt v)) (dadosAtualizacao (subject_patch p))
         (Some select_all) t
  = (Ok (select_fields (Some select_all) (n, patched_subject p (now t) r)),
     written n (patched_subject p (now t) r) t).
Proof.
  intros [_ H] Hn. unfold update. rewrite (subject_locate_id _ n t H), Hn.
  cbn [fmap option_fmap option_map].
  pose proof (subject_assign_patch p (now t) r) as Ha.
  destruct (assign (dadosAtualizacao (subject_patch p)) r) as [r'|];
    [|discriminate].
  change (Some (touch_ (now t) r') = Some (patched_subject p (now t) r)) in Ha.
  assert (touch (now t) r' = patched_subject p (now t) r) as Hb
    by (change (touch (now t) r') with (touch_ (now t) r'); congruence).
  cbv zeta. rewrite Hb. reflexivity.
Qed.

(** A typed patch that passes the uniqueness check is applied as
    [patched_subject] says. *)
Lemma updateSubject_applied v n r p (t : Store) :
  designates v n -> rows t !! n = Some r -> name_accepted p r t ->
  updateSubject v (subject_patch p) t
  = (Ok (select_fields (Some select_all) (n, patched_subject p (now t) r)),
     written n (patched_subject p (now t) r) t).
Proof.
  intros H Hn Hs. rewrite (updateSubject_unfold v n r _ t H Hn).
  rewrite (subject_unique_check_ok p n r t Hs).
  now rewrite (subject_update_patch v n r p t H Hn).
Qed.

Lemma updateSubject_conflict v n r p (t : Store) :
  designates v n -> rows t !! n = Some r -> name_clash p r t ->
  updateSubject v (subject_patch p) t = (Throw (Error NomeEmUso), t).
Proof.
  intros H Hn Hs. rewrite (updateSubject_unfold v n r _ t H Hn).
  now rewrite (subject_unique_check_clash p n r t Hs).
Qed.

Lemma updateSubject_absent v n d (t : Store) :
  designates v n -> rows t !! n = None ->
  updateSubject v d t = (Throw (Error (DisciplinaNaoEncontrada v)), t).
Proof.
  intros H Hn. unfold updateSubject, bind at 1.
  rewrite (subject_invalid_id_designates v n H). unfold ret at 1. unfold bind at 1.
  now rewrite (subject_findUnique_id v n _ t H), Hn.
Qed.

End SubjectFacts.

Import QuestionFacts SubjectFacts.

(** ** Lemmas for the claims *)

Lemma getAllQuestions_sorted (t : Question.Store) :
  exists l,
    Question.getAllQuestions t
    = (Ok (map (select_fields (Some Question.select_all)) l), t)
    /\ l ≡ₚ map_to_list (rows t)
    /\ StronglySorted newer_question l.
Proof.
  destruct (findMany_sorted (Some Question.select_all) (Question.CreatedAt, desc) t)
    as (l & H1 & H2 & H3).
  - intros a b c. unfold ordered. cbn. intros ?%Is_true_true%Z.leb_le ?%Is_true_true%Z.leb_le.
    apply Is_true_true, Z.leb_le. lia.
  - intros a b. unfold ordered. cbn.
    destruct (Z.le_gt_cases (Question.col_createdAt (snd b)) (Question.col_createdAt (snd a))).
    + left. now apply Is_true_true, Z.leb_le.
    + right. apply Is_true_true, Z.leb_le. lia.
  - exists l. split; [|split; [exact H2|]].
    + unfold Question.getAllQuestions, bind, ret. now rewrite H1.
    + eapply StronglySorted_weaken; [|exact H3].
      intros a b. unfold ordered, newer_question. cbn.
      now intros ?%Is_true_true%Z.leb_le.
Qed.

Lemma getAllSubjects_sorted (t : Subject.Store) :
  exists l,
    Subject.getAllSubjects t
    = (Ok (map (select_fields (Some Subject.select_all)) l), t)
    /\ l ≡ₚ map_to_list (rows t)
    /\ StronglySorted newer_subject l.
Proof.
  destruct (findMany_sorted (Some Subject.select_all) (Subject.CreatedAt, desc) t)
    as (l & H1 & H2 & H3).
  - intros a b c. unfold ordered. cbn. intros ?%Is_true_true%Z.leb_le ?%Is_true_true%Z.leb_le.
    apply Is_true_true, Z.leb_le. lia.
  - intros a b. unfold ordered. cbn.
    destruct (Z.le_gt_cases (Subject.col_createdAt (snd b)) (Subject.col_createdAt (snd a))).
    + left. now apply Is_true_true, Z.leb_le.
    + right. apply Is_true_true, Z.leb_le. lia.
  - exists l. split; [|split; [exact H2|]].
    + unfold Subject.getAllSubjects, bind, ret. now rewrite H1.
    + eapply StronglySorted_weaken; [|exact H3].
      intros a b. unfold ordered, newer_subject. cbn.
      now intros ?%Is_true_true%Z.leb_le.
Qed.

Lemma invalid_not_positive v :
  missing v \/ non_numeric v \/ non_positive v ->
  positive_number (ToNumber v) = false.
Proof.
  unfold missing, non_numeric, non_positive.
  intros [[-> | ->] | [H | H]]; try reflexivity.
  - now rewrite H.
  - destruct (ToNumber v) as [|neg|m e]; try contradiction.
    + now subst neg.
    + simpl. apply Z.ltb_ge. lia.
Qed.

Lemma question_getById_not_NotFound v (t : Question.Store) :
  failed (fst (Question.getQuestionById v t)) <> Some NotFound.
Proof.
  unfold Question.getQuestionById, bind.
  destruct (Question.invalid_id v); [discriminate|].
  unfold ret at 1. unfold findUnique.
  destruct (locate _ t) as [rec|e] eqn:E; [discriminate|].
  unfold locate in E. cbn in E.
  destruct (to_int (parseInt v)); [discriminate|].
  injection E as <-. discriminate.
Qed.

Lemma subject_getById_not_NotFound v (t : Subject.Store) :
  failed (fst (Subject.getSubjectById v t)) <> Some NotFound.
Proof.
  unfold Subject.getSubjectById, bind.
  destruct (Subject.invalid_id v); [discriminate|].
  unfold ret at 1. unfold findUnique.
  destruct (locate _ t) as [rec|e] eqn:E; [discriminate|].
  unfold locate in E. cbn in E.
  destruct (to_int (parseInt v)); [discriminate|].
  injection E as <-. discriminate.
Qed.



Lemma designates_1 : designates (of_Z 1) 1.
Proof. apply of_Z_designates. vm_compute. split; reflexivity. Qed.

Lemma example_statement_free :
  statement_free (statement Examples.new_question) (Examples.questions 1).
Proof.
  intros k r H. cbn [Examples.questions Examples.subjects rows] in H.
  apply lookup_singleton_Some in H as [_ <-]. discriminate.
Qed.

Lemma example_name_free :
  name_free (name Examples.new_subject) (Examples.subjects 1).
Proof.
  intros k r H. cbn [Examples.questions Examples.subjects rows] in H.
  apply lookup_singleton_Some in H as [_ <-]. discriminate.
Qed.

Lemma example_valid_question : valid_question Examples.new_question.
Proof. repeat split; try discriminate; reflexivity. Qed.

Lemma example_valid_subject : valid_subject Examples.new_subject.
Proof. repeat split; try discriminate; reflexivity. Qed.

(** *** Uniqueness *)

Lemma question_clash_or_accepted p r (t : Question.Store) :
  statement_clash p r t \/ statement_accepted p r t.
Proof.
  unfold statement_clash, statement_accepted.
  destruct (new_statement p) as [s|]; [|right; intros ? [=]].
  destruct (string_dec s EmptyString) as [->|H1];
    [right; intros ? [= <-]; now left|].
  destruct (string_dec s (Question.col_enunciado r)) as [->|H2];
    [right; intros ? [= <-]; right; now left|].
  destruct (question_taken_or_free s t) as [Ht|Hf].
  - left. now exists s.
  - right. intros ? [= <-]. right. now right.
Qed.

Lemma question_difficulty_accepted_dec p :
  difficulty_accepted p
  \/ exists d, new_difficulty p = Some d /\ d <> 0 /\ (d < 1 \/ 5 < d).
Proof.
  unfold difficulty_accepted.
  destruct (new_difficulty p) as [d|]; [|left; intros ? [=]].
  destruct (Z.eq_dec d 0) as [->|H0]; [left; intros ? [= <-]; now left|].
  destruct (Z_lt_dec d 1); [right; exists d; auto|].
  destruct (Z_lt_dec 5 d); [right; exists d; auto|].
  left. intros ? [= <-]. right. lia.
Qed.

Lemma question_update_conflict_only v n r p (t t' : Question.Store) e :
  designates v n -> rows t !! n = Some r ->
  Question.updateQuestion v (question_patch p) t = (Throw e, t') ->
  kind e = Conflict -> statement_clash p r t.
Proof.
  intros H Hn E Hk.
  destruct (question_clash_or_accepted p r t) as [Hc|Ha]; [exact Hc|].
  destruct (question_difficulty_accepted_dec p) as [Hd|(d & Ed & H0 & Hr)].
  - rewrite (updateQuestion_applied v n r p t H Hn Ha Hd) in E. discriminate.
  - rewrite (updateQuestion_out_of_range v n r p d t H Hn Ha Ed H0 Hr) in E.
    injection E as <- _. discriminate.
Qed.

Lemma subject_clash_or_accepted p r (t : Subject.Store) :
  name_clash p r t \/ name_accepted p r t.
Proof.
  unfold name_clash, name_accepted.
  destruct (new_name p) as [s|]; [|right; intros ? [=]].
  destruct (string_dec s EmptyString) as [->|H1];
    [right; intros ? [= <-]; now left|].
  destruct (string_dec s (Subject.col_nome r)) as [->|H2];
    [right; intros ? [= <-]; right; now left|].
  destruct (subject_taken_or_free s t) as [Ht|Hf].
  - left. now exists s.
  - right. intros ? [= <-]. right. now right.
Qed.

Lemma subject_update_conflict_only v n r p (t t' : Subject.Store) e :
  designates v n -> rows t !! n = Some r ->
  Subject.updateSubject v (subject_patch p) t = (Throw e, t') ->
  kind e = Conflict -> name_clash p r t.
Proof.
  intros H Hn E Hk.
  destruct (subject_clash_or_accepted p r t) as [Hc|Ha]; [exact Hc|].
  rewrite (updateSubject_applied v n r p t H Hn Ha) in E. discriminate.
Qed.

Lemma question_taken_after_create q (t : Question.Store) :
  statement_taken (statement q) (inserted (new_question_row q (now t)) t).
Proof.
  exists (nextId t), (new_question_row q (now t)).
  split; [apply lookup_insert_eq | reflexivity].
Qed.

Lemma subject_taken_after_create s (t : Subject.Store) :
  name_taken (name s) (inserted (new_subject_row s (now t)) t).
Proof.
  exists (nextId t), (new_subject_row s (now t)).
  split; [apply lookup_insert_eq | reflexivity].
Qed.



Lemma question_statement_check_state d o (t : Question.Store) :
  snd (statement_check d o t) = t.
Proof.
  unfold statement_check. destruct (_ && _); [|reflexivity].
  unfold Question.enunciadoExists, findUnique, bind, ret, throw.
  destruct (locate (Question.Enunciado, Question.enunciado d) t)
    as [[rec|]|e]; reflexivity.
Qed.

Lemma subject_name_check_state d o (t : Subject.Store) :
  snd (name_check d o t) = t.
Proof.
  unfold name_check. destruct (_ && _); [|reflexivity].
  unfold Subject.nomeExists, findUnique, bind, ret, throw.
  destruct (locate (Subject.Nome, Subject.nome d) t)
    as [[rec|]|e]; reflexivity.
Qed.

(** Whatever the data, [updateQuestion] writes at most the key the id
    designates. *)
Lemma question_update_on_key v n d (t : Question.Store) :
  designates v n ->
  (forall k, k <> n ->
     rows (snd (Question.updateQuestion v d t)) !! k = rows t !! k)
  /\ (forall o, fst (Question.updateQuestion v d t) = Ok o ->
        prop o Question.Id = of_Z n).
Proof.
  intros H. destruct (rows t !! n) as [r|] eqn:Hn.
  - rewrite (updateQuestion_unfold v n r d t H Hn).
    pose proof (question_statement_check_state d
                  (select_fields None (n, r)) t) as Hs.
    destruct (statement_check d (select_fields None (n, r)) t) as [[u|e] t1];
      cbn [snd] in Hs; subst t1; [|split; [reflexivity | discriminate]].
    destruct (_ && _); [split; [reflexivity | discriminate]|].
    unfold update. destruct H as [_ H]. rewrite (question_locate_id _ n t H), Hn.
    cbn [fmap option_fmap option_map].
    destruct (assign _ r) as [r'|]; [|split; [reflexivity | discriminate]].
    cbv zeta. split.
    + intros k Hk. cbn [snd rows]. now apply lookup_insert_ne.
    + intros o [= <-]. reflexivity.
  - rewrite (updateQuestion_absent v n d t H Hn).
    split; [reflexivity | discriminate].
Qed.

Lemma subject_update_on_key v n d (t : Subject.Store) :
  designates v n ->
  (forall k, k <> n ->
     rows (snd (Subject.updateSubject v d t)) !! k = rows t !! k)
  /\ (forall o, fst (Subject.updateSubject v d t) = Ok o ->
        prop o Subject.Id = of_Z n).
Proof.
  intros H. destruct (rows t !! n) as [r|] eqn:Hn.
  - rewrite (updateSubject_unfold v n r d t H Hn).
    pose proof (subject_name_check_state d (select_fields None (n, r)) t) as Hs.
    destruct (name_check d (select_fields None (n, r)) t) as [[u|e] t1];
      cbn [snd] in Hs; subst t1; [|split; [reflexivity | discriminate]].
    unfold update. destruct H as [_ H]. rewrite (subject_locate_id _ n t H), Hn.
    cbn [fmap option_fmap option_map].
    destruct (assign _ r) as [r'|]; [|split; [reflexivity | discriminate]].
    cbv zeta. split.
    + intros k Hk. cbn [snd rows]. now apply lookup_insert_ne.
    + intros o [= <-]. reflexivity.
  - rewrite (updateSubject_absent v n d t H Hn).
    split; [reflexivity | discriminate].
Qed.

Lemma question_delete_on_key v n (t : Question.Store) :
  designates v n ->
  (forall k, k <> n ->
     rows (snd (Question.deleteQuestion v t)) !! k = rows t !! k)
  /\ (forall o, fst (Question.deleteQuestion v t) = Ok o ->
        prop o Question.Id = of_Z n
        /\ rows (snd (Question.deleteQuestion v t)) !! n = None).
Proof.
  intros H. destruct (rows t !! n) as [r|] eqn:Hn.
  - rewrite (deleteQuestion_present v n r t H Hn). split.
    + intros k Hk. cbn [snd removed rows]. now apply lookup_delete_ne.
    + intros o [= <-]. split; [reflexivity|].
      cbn [snd removed rows]. apply lookup_delete_eq.
  - rewrite (deleteQuestion_absent v n t H Hn).
    split; [reflexivity | discriminate].
Qed.

Lemma subject_delete_on_key v n (t : Subject.Store) :
  designates v n ->
  (forall k, k <> n ->
     rows (snd (Subject.deleteSubject v t)) !! k = rows t !! k)
  /\ (forall o, fst (Subject.deleteSubject v t) = Ok o ->
        prop o Subject.Id = of_Z n
        /\ rows (snd (Subject.deleteSubject v t)) !! n = None).
Proof.
  intros H. destruct (rows t !! n) as [r|] eqn:Hn.
  - rewrite (deleteSubject_present v n r t H Hn). split.
    + intros k Hk. cbn [snd removed rows]. now apply lookup_delete_ne.
    + intros o [= <-]. split; [reflexivity|].
      cbn [snd removed rows]. apply lookup_delete_eq.
  - rewrite (deleteSubject_absent v n t H Hn).
    split; [reflexivity | discriminate].
Qed.

Lemma plain_decimal_designates x :
  plain_decimal x -> exists m, trunc x = Some m /\ designates (Num x) m.
Proof.
  intros H. pose proof (parseInt_trunc x H) as Ht.
  destruct (plain_decimal_inv x H) as (p & e & -> & _).
  eexists. split; [reflexivity|]. split; [reflexivity | exact Ht].
Qed.

(** *** Fields that are not truthy *)

Lemma truthy_if_truthy v : truthy (if_truthy v) = truthy v.
Proof. unfold if_truthy. now destruct (truthy v) eqn:E. Qed.

Lemma question_set_if_truthy f v o :
  Question.set_if (truthy (if_truthy v)) f (if_truthy v) o
  = Question.set_if (truthy v) f v o.
Proof. rewrite truthy_if_truthy. unfold if_truthy. now destruct (truthy v). Qed.

Lemma subject_set_if_truthy f v o :
  Subject.set_if (truthy (if_truthy v)) f (if_truthy v) o
  = Subject.set_if (truthy v) f v o.
Proof. rewrite truthy_if_truthy. unfold if_truthy. now destruct (truthy v). Qed.

Lemma question_dados_without_falsy d :
  Question.dadosAtualizacao (question_without_falsy d)
  = Question.dadosAtualizacao d.
Proof.
  unfold Question.dadosAtualizacao, question_without_falsy.
  cbn [Question.enunciado Question.dificuldade Question.respostaCorreta
       Question.disciplinaId Question.autorId Question.ativa].
  now rewrite !question_set_if_truthy.
Qed.

Lemma subject_dados_without_falsy d :
  Subject.dadosAtualizacao (subject_without_falsy d)
  = Subject.dadosAtualizacao d.
Proof.
  unfold Subject.dadosAtualizacao, subject_without_falsy.
  cbn [Subject.nome Subject.professorId Subject.ativa].
  now rewrite !subject_set_if_truthy.
Qed.

(** Every use [updateQuestion] makes of a field other than [ativa] is
    behind a truthiness test. *)
Lemma question_update_without_falsy v d (t : Question.Store) :
  Question.updateQuestion v d t
  = Question.updateQuestion v (question_without_falsy d) t.
Proof.
  unfold Question.updateQuestion. rewrite question_dados_without_falsy.
  unfold question_without_falsy.
  cbn [Question.enunciado Question.dificuldade].
  rewrite !truthy_if_truthy. unfold if_truthy.
  destruct (truthy (Question.enunciado d)), (truthy (Question.dificuldade d));
    reflexivity.
Qed.

Lemma subject_update_without_falsy v d (t : Subject.Store) :
  Subject.updateSubject v d t
  = Subject.updateSubject v (subject_without_falsy d) t.
Proof.
  unfold Subject.updateSubject. rewrite subject_dados_without_falsy.
  unfold subject_without_falsy. cbn [Subject.nome].
  rewrite !truthy_if_truthy. unfold if_truthy.
  destruct (truthy (Subject.nome d)); reflexivity.
Qed.

(** ** The claims *)

(** C1 fails on [updateQuestion] at difficulty 0.  The value is outside
    1..5, yet for an id that designates the stored question [r] the update
    raises nothing: it returns and stores [r] with the difficulty it had
    and a new [updatedAt]. *)
Theorem update_difficulty_zero_not_rejected
    (v : JsValue) (n : Z) (r : Question.Row) (t : Question.Store) :
  designates v n -> rows t !! n = Some r ->
  difficulty_out_of_range zero_difficulty
  /\ Question.updateQuestion v (question_patch zero_difficulty) t
     = (Ok (select_fields (Some Question.select_all)
              (n, Question.touch_ (now t) r)),
        written n (Question.touch_ (now t) r) t)
  /\ Question.col_dificuldade (Question.touch_ (now t) r)
     = Question.col_dificuldade r.
Proof.
  intros H Hn. split; [exists 0; split; [reflexivity | lia]|]. split.
  - rewrite (updateQuestion_applied v n r _ t H Hn); [reflexivity | |].
    + intros s [=].
    + intros d [= <-]. now left.
  - reflexivity.
Qed.

Lemma update_difficulty_zero_not_rejected_witness :
  Question.updateQuestion (of_Z 1) (question_patch zero_difficulty)
    (Examples.questions 1)
  = (Ok (select_fields (Some Question.select_all)
           (1, Question.touch_ 1001 Examples.question_1)),
     written 1 (Question.touch_ 1001 Examples.question_1)
       (Examples.questions 1)).
Proof.
  apply (update_difficulty_zero_not_rejected (of_Z 1) 1 Examples.question_1
           (Examples.questions 1) designates_1).
  reflexivity.
Defined.

(** What does hold of C1: [createQuestion] rejects every difficulty outside
    1..5 and accepts every one inside; [updateQuestion] accepts every one
    inside and rejects every one outside but 0. *)
Lemma difficulty_range_enforced_except_zero
    (q : NewQuestion) (p : QuestionPatch) (d : Z)
    (v : JsValue) (n : Z) (r : Question.Row) (t : Question.Store) :
  (other_fields_valid q -> difficulty q < 1 \/ 5 < difficulty q ->
     exists e, Question.createQuestion (question_data q) t
               = (Throw (Error e), t)
               /\ kind (Error e) = ValidationError)
  /\ (other_fields_valid q -> 1 <= difficulty q <= 5 ->
      statement_free (statement q) t ->
        exists o t', Question.createQuestion (question_data q) t = (Ok o, t'))
  /\ (designates v n -> rows t !! n = Some r -> statement_accepted p r t ->
      new_difficulty p = Some d ->
        (d <> 0 -> d < 1 \/ 5 < d ->
           Question.updateQuestion v (question_patch p) t
           = (Throw (Error DificuldadeEntre1e5), t)
           /\ kind (Error DificuldadeEntre1e5) = ValidationError)
        /\ (1 <= d <= 5 ->
              exists o t',
                Question.updateQuestion v (question_patch p) t = (Ok o, t'))).
Proof.
  split; [|split].
  - apply createQuestion_out_of_range.
  - intros Hv Hr Hf. eexists _, _. now apply createQuestion_ok.
  - intros H Hn Hs E. split.
    + intros H0 Hr. split; [|reflexivity].
      now apply (updateQuestion_out_of_range v n r p d).
    + intros Hr. eexists _, _.
      apply (updateQuestion_applied v n r p t H Hn Hs).
      intros d' E'. rewrite E in E'. injection E' as <-. now right.
Qed.

(** C2. For an id that designates the key of the stored record [r]:
    [update] with the empty patch returns and stores [r] with only
    [updatedAt] changed; [update] with [{ativa: false}] returns and stores
    that same row with [ativa] set to [false] and nothing else changed.  No
    other key of the store changes.  In both services. *)
Theorem update_empty_and_active_false
    (v : JsValue) (n : Z) (rq : Question.Row) (rs : Subject.Row)
    (tq : Question.Store) (ts : Subject.Store) :
  designates v n ->
  (rows tq !! n = Some rq ->
     Question.updateQuestion v (question_patch empty_question_patch) tq
     = (Ok (select_fields (Some Question.select_all)
              (n, Question.touch_ (now tq) rq)),
        written n (Question.touch_ (now tq) rq) tq)
     /\ Question.updateQuestion v
          (question_patch
             {| new_statement := None; new_difficulty := None;
                new_correctAnswer := None; new_subjectId := None;
                new_authorId := None; new_active := Some false |}) tq
        = (Ok (select_fields (Some Question.select_all)
                 (n, Question.set_ativa false (Question.touch_ (now tq) rq))),
           written n (Question.set_ativa false (Question.touch_ (now tq) rq)) tq)
     /\ (forall f, f <> Question.UpdatedAt ->
           Question.read_ n (Question.touch_ (now tq) rq) f
           = Question.read_ n rq f)
     /\ (forall f, f <> Question.Ativa ->
           Question.read_ n
             (Question.set_ativa false (Question.touch_ (now tq) rq)) f
           = Question.read_ n (Question.touch_ (now tq) rq) f)
     /\ (forall k r, k <> n -> rows (written n r tq) !! k = rows tq !! k))
  /\ (rows ts !! n = Some rs ->
        Subject.updateSubject v (subject_patch empty_subject_patch) ts
        = (Ok (select_fields (Some Subject.select_all)
                 (n, Subject.touch_ (now ts) rs)),
           written n (Subject.touch_ (now ts) rs) ts)
        /\ Subject.updateSubject v
             (subject_patch
                {| new_name := None; new_subject_active := Some false;
                   new_instructorId := None |}) ts
           = (Ok (select_fields (Some Subject.select_all)
                    (n, Subject.set_ativa false (Subject.touch_ (now ts) rs))),
              written n (Subject.set_ativa false (Subject.touch_ (now ts) rs)) ts)
        /\ (forall f, f <> Subject.UpdatedAt ->
              Subject.read_ n (Subject.touch_ (now ts) rs) f
              = Subject.read_ n rs f)
        /\ (forall f, f <> Subject.Ativa ->
              Subject.read_ n
                (Subject.set_ativa false (Subject.touch_ (now ts) rs)) f
              = Subject.read_ n (Subject.touch_ (now ts) rs) f)
        /\ (forall k r, k <> n -> rows (written n r ts) !! k = rows ts !! k)).
Proof.
  intros H. split.
  - intros Hn. split; [|split; [|split; [|split]]].
    + rewrite (updateQuestion_applied v n rq _ tq H Hn); [reflexivity | |];
        intros ? [=].
    + rewrite (updateQuestion_applied v n rq _ tq H Hn); [reflexivity | |];
        intros ? [=].
    + intros f Hf. now destruct f.
    + intros f Hf. now destruct f.
    + intros k r Hk. cbn [written rows]. now apply lookup_insert_ne.
  - intros Hn. split; [|split; [|split; [|split]]].
    + rewrite (updateSubject_applied v n rs _ ts H Hn); [reflexivity |];
        intros ? [=].
    + rewrite (updateSubject_applied v n rs _ ts H Hn); [reflexivity |];
        intros ? [=].
    + intros f Hf. now destruct f.
    + intros f Hf. now destruct f.
    + intros k r Hk. cbn [written rows]. now apply lookup_insert_ne.
Qed.

Lemma update_empty_and_active_false_witness :
  Question.updateQuestion (of_Z 1) (question_patch empty_question_patch)
    (Examples.questions 1)
  = (Ok (select_fields (Some Question.select_all)
           (1, Question.touch_ 1001 Examples.question_1)),
     written 1 (Question.touch_ 1001 Examples.question_1)
       (Examples.questions 1))
  /\ Subject.updateSubject (of_Z 1)
       (subject_patch
          {| new_name := None; new_subject_active := Some false;
             new_instructorId := None |}) (Examples.subjects 1)
     = (Ok (select_fields (Some Subject.select_all)
              (1, Subject.set_ativa false
                    (Subject.touch_ 1001 Examples.subject_1))),
        written 1 (Subject.set_ativa false
                     (Subject.touch_ 1001 Examples.subject_1))
          (Examples.subjects 1)).
Proof.
  destruct (update_empty_and_active_false (of_Z 1) 1 Examples.question_1
              Examples.subject_1 (Examples.questions 1) (Examples.subjects 1)
              designates_1) as [H1 H2].
  split.
  - apply H1. reflexivity.
  - apply H2. reflexivity.
Defined.






(** C5.  Creation: a valid input whose statement (name) some stored record
    has fails with [Conflict] and leaves the store as it was; so does the
    second of two valid creations with one statement (name).  Update, for an
    id that designates the stored record [r]: it fails with [Conflict],
    leaving the store as it was, when the patch gives a statement (name)
    that is not empty, differs from the one of [r] and is stored; it fails
    with [Conflict] in no other case; and a patch that gives [r]'s own
    statement (name) succeeds. *)
Theorem duplicate_is_conflict
    (q q' : NewQuestion) (s s' : NewSubject)
    (p : QuestionPatch) (ps : SubjectPatch)
    (v : JsValue) (n : Z) (rq : Question.Row) (rs : Subject.Row)
    (tq : Question.Store) (ts : Subject.Store) :
  (valid_question q -> statement_taken (statement q) tq ->
     Question.createQuestion (question_data q) tq
     = (Throw (Error EnunciadoJaCadastrado), tq))
  /\ (valid_question q -> valid_question q' -> statement q' = statement q ->
      statement_free (statement q) tq ->
        exists o t',
          Question.createQuestion (question_data q) tq = (Ok o, t')
          /\ Question.createQuestion (question_data q') t'
             = (Throw (Error EnunciadoJaCadastrado), t'))
  /\ (valid_subject s -> name_taken (name s) ts ->
        Subject.createSubject (subject_data s) ts
        = (Throw (Error NomeJaCadastrado), ts))
  /\ (valid_subject s -> valid_subject s' -> name s' = name s ->
      name_free (name s) ts ->
        exists o t',
          Subject.createSubject (subject_data s) ts = (Ok o, t')
          /\ Subject.createSubject (subject_data s') t'
             = (Throw (Error NomeJaCadastrado), t'))
  /\ (designates v n -> rows tq !! n = Some rq ->
        (statement_clash p rq tq ->
           Question.updateQuestion v (question_patch p) tq
           = (Throw (Error EnunciadoEmUso), tq))
        /\ (forall e t',
              Question.updateQuestion v (question_patch p) tq = (Throw e, t') ->
              kind e = Conflict -> statement_clash p rq tq)
        /\ (new_statement p = Some (Question.col_enunciado rq) ->
            difficulty_accepted p ->
              Question.updateQuestion v (question_patch p) tq
              = (Ok (select_fields (Some Question.select_all)
                       (n, patched_question p (now tq) rq)),
                 written n (patched_question p (now tq) rq) tq)))
  /\ (designates v n -> rows ts !! n = Some rs ->
        (name_clash ps rs ts ->
           Subject.updateSubject v (subject_patch ps) ts
           = (Throw (Error NomeEmUso), ts))
        /\ (forall e t',
              Subject.updateSubject v (subject_patch ps) ts = (Throw e, t') ->
              kind e = Conflict -> name_clash ps rs ts)
        /\ (new_name ps = Some (Subject.col_nome rs) ->
              Subject.updateSubject v (subject_patch ps) ts
              = (Ok (select_fields (Some Subject.select_all)
                       (n, patched_subject ps (now ts) rs)),
                 written n (patched_subject ps (now ts) rs) ts)))
  /\ kind (Error EnunciadoJaCadastrado) = Conflict
  /\ kind (Error NomeJaCadastrado) = Conflict
  /\ kind (Error EnunciadoEmUso) = Conflict
  /\ kind (Error NomeEmUso) = Conflict.
Proof.
  split; [|split; [|split; [|split; [|split; [|split]]]]].
  - apply createQuestion_conflict.
  - intros Hv Hv' Es Hf. eexists _, _.
    split; [now apply createQuestion_ok|].
    apply createQuestion_conflict; [exact Hv'|].
    rewrite Es. apply question_taken_after_create.
  - apply createSubject_conflict.
  - intros Hv Hv' Es Hf. eexists _, _.
    split; [now apply createSubject_ok|].
    apply createSubject_conflict; [exact Hv'|].
    rewrite Es. apply subject_taken_after_create.
  - intros H Hn. split; [|split].
    + now apply (updateQuestion_conflict v n).
    + intros e t'. now apply (question_update_conflict_only v n).
    + intros Es Hd. apply updateQuestion_applied; try assumption.
      intros s0 E0. rewrite Es in E0. injection E0 as <-. right. now left.
  - intros H Hn. split; [|split].
    + now apply (updateSubject_conflict v n).
    + intros e t'. now apply (subject_update_conflict_only v n).
    + intros Es. apply updateSubject_applied; try assumption.
      intros s0 E0. rewrite Es in E0. injection E0 as <-. right. now left.
  - repeat split.
Qed.

Lemma duplicate_is_conflict_witness :
  Question.createQuestion (question_data Examples.same_statement)
    (Examples.questions 1)
  = (Throw (Error EnunciadoJaCadastrado), Examples.questions 1)
  /\ Subject.createSubject (subject_data Examples.same_name)
       (Examples.subjects 1)
     = (Throw (Error NomeJaCadastrado), Examples.subjects 1)
  /\ Question.updateQuestion (of_Z 2) (question_patch Examples.rename_to_1)
       Examples.two_questions
     = (Throw (Error EnunciadoEmUso), Examples.two_questions)
  /\ Question.updateQuestion (of_Z 2) (question_patch Examples.rename_to_2)
       Examples.two_questions
     = (Ok (select_fields (Some Question.select_all)
              (2, Question.touch_ 1002 Examples.question_2)),
        written 2 (Question.touch_ 1002 Examples.question_2)
          Examples.two_questions).
Proof.
  assert (designates (of_Z 2) 2) as H2
    by (apply of_Z_designates; vm_compute; split; reflexivity).
  destruct (duplicate_is_conflict Examples.same_statement
              Examples.same_statement Examples.same_name
              Examples.same_name Examples.rename_to_1 empty_subject_patch
              (of_Z 2) 2 Examples.question_2 Examples.subject_1
              (Examples.questions 1) (Examples.subjects 1))
    as (C1 & _ & C3 & _).
  destruct (duplicate_is_conflict Examples.same_statement
              Examples.same_statement Examples.same_name
              Examples.same_name Examples.rename_to_1 empty_subject_patch
              (of_Z 2) 2 Examples.question_2 Examples.subject_1
              Examples.two_questions (Examples.subjects 1))
    as (_ & _ & _ & _ & U1 & _).
  destruct (duplicate_is_conflict Examples.same_statement
              Examples.same_statement Examples.same_name
              Examples.same_name Examples.rename_to_2 empty_subject_patch
              (of_Z 2) 2 Examples.question_2 Examples.subject_1
              Examples.two_questions (Examples.subjects 1))
    as (_ & _ & _ & _ & U2 & _).
  split; [|split; [|split]].
  - apply C1.
    + repeat split; try discriminate; reflexivity.
    + exists 1, Examples.question_1. split; reflexivity.
  - apply C3.
    + repeat split; try discriminate; reflexivity.
    + exists 1, Examples.subject_1. split; reflexivity.
  - apply (U1 H2 eq_refl).
    exists (Question.col_enunciado Examples.question_1).
    split; [reflexivity|]. split; [discriminate|]. split; [discriminate|].
    exists 1, Examples.question_1. split; reflexivity.
  - apply (U2 H2 eq_refl); [reflexivity|]. intros d [=].
Defined.

(** C6, as stated, fails at 1e21: the number prints as [1e+21], in which
    [parseInt] reads 1, and [getById] answers with the question 1 although
    no question has the key 10^21. *)
Lemma getById_absent_not_for_1e21 : ~ absent_for_every_positive_integer.
Proof.
  intros H.
  specialize (H (10 ^ 21) (Examples.questions 1) eq_refl eq_refl).
  vm_compute in H. discriminate H.
Qed.

(** C6, amended.  [getById] fails with [InvalidArgument] for every id that
    is missing, non-numeric or non-positive, in both services.  For an id
    that designates a key with no record, and so for every positive
    integer [n] below 10^21 (from which on a number prints with an
    exponent), it returns the absent result and leaves the store as it was.
    Whatever the id, a read never fails with [NotFound]. *)
Theorem getById_invalid_or_absent
    (v w : JsValue) (n : Z) (tq : Question.Store) (ts : Subject.Store) :
  (missing v \/ non_numeric v \/ non_positive v ->
     Question.getQuestionById v tq = (Throw (Error IdInvalido), tq)
     /\ Subject.getSubjectById v ts = (Throw (Error IdInvalido), ts)
     /\ kind (Error IdInvalido) = InvalidArgument)
  /\ (designates w n -> rows tq !! n = None ->
        Question.getQuestionById w tq = (Ok None, tq))
  /\ (designates w n -> rows ts !! n = None ->
        Subject.getSubjectById w ts = (Ok None, ts))
  /\ (0 < n < 10 ^ 21 -> designates (of_Z n) n)
  /\ (0 < n < 10 ^ 21 -> rows tq !! n = None ->
        Question.getQuestionById (of_Z n) tq = (Ok None, tq))
  /\ (0 < n < 10 ^ 21 -> rows ts !! n = None ->
        Subject.getSubjectById (of_Z n) ts = (Ok None, ts))
  /\ failed (fst (Question.getQuestionById v tq)) <> Some NotFound
  /\ failed (fst (Subject.getSubjectById v ts)) <> Some NotFound.
Proof.
  split; [|split; [|split; [|split; [|split; [|split; [|split]]]]]].
  - intros H%invalid_not_positive. split; [|split].
    + now apply getQuestionById_invalid.
    + now apply getSubjectById_invalid.
    + reflexivity.
  - intros H Hn. now rewrite (getQuestionById_valid w n tq H), Hn.
  - intros H Hn. now rewrite (getSubjectById_valid w n ts H), Hn.
  - apply of_Z_designates.
  - intros H%of_Z_designates Hn.
    now rewrite (getQuestionById_valid _ n tq H), Hn.
  - intros H%of_Z_designates Hn.
    now rewrite (getSubjectById_valid _ n ts H), Hn.
  - apply question_getById_not_NotFound.
  - apply subject_getById_not_NotFound.
Qed.

Lemma getById_invalid_or_absent_witness :
  (Question.getQuestionById (of_Z (-1)) (Examples.questions 1)
   = (Throw (Error IdInvalido), Examples.questions 1)
   /\ Question.getQuestionById (of_Z 0) (Examples.questions 1)
      = (Throw (Error IdInvalido), Examples.questions 1)
   /\ Question.getQuestionById (Str "abc") (Examples.questions 1)
      = (Throw (Error IdInvalido), Examples.questions 1)
   /\ Subject.getSubjectById Undefined (Examples.subjects 1)
      = (Throw (Error IdInvalido), Examples.subjects 1))
  /\ Question.getQuestionById (of_Z 7) (Examples.questions 1)
     = (Ok None, Examples.questions 1)
  /\ Subject.getSubjectById (of_Z 7) (Examples.subjects 1)
     = (Ok None, Examples.subjects 1).
Proof.
  assert (0 < 7 < 10 ^ 21) as H7 by (vm_compute; split; reflexivity).
  pose proof (fun v => getById_invalid_or_absent v (of_Z 7) 7
                (Examples.questions 1) (Examples.subjects 1)) as T.
  split; [split; [|split; [|split]] | split].
  - apply (T (of_Z (-1))). right. right. vm_compute. discriminate.
  - apply (T (of_Z 0)). right. right. vm_compute. discriminate.
  - apply (T (Str "abc")). right. left. reflexivity.
  - apply (T Undefined). left. left. reflexivity.
  - destruct (T Undefined) as (_ & _ & _ & _ & A & _).
    apply A; [exact H7 | reflexivity].
  - destruct (T Undefined) as (_ & _ & _ & _ & _ & A & _).
    apply A; [exact H7 | reflexivity].
Defined.

(** C7. A valid creation whose statement (name) is not stored yet returns a
    record whose [ativa] is the flag supplied, and [true] when the input has
    none; the row stored under the new key carries the same flag.  In both
    services. *)
Theorem create_active_default
    (q : NewQuestion) (s : NewSubject)
    (tq : Question.Store) (ts : Subject.Store) :
  (valid_question q -> statement_free (statement q) tq ->
     exists o t',
       Question.createQuestion (question_data q) tq = (Ok o, t')
       /\ prop o Question.Ativa = Bool (default true (active q))
       /\ exists r, rows t' !! nextId tq = Some r
            /\ prop o Question.Id = of_Z (nextId tq)
            /\ Question.col_ativa r = default true (active q))
  /\ (valid_subject s -> name_free (name s) ts ->
        exists o t',
          Subject.createSubject (subject_data s) ts = (Ok o, t')
          /\ prop o Subject.Ativa = Bool (default true (subject_active s))
          /\ exists r, rows t' !! nextId ts = Some r
               /\ prop o Subject.Id = of_Z (nextId ts)
               /\ Subject.col_ativa r = default true (subject_active s)).
Proof.
  split.
  - intros Hv Hf. eexists _, _. split; [now apply createQuestion_ok|].
    split; [reflexivity|]. eexists. split; [apply lookup_insert_eq|].
    split; reflexivity.
  - intros Hv Hf. eexists _, _. split; [now apply createSubject_ok|].
    split; [reflexivity|]. eexists. split; [apply lookup_insert_eq|].
    split; reflexivity.
Qed.

Lemma create_active_default_witness :
  (exists o t',
     Question.createQuestion (question_data Examples.new_question)
       (Examples.questions 1) = (Ok o, t')
     /\ prop o Question.Ativa = Bool false)
  /\ (exists o t',
        Subject.createSubject (subject_data Examples.new_subject)
          (Examples.subjects 1) = (Ok o, t')
        /\ prop o Subject.Ativa = Bool true).
Proof.
  destruct (create_active_default Examples.new_question
              Examples.new_subject (Examples.questions 1)
              (Examples.subjects 1)) as [H1 H2].
  split.
  - destruct (H1 example_valid_question example_statement_free)
      as (o & t' & E & Ha & _). now exists o, t'.
  - destruct (H2 example_valid_subject example_name_free)
      as (o & t' & E & Ha & _). now exists o, t'.
Defined.


(** C9, as stated, fails: 0.0000005 is greater than zero and truncates to 0,
    and [getById] answers it with the question 5. *)
Lemma getById_not_truncation : ~ operates_on_truncation.
Proof.
  intros H.
  specialize (H (Finite 5 (-7)) 0 (Examples.questions 5) eq_refl eq_refl).
  discriminate H.
Qed.

(** C9, amended.  [getById], [update] and [delete] accept every id whose
    numeric value is greater than zero.  When [parseInt] reads the id as the
    integer [n], they operate on the record with key [n]: [getById] returns
    its selection, or the absent result; [update] and [delete] leave every
    other key as it was, and what they return has the id [n].  For a number
    from 0.000001 up to, and without, 1e21 that [n] is its integer
    truncation; so 3.7 designates the key 3, and so does the string "3". *)
Theorem id_read_by_parseInt
    (v : JsValue) (n : Z) (x : number)
    (dq : Question.QuestionData) (ds : Subject.SubjectData)
    (tq : Question.Store) (ts : Subject.Store) :
  (positive_number (ToNumber v) = true ->
     Question.invalid_id v = false /\ Subject.invalid_id v = false)
  /\ (designates v n ->
        Question.getQuestionById v tq
        = (Ok (select_fields (Some Question.select_all)
                 <$> ((fun r => (n, r)) <$> rows tq !! n)), tq)
        /\ Subject.getSubjectById v ts
           = (Ok (select_fields (Some Subject.select_all)
                    <$> ((fun r => (n, r)) <$> rows ts !! n)), ts)
        /\ (forall k, k <> n ->
              rows (snd (Question.updateQuestion v dq tq)) !! k = rows tq !! k
              /\ rows (snd (Subject.updateSubject v ds ts)) !! k = rows ts !! k
              /\ rows (snd (Question.deleteQuestion v tq)) !! k = rows tq !! k
              /\ rows (snd (Subject.deleteSubject v ts)) !! k = rows ts !! k)
        /\ (forall o, fst (Question.updateQuestion v dq tq) = Ok o ->
              prop o Question.Id = of_Z n)
        /\ (forall o, fst (Subject.updateSubject v ds ts) = Ok o ->
              prop o Subject.Id = of_Z n)
        /\ (forall o, fst (Question.deleteQuestion v tq) = Ok o ->
              prop o Question.Id = of_Z n
              /\ rows (snd (Question.deleteQuestion v tq)) !! n = None)
        /\ (forall o, fst (Subject.deleteSubject v ts) = Ok o ->
              prop o Subject.Id = of_Z n
              /\ rows (snd (Subject.deleteSubject v ts)) !! n = None))
  /\ (plain_decimal x -> exists m, trunc x = Some m /\ designates (Num x) m)
  /\ designates (Num (Finite 37 (-1))) 3
  /\ designates (Str "3") 3.
Proof.
  split; [|split; [|split; [|split]]].
  - intros H. now rewrite question_invalid_id_spec, subject_invalid_id_spec, H.
  - intros H.
    destruct (question_update_on_key v n dq tq H) as [U1 U2].
    destruct (subject_update_on_key v n ds ts H) as [U3 U4].
    destruct (question_delete_on_key v n tq H) as [D1 D2].
    destruct (subject_delete_on_key v n ts H) as [D3 D4].
    split; [now apply getQuestionById_valid|].
    split; [now apply getSubjectById_valid|].
    split; [intros k Hk; auto|]. auto.
  - apply plain_decimal_designates.
  - split; reflexivity.
  - split; reflexivity.
Qed.

Lemma id_read_by_parseInt_witness :
  Question.getQuestionById (Num (Finite 37 (-1))) (Examples.questions 3)
  = (Ok (Some (select_fields (Some Question.select_all)
                 (3, Examples.question_1))), Examples.questions 3)
  /\ Subject.getSubjectById (Str "3") (Examples.subjects 3)
     = (Ok (Some (select_fields (Some Subject.select_all)
                    (3, Examples.subject_1))), Examples.subjects 3)
  /\ exists m, trunc (Finite 37 (-1)) = Some m
       /\ designates (Num (Finite 37 (-1))) m.
Proof.
  pose proof (fun v H =>
    proj1 (proj2 (id_read_by_parseInt v 3 (Finite 37 (-1))
      (question_patch empty_question_patch) (subject_patch empty_subject_patch)
      (Examples.questions 3) (Examples.subjects 3))) H) as T.
  split; [|split].
  - apply (T (Num (Finite 37 (-1)))). split; reflexivity.
  - apply (T (Str "3")). split; reflexivity.
  - apply (id_read_by_parseInt Undefined 3 (Finite 37 (-1))
      (question_patch empty_question_patch) (subject_patch empty_subject_patch)
      (Examples.questions 3) (Examples.subjects 3)).
    split; reflexivity.
Defined.

(** C10.  For [update], a field other than [ativa] whose value is not
    truthy counts as absent: the call behaves as the one without these
    fields, whatever the id, the data and the store.  So a patch with an
    empty statement (name) or answer and 0 for the difficulty and the
    foreign keys, on the stored record [r], raises nothing and stores [r]
    with [updatedAt] changed, and [ativa] when the patch gives it. *)
Theorem update_drops_falsy_fields
    (v : JsValue) (n : Z) (a : option bool)
    (dq : Question.QuestionData) (ds : Subject.SubjectData)
    (rq : Question.Row) (rs : Subject.Row)
    (tq : Question.Store) (ts : Subject.Store) :
  Question.updateQuestion v dq tq
  = Question.updateQuestion v (question_without_falsy dq) tq
  /\ Subject.updateSubject v ds ts
     = Subject.updateSubject v (subject_without_falsy ds) ts
  /\ Question.dadosAtualizacao (question_patch (falsy_question_patch a))
     = Question.dadosAtualizacao (question_patch
         {| new_statement := None; new_difficulty := None;
            new_correctAnswer := None; new_subjectId := None;
            new_authorId := None; new_active := a |})
  /\ Subject.dadosAtualizacao (subject_patch (falsy_subject_patch a))
     = Subject.dadosAtualizacao (subject_patch
         {| new_name := None; new_subject_active := a;
            new_instructorId := None |})
  /\ (designates v n -> rows tq !! n = Some rq ->
        Question.updateQuestion v
          (question_patch (falsy_question_patch a)) tq
        = (Ok (select_fields (Some Question.select_all)
                 (n, Question.set_ativa (default (Question.col_ativa rq) a)
                       (Question.touch_ (now tq) rq))),
           written n (Question.set_ativa (default (Question.col_ativa rq) a)
                        (Question.touch_ (now tq) rq)) tq))
  /\ (designates v n -> rows ts !! n = Some rs ->
        Subject.updateSubject v (subject_patch (falsy_subject_patch a)) ts
        = (Ok (select_fields (Some Subject.select_all)
                 (n, Subject.set_ativa (default (Subject.col_ativa rs) a)
                       (Subject.touch_ (now ts) rs))),
           written n (Subject.set_ativa (default (Subject.col_ativa rs) a)
                        (Subject.touch_ (now ts) rs)) ts)).
Proof.
  split; [apply question_update_without_falsy|].
  split; [apply subject_update_without_falsy|].
  split; [now destruct a|]. split; [now destruct a|]. split.
  - intros H Hn.
    rewrite (updateQuestion_applied v n rq _ tq H Hn); [reflexivity | |].
    + intros s [= <-]. now left.
    + intros d [= <-]. now left.
  - intros H Hn.
    rewrite (updateSubject_applied v n rs _ ts H Hn); [reflexivity |].
    intros s [= <-]. now left.
Qed.

Lemma update_drops_falsy_fields_witness :
  Question.updateQuestion (of_Z 1)
    (question_patch (falsy_question_patch None)) (Examples.questions 1)
  = (Ok (select_fields (Some Question.select_all)
           (1, Question.touch_ 1001 Examples.question_1)),
     written 1 (Question.touch_ 1001 Examples.question_1)
       (Examples.questions 1))
  /\ Subject.updateSubject (of_Z 1)
       (subject_patch (falsy_subject_patch None)) (Examples.subjects 1)
     = (Ok (select_fields (Some Subject.select_all)
              (1, Subject.touch_ 1001 Examples.subject_1)),
        written 1 (Subject.touch_ 1001 Examples.subject_1)
          (Examples.subjects 1)).
Proof.
  destruct (update_drops_falsy_fields (of_Z 1) 1 None
              (question_patch empty_question_patch)
              (subject_patch empty_subject_patch)
              Examples.question_1 Examples.subject_1
              (Examples.questions 1) (Examples.subjects 1))
    as (_ & _ & _ & _ & H1 & H2).
  split.
  - apply H1; [exact designates_1 | reflexivity].
  - apply H2; [exact designates_1 | reflexivity].
Defined.

(** ** Further properties of the services

    What the two services do on every input: the order of their checks,
    what a failure leaves behind, how one call reads what another wrote. *)

Import Notions.

(** *** The checks, read as conditions *)

Lemma question_validate_missing d (t : Question.Store) :
  question_fields_present d = false ->
  Question.validateQuestionData d t
  = (Throw (Error QuestaoCamposObrigatorios), t).
Proof.
  unfold question_fields_present, Question.validateQuestionData, bind.
  intros H. cbv zeta.
  replace (negb (truthy (Question.enunciado d))
           || negb (truthy (Question.dificuldade d))
           || negb (truthy (Question.respostaCorreta d))
           || negb (truthy (Question.disciplinaId d))
           || negb (truthy (Question.autorId d))) with true; [reflexivity|].
  destruct (truthy (Question.enunciado d)), (truthy (Question.dificuldade d)),
    (truthy (Question.respostaCorreta d)), (truthy (Question.disciplinaId d)),
    (truthy (Question.autorId d)); try reflexivity; discriminate.
Qed.

Lemma range_check_numeric v :
  lt v (of_Z 1) || gt v (of_Z 5) = outside_1_5 (ToNumber v).
Proof.
  unfold lt, gt, IsLessThan, of_Z.
  change (ToNumber (Num (Finite 1 0))) with (Finite 1 0).
  change (ToNumber (Num (Finite 5 0))) with (Finite 5 0).
  assert (forall x,
    default false
      match num_compare x (Finite 1 0) with
      | Some Lt => Some true | Some _ => Some false | None => None end
    || default false
      match num_compare (Finite 5 0) x with
      | Some Lt => Some true | Some _ => Some false | None => None end
    = outside_1_5 x) as Hx.
  { intros [|[]|m e]; try reflexivity.
    cbn [num_compare outside_1_5].
    assert (fin_compare 5 0 m e = CompOpp (fin_compare m e 5 0)) as ->.
    { unfold fin_compare. rewrite (Z.min_comm 0 e). apply Z.compare_antisym. }
    destruct (fin_compare m e 1 0), (fin_compare m e 5 0); reflexivity. }
  destruct v; try apply Hx.
Qed.

(** *** How every call ends *)

(** The two writes of the client either store a row or leave the table. *)
Section Outcomes.
Context {F R : Type} `{!Model F R}.

Lemma create_outcome data sel (t : Table R) :
  (exists r, assign data (blank (now t)) = Some r
     /\ create data sel t = (Ok (select_fields sel (nextId t, r)), inserted r t))
  \/ create data sel t = (Throw PrismaClientValidationError, t).
Proof.
  unfold create. destruct (forallb (given data) required); [|now right].
  destruct (assign data (blank (now t))) as [r|]; [|now right].
  left. exists r. split; reflexivity.
Qed.

Lemma update_outcome x n data sel (t : Table R) :
  to_int x = Some n ->
  (exists r r', rows t !! n = Some r /\ assign data r = Some r'
     /\ update (key, Num x) data sel t
        = (Ok (select_fields sel (n, touch (now t) r')),
           written n (touch (now t) r') t))
  \/ (exists e, update (key, Num x) data sel t = (Throw e, t)
                  /\ kind e = ClientFailure).
Proof.
  intros H. unfold update. rewrite (locate_key x n t H).
  destruct (rows t !! n) as [r|]; cbn [fmap option_fmap option_map];
    [|right; eauto].
  destruct (assign data r) as [r'|] eqn:E; [|right; eauto].
  left. exists r, r'. rewrite E. repeat split.
Qed.

End Outcomes.

Module QuestionOutcomes.
Import Question.

Lemma question_validate_outcome d (t : Store) :
  validateQuestionData d t
  = if negb (question_fields_present d)
    then (Throw (Error QuestaoCamposObrigatorios), t)
    else if outside_1_5 (ToNumber (dificuldade d))
    then (Throw (Error DificuldadeEntre1e5), t)
    else (Ok tt, t).
Proof.
  destruct (question_fields_present d) eqn:E; cbn [negb];
    [|now apply question_validate_missing].
  unfold validateQuestionData, bind. cbv zeta.
  unfold question_fields_present in E.
  repeat (apply andb_true_iff in E as [E ?]).
  repeat match goal with H : truthy _ = true |- _ => rewrite H; clear H end.
  cbn [negb orb ret]. rewrite range_check_numeric.
  now destruct (outside_1_5 (ToNumber (dificuldade d))).
Qed.

Lemma enunciadoExists_outcome v (t : Store) :
  (exists s, v = Str s /\ statement_taken s t
     /\ enunciadoExists v t = (Ok true, t))
  \/ (exists s, v = Str s /\ statement_free s t
        /\ enunciadoExists v t = (Ok false, t))
  \/ ((forall s, v <> Str s)
      /\ enunciadoExists v t = (Throw PrismaClientValidationError, t)).
Proof.
  destruct v as [| |b|x|s]; try (right; right; split; [discriminate | reflexivity]).
  destruct (question_taken_or_free s t) as [H|H].
  - left. exists s. auto using enunciadoExists_taken.
  - right. left. exists s. auto using enunciadoExists_free.
Qed.

Lemma question_id_cases v :
  invalid_id v = true
  \/ (exists n, designates v n)
  \/ (invalid_id v = false /\ to_int (parseInt v) = None).
Proof.
  destruct (invalid_id v) eqn:E; [now left|right].
  destruct (to_int (parseInt v)) as [n|] eqn:En; [left|now right].
  exists n. split; [|exact En].
  rewrite question_invalid_id_spec in E. now apply negb_false_iff in E.
Qed.

Lemma question_assign_keeps_createdAt (data : JsObject Field) : forall r r',
  assign data r = Some r' -> col_createdAt r' = col_createdAt r.
Proof.
  induction data as [|[f v] data IH]; intros r r'; cbn [assign].
  - now intros [= <-].
  - destruct (defined v); [|apply IH].
    destruct (existsb (field_eqb f) writable && accepts f v); [|discriminate].
    intros H%IH. rewrite H. change (write f v r) with (write_ f v r).
    unfold write_. destruct f, v; reflexivity.
Qed.

Lemma question_assign_keeps_updatedAt (data : JsObject Field) : forall r r',
  assign data r = Some r' -> col_updatedAt r' = col_updatedAt r.
Proof.
  induction data as [|[f v] data IH]; intros r r'; cbn [assign].
  - now intros [= <-].
  - destruct (defined v); [|apply IH].
    destruct (existsb (field_eqb f) writable && accepts f v); [|discriminate].
    intros H%IH. rewrite H. change (write f v r) with (write_ f v r).
    unfold write_. destruct f, v; reflexivity.
Qed.

Lemma assign_keeps_enunciado (data : JsObject Field) : forall r r',
  Forall (fun p => fst p <> Enunciado) data ->
  assign data r = Some r' -> col_enunciado r' = col_enunciado r.
Proof.
  induction data as [|[f v] data IH]; intros r r' Hd; cbn [assign].
  - now intros [= <-].
  - apply Forall_cons in Hd as [Hf Hd]. cbn [fst] in Hf.
    destruct (defined v); [|now apply IH].
    destruct (existsb (field_eqb f) writable && accepts f v); [|discriminate].
    intros H%IH; [|exact Hd]. rewrite H.
    change (write f v r) with (write_ f v r).
    unfold write_. destruct f, v; try reflexivity; contradiction.
Qed.

Lemma assign_sets_enunciado v (data : JsObject Field) r r' :
  truthy v = true ->
  Forall (fun p => fst p <> Enunciado) data ->
  assign ((Enunciado, v) :: data) r = Some r' ->
  v = Str (col_enunciado r').
Proof.
  intros Hv Hd. cbn [assign].
  destruct v as [| |b|x|s]; try discriminate; cbn [defined];
    try (cbn; discriminate).
  change (existsb (field_eqb Enunciado) writable && accepts Enunciado (Str s))
    with true. cbv iota.
  intros H%assign_keeps_enunciado; [|exact Hd]. now rewrite H.
Qed.

Lemma question_set_if_entry c f v o : set_if c f v o = o ++ question_entry c f v.
Proof. unfold set_if, question_entry. destruct c; [reflexivity|]. now rewrite app_nil_r. Qed.

Lemma question_dados_split d :
  dadosAtualizacao d
  = question_entry (truthy (enunciado d)) Enunciado (enunciado d) ++ question_other_entries d.
Proof.
  unfold dadosAtualizacao, question_other_entries. rewrite !question_set_if_entry.
  cbn [app]. now rewrite <- !app_assoc.
Qed.

Lemma question_other_entries_fields d :
  Forall (fun p => fst p <> Enunciado) (question_other_entries d).
Proof.
  unfold question_other_entries, question_entry.
  repeat (apply Forall_app; split);
    match goal with |- Forall _ (if ?c then _ else _) => destruct c end;
    repeat constructor; discriminate.
Qed.

(** Every way [createQuestion] ends, whatever the data: the checks in the
    order of the source, then the write. *)
Lemma createQuestion_cases d (t : Store) :
  (question_fields_present d = false
   /\ createQuestion d t = (Throw (Error QuestaoCamposObrigatorios), t))
  \/ (question_fields_present d = true
      /\ outside_1_5 (ToNumber (dificuldade d)) = true
      /\ createQuestion d t = (Throw (Error DificuldadeEntre1e5), t))
  \/ (question_fields_present d = true
      /\ outside_1_5 (ToNumber (dificuldade d)) = false
      /\ ((exists s, enunciado d = Str s /\ statement_taken s t
             /\ createQuestion d t = (Throw (Error EnunciadoJaCadastrado), t))
          \/ (exists e, kind e = ClientFailure
                /\ createQuestion d t = (Throw e, t))
          \/ (exists r,
                enunciado d = Str (col_enunciado r)
                /\ statement_free (col_enunciado r) t
                /\ col_createdAt r = now t
                /\ col_updatedAt r = now t
                /\ createQuestion d t
                   = (Ok (select_fields (Some select_all) (nextId t, r)),
                      inserted r t)))).
Proof.
  unfold createQuestion, bind. rewrite question_validate_outcome.
  destruct (question_fields_present d) eqn:Ep; cbn [negb]; [right|now left].
  destruct (outside_1_5 _); [left; now repeat split|right].
  split; [reflexivity|]. split; [reflexivity|].
  unfold question_fields_present in Ep.
  repeat (apply andb_true_iff in Ep as [Ep ?]).
  destruct (enunciadoExists_outcome (enunciado d) t)
    as [(s & Es & Ht & ->)|[(s & Es & Hf & ->)|(Hn & ->)]].
  - left. exists s. now repeat split.
  - cbv beta iota zeta delta [ret]. right.
    match goal with |- context [create ?data ?sel t] =>
      destruct (create_outcome data sel t) as [(r & Ha & ->)| ->] end;
      [right|left; exists PrismaClientValidationError; split; reflexivity].
    exists r. rewrite Es in Ha.
    assert (Str s = Str (col_enunciado r)) as [= ->].
    { eapply assign_sets_enunciado; [rewrite <- Es; exact Ep| |exact Ha].
      repeat constructor; discriminate. }
    split; [assumption|]. split; [assumption|].
    split; [exact (question_assign_keeps_createdAt _ _ _ Ha)|].
    split; [exact (question_assign_keeps_updatedAt _ _ _ Ha)|]. reflexivity.
  - right. left. exists PrismaClientValidationError. split; reflexivity.
Qed.

Ltac question_thrown H :=
  left; rewrite H; eexists; (split; [reflexivity|]); auto.

(** What [updateQuestion] does on a stored question, whatever the data. *)
Lemma updateQuestion_present v n r d (t : Store) :
  designates v n -> rows t !! n = Some r ->
  (exists e, updateQuestion v d t = (Throw e, t)
     /\ (e = Error EnunciadoEmUso
         \/ (e = Error DificuldadeEntre1e5
             /\ truthy (dificuldade d) = true
             /\ outside_1_5 (ToNumber (dificuldade d)) = true)
         \/ kind e = ClientFailure))
  \/ (exists r',
        assign (dadosAtualizacao d) r = Some r'
        /\ (col_enunciado r' = col_enunciado r
            \/ statement_free (col_enunciado r') t)
        /\ (truthy (dificuldade d) = true ->
              outside_1_5 (ToNumber (dificuldade d)) = false)
        /\ updateQuestion v d t
           = (Ok (select_fields (Some select_all) (n, touch_ (now t) r')),
              written n (touch_ (now t) r') t)).
Proof.
  intros H Hn.
  remember (updateQuestion v d t) as out eqn:Hout.
  rewrite (updateQuestion_unfold v n r d t H Hn) in Hout.
  unfold statement_check in Hout.
  change (prop (select_fields None (n, r)) Enunciado)
    with (Str (col_enunciado r)) in Hout.
  rewrite range_check_numeric in Hout.
  assert ((exists e,
             update (Id, Num (parseInt v)) (dadosAtualizacao d)
               (Some select_all) t = (Throw e, t)
             /\ kind e = ClientFailure)
          \/ (exists r',
                assign (dadosAtualizacao d) r = Some r'
                /\ update (Id, Num (parseInt v)) (dadosAtualizacao d)
                     (Some select_all) t
                   = (Ok (select_fields (Some select_all)
                            (n, touch_ (now t) r')),
                      written n (touch_ (now t) r') t))) as Hu.
  { destruct H as [_ H].
    destruct (update_outcome (parseInt v) n (dadosAtualizacao d)
                (Some select_all) t H) as [(r0 & r' & Hr & Ha & E)|[e E]].
    - right. exists r'. rewrite Hn in Hr. injection Hr as <-. now split.
    - left. now exists e. }
  assert (truthy (enunciado d) = true ->
          strict_ne (enunciado d) (Str (col_enunciado r)) = false ->
          enunciado d = Str (col_enunciado r)) as Hsame.
  { destruct (enunciado d); try discriminate. unfold strict_ne. cbn [strict_eq].
    intros _ ->%negb_false_iff%String.eqb_eq. reflexivity. }
  assert (forall r', assign (dadosAtualizacao d) r = Some r' ->
            if truthy (enunciado d)
            then enunciado d = Str (col_enunciado r')
            else col_enunciado r' = col_enunciado r) as Hst.
  { intros r' Ha. rewrite question_dados_split in Ha.
    destruct (truthy (enunciado d)) eqn:Et; cbn [question_entry app] in Ha.
    - exact (assign_sets_enunciado _ _ _ _ Et (question_other_entries_fields d) Ha).
    - exact (assign_keeps_enunciado _ _ _ (question_other_entries_fields d) Ha). }
  assert (truthy (dificuldade d)
          && outside_1_5 (ToNumber (dificuldade d)) = false ->
          truthy (dificuldade d) = true ->
          outside_1_5 (ToNumber (dificuldade d)) = false) as Hin.
  { intros E Ht. rewrite Ht in E. exact E. }
  destruct (truthy (enunciado d)) eqn:Et; cbn [andb] in Hout.
  - destruct (strict_ne (enunciado d) (Str (col_enunciado r))) eqn:Ene.
    + unfold bind in Hout.
      destruct (enunciadoExists_outcome (enunciado d) t)
        as [(s & Es & Ht & E)|[(s & Es & Hf & E)|(Hx & E)]];
        rewrite E in Hout; [question_thrown Hout| |question_thrown Hout].
      cbv beta iota zeta delta [ret] in Hout.
      destruct (truthy (dificuldade d)
                && outside_1_5 (ToNumber (dificuldade d))) eqn:Er;
        [apply andb_true_iff in Er; question_thrown Hout|].
      destruct Hu as [[e [E' Ke]]|(r' & Ha & E')]; rewrite E' in Hout;
        [question_thrown Hout|right].
      exists r'. split; [exact Ha|].
      split; [|split; [exact (Hin eq_refl)|rewrite Hout; reflexivity]].
      right. specialize (Hst r' Ha). rewrite Es in Hst.
      injection Hst as <-. exact Hf.
    + unfold ret in Hout.
      destruct (truthy (dificuldade d)
                && outside_1_5 (ToNumber (dificuldade d))) eqn:Er;
        [apply andb_true_iff in Er; question_thrown Hout|].
      destruct Hu as [[e [E' Ke]]|(r' & Ha & E')]; rewrite E' in Hout;
        [question_thrown Hout|right].
      exists r'. split; [exact Ha|].
      split; [|split; [exact (Hin eq_refl)|rewrite Hout; reflexivity]].
      left. specialize (Hst r' Ha). rewrite (Hsame eq_refl eq_refl) in Hst.
      now injection Hst as <-.
  - unfold ret in Hout.
    destruct (truthy (dificuldade d)
              && outside_1_5 (ToNumber (dificuldade d))) eqn:Er;
      [apply andb_true_iff in Er; question_thrown Hout|].
    destruct Hu as [[e [E' Ke]]|(r' & Ha & E')]; rewrite E' in Hout;
      [question_thrown Hout|right].
    exists r'. split; [exact Ha|].
    split; [|split; [exact (Hin eq_refl)|rewrite Hout; reflexivity]].
    left. exact (Hst r' Ha).
Qed.

End QuestionOutcomes.

Module SubjectOutcomes.
Import Subject.

Lemma subject_validate_outcome d (t : Store) :
  validateSubjectData d t
  = if negb (subject_fields_present d)
    then (Throw (Error DisciplinaCamposObrigatorios), t)
    else (Ok tt, t).
Proof.
  unfold validateSubjectData, bind, subject_fields_present. cbv zeta.
  destruct (truthy (nome d)), (truthy (professorId d)); reflexivity.
Qed.

Lemma nomeExists_outcome v (t : Store) :
  (exists s, v = Str s /\ name_taken s t /\ nomeExists v t = (Ok true, t))
  \/ (exists s, v = Str s /\ name_free s t /\ nomeExists v t = (Ok false, t))
  \/ ((forall s, v <> Str s)
      /\ nomeExists v t = (Throw PrismaClientValidationError, t)).
Proof.
  destruct v as [| |b|x|s]; try (right; right; split; [discriminate | reflexivity]).
  destruct (subject_taken_or_free s t) as [H|H].
  - left. exists s. auto using nomeExists_taken.
  - right. left. exists s. auto using nomeExists_free.
Qed.

Lemma subject_assign_keeps_createdAt (data : JsObject Field) : forall r r',
  assign data r = Some r' -> col_createdAt r' = col_createdAt r.
Proof.
  induction data as [|[f v] data IH]; intros r r'; cbn [assign].
  - now intros [= <-].
  - destruct (defined v); [|apply IH].
    destruct (existsb (field_eqb f) writable && accepts f v); [|discriminate].
    intros H%IH. rewrite H. change (write f v r) with (write_ f v r).
    unfold write_. destruct f, v; reflexivity.
Qed.

Lemma subject_assign_keeps_updatedAt (data : JsObject Field) : forall r r',
  assign data r = Some r' -> col_updatedAt r' = col_updatedAt r.
Proof.
  induction data as [|[f v] data IH]; intros r r'; cbn [assign].
  - now intros [= <-].
  - destruct (defined v); [|apply IH].
    destruct (existsb (field_eqb f) writable && accepts f v); [|discriminate].
    intros H%IH. rewrite H. change (write f v r) with (write_ f v r).
    unfold write_. destruct f, v; reflexivity.
Qed.

Lemma assign_keeps_nome (data : JsObject Field) : forall r r',
  Forall (fun p => fst p <> Nome) data ->
  assign data r = Some r' -> col_nome r' = col_nome r.
Proof.
  induction data as [|[f v] data IH]; intros r r' Hd; cbn [assign].
  - now intros [= <-].
  - apply Forall_cons in Hd as [Hf Hd]. cbn [fst] in Hf.
    destruct (defined v); [|now apply IH].
    destruct (existsb (field_eqb f) writable && accepts f v); [|discriminate].
    intros H%IH; [|exact Hd]. rewrite H.
    change (write f v r) with (write_ f v r).
    unfold write_. destruct f, v; try reflexivity; contradiction.
Qed.

Lemma assign_sets_nome v (data : JsObject Field) r r' :
  truthy v = true ->
  Forall (fun p => fst p <> Nome) data ->
  assign ((Nome, v) :: data) r = Some r' ->
  v = Str (col_nome r').
Proof.
  intros Hv Hd. cbn [assign].
  destruct v as [| |b|x|s]; try discriminate; cbn [defined];
    try (cbn; discriminate).
  change (existsb (field_eqb Nome) writable && accepts Nome (Str s)) with true.
  cbv iota. intros H%assign_keeps_nome; [|exact Hd]. now rewrite H.
Qed.

Lemma subject_set_if_entry c f v o : set_if c f v o = o ++ subject_entry c f v.
Proof.
  unfold set_if, subject_entry. destruct c; [reflexivity|]. now rewrite app_nil_r.
Qed.

Lemma subject_dados_split d :
  dadosAtualizacao d
  = subject_entry (truthy (nome d)) Nome (nome d) ++ subject_other_entries d.
Proof.
  unfold dadosAtualizacao, subject_other_entries. rewrite !subject_set_if_entry.
  cbn [app]. now rewrite <- !app_assoc.
Qed.

Lemma subject_other_entries_fields d :
  Forall (fun p => fst p <> Nome) (subject_other_entries d).
Proof.
  unfold subject_other_entries, subject_entry.
  repeat (apply Forall_app; split);
    match goal with |- Forall _ (if ?c then _ else _) => destruct c end;
    repeat constructor; discriminate.
Qed.

(** Every way [createSubject] ends, whatever the data. *)
Lemma createSubject_cases d (t : Store) :
  (subject_fields_present d = false
   /\ createSubject d t = (Throw (Error DisciplinaCamposObrigatorios), t))
  \/ (subject_fields_present d = true
      /\ ((exists s, nome d = Str s /\ name_taken s t
             /\ createSubject d t = (Throw (Error NomeJaCadastrado), t))
          \/ (exists e, kind e = ClientFailure
                /\ createSubject d t = (Throw e, t))
          \/ (exists r,
                nome d = Str (col_nome r)
                /\ name_free (col_nome r) t
                /\ col_createdAt r = now t
                /\ col_updatedAt r = now t
                /\ createSubject d t
                   = (Ok (select_fields (Some select_all) (nextId t, r)),
                      inserted r t)))).
Proof.
  unfold createSubject, bind. rewrite subject_validate_outcome.
  destruct (subject_fields_present d) eqn:Ep; cbn [negb]; [right|now left].
  split; [reflexivity|].
  unfold subject_fields_present in Ep.
  apply andb_true_iff in Ep as [Ep ?].
  destruct (nomeExists_outcome (nome d) t)
    as [(s & Es & Ht & ->)|[(s & Es & Hf & ->)|(Hn & ->)]].
  - left. exists s. now repeat split.
  - cbv beta iota zeta delta [ret]. right.
    match goal with |- context [create ?data ?sel t] =>
      destruct (create_outcome data sel t) as [(r & Ha & ->)| ->] end;
      [right|left; exists PrismaClientValidationError; split; reflexivity].
    exists r. rewrite Es in Ha.
    assert (Str s = Str (col_nome r)) as [= ->].
    { eapply assign_sets_nome; [rewrite <- Es; exact Ep| |exact Ha].
      repeat constructor; discriminate. }
    split; [assumption|]. split; [assumption|].
    split; [exact (subject_assign_keeps_createdAt _ _ _ Ha)|].
    split; [exact (subject_assign_keeps_updatedAt _ _ _ Ha)|]. reflexivity.
  - right. left. exists PrismaClientValidationError. split; reflexivity.
Qed.

Ltac subject_thrown H :=
  left; rewrite H; eexists; (split; [reflexivity|]); auto.

(** What [updateSubject] does on a stored subject, whatever the data. *)
Lemma updateSubject_present v n r d (t : Store) :
  designates v n -> rows t !! n = Some r ->
  (exists e, updateSubject v d t = (Throw e, t)
     /\ (e = Error NomeEmUso \/ kind e = ClientFailure))
  \/ (exists r',
        assign (dadosAtualizacao d) r = Some r'
        /\ (col_nome r' = col_nome r \/ name_free (col_nome r') t)
        /\ updateSubject v d t
           = (Ok (select_fields (Some select_all) (n, touch_ (now t) r')),
              written n (touch_ (now t) r') t)).
Proof.
  intros H Hn.
  remember (updateSubject v d t) as out eqn:Hout.
  rewrite (updateSubject_unfold v n r d t H Hn) in Hout.
  unfold name_check in Hout.
  change (prop (select_fields None (n, r)) Nome) with (Str (col_nome r)) in Hout.
  assert ((exists e,
             update (Id, Num (parseInt v)) (dadosAtualizacao d)
               (Some select_all) t = (Throw e, t)
             /\ kind e = ClientFailure)
          \/ (exists r',
                assign (dadosAtualizacao d) r = Some r'
                /\ update (Id, Num (parseInt v)) (dadosAtualizacao d)
                     (Some select_all) t
                   = (Ok (select_fields (Some select_all)
                            (n, touch_ (now t) r')),
                      written n (touch_ (now t) r') t))) as Hu.
  { destruct H as [_ H].
    destruct (update_outcome (parseInt v) n (dadosAtualizacao d)
                (Some select_all) t H) as [(r0 & r' & Hr & Ha & E)|[e E]].
    - right. exists r'. rewrite Hn in Hr. injection Hr as <-. now split.
    - left. now exists e. }
  assert (truthy (nome d) = true ->
          strict_ne (nome d) (Str (col_nome r)) = false ->
          nome d = Str (col_nome r)) as Hsame.
  { destruct (nome d); try discriminate. unfold strict_ne. cbn [strict_eq].
    intros _ ->%negb_false_iff%String.eqb_eq. reflexivity. }
  assert (forall r', assign (dadosAtualizacao d) r = Some r' ->
            if truthy (nome d)
            then nome d = Str (col_nome r')
            else col_nome r' = col_nome r) as Hst.
  { intros r' Ha. rewrite subject_dados_split in Ha.
    destruct (truthy (nome d)) eqn:Et; cbn [subject_entry app] in Ha.
    - exact (assign_sets_nome _ _ _ _ Et (subject_other_entries_fields d) Ha).
    - exact (assign_keeps_nome _ _ _ (subject_other_entries_fields d) Ha). }
  destruct (truthy (nome d)) eqn:Et; cbn [andb] in Hout.
  - destruct (strict_ne (nome d) (Str (col_nome r))) eqn:Ene.
    + unfold bind in Hout.
      destruct (nomeExists_outcome (nome d) t)
        as [(s & Es & Ht & E)|[(s & Es & Hf & E)|(Hx & E)]];
        rewrite E in Hout; [subject_thrown Hout| |subject_thrown Hout].
      cbv beta iota zeta delta [ret] in Hout.
      destruct Hu as [[e [E' Ke]]|(r' & Ha & E')]; rewrite E' in Hout;
        [subject_thrown Hout|right].
      exists r'. split; [exact Ha|].
      split; [|rewrite Hout; reflexivity].
      right. specialize (Hst r' Ha). rewrite Es in Hst.
      injection Hst as <-. exact Hf.
    + unfold ret in Hout.
      destruct Hu as [[e [E' Ke]]|(r' & Ha & E')]; rewrite E' in Hout;
        [subject_thrown Hout|right].
      exists r'. split; [exact Ha|].
      split; [|rewrite Hout; reflexivity].
      left. specialize (Hst r' Ha). rewrite (Hsame eq_refl eq_refl) in Hst.
      now injection Hst as <-.
  - unfold ret in Hout.
    destruct Hu as [[e [E' Ke]]|(r' & Ha & E')]; rewrite E' in Hout;
      [subject_thrown Hout|right].
    exists r'. split; [exact Ha|].
    split; [|rewrite Hout; reflexivity].
    left. exact (Hst r' Ha).
Qed.

End SubjectOutcomes.

(** A key that is not an integer is refused by the client. *)
Section KeyOutcomes.
Context {F R : Type} `{!Model F R}.

Lemma locate_key_invalid x (t : Table R) :
  to_int x = None -> locate (key, Num x) t = Throw PrismaClientValidationError.
Proof.
  intros H. unfold locate. rewrite field_eqb_refl. now rewrite H.
Qed.

Lemma findUnique_key_invalid x sel (t : Table R) :
  to_int x = None ->
  findUnique (key, Num x) sel t = (Throw PrismaClientValidationError, t).
Proof. intros H. unfold findUnique. now rewrite locate_key_invalid. Qed.

End KeyOutcomes.

Module QuestionCases.
Import Question QuestionOutcomes.

Lemma updateQuestion_invalid v d (t : Store) :
  invalid_id v = true -> updateQuestion v d t = (Throw (Error IdInvalido), t).
Proof. intros H. unfold updateQuestion, bind. now rewrite H. Qed.

Lemma deleteQuestion_invalid v (t : Store) :
  invalid_id v = true -> deleteQuestion v t = (Throw (Error IdInvalido), t).
Proof. intros H. unfold deleteQuestion, bind. now rewrite H. Qed.

Lemma getQuestionById_cases v (t : Store) :
  (exists e, getQuestionById v t = (Throw e, t))
  \/ (exists n, designates v n
        /\ getQuestionById v t
           = (Ok (select_fields (Some select_all)
                    <$> ((fun r => (n, r)) <$> rows t !! n)), t)).
Proof.
  destruct (question_id_cases v) as [H|[[n H]|[H1 H2]]].
  - left. eexists. apply getQuestionById_invalid.
    rewrite question_invalid_id_spec in H. now apply negb_true_iff in H.
  - right. exists n. split; [exact H|]. now apply getQuestionById_valid.
  - left. eexists. unfold getQuestionById, bind. rewrite H1. unfold ret at 1.
    change Id with (key (F := Field)).
    now rewrite (findUnique_key_invalid _ _ t H2).
Qed.

Lemma updateQuestion_cases v d (t : Store) :
  (exists e, updateQuestion v d t = (Throw e, t))
  \/ (exists n r r',
        designates v n
        /\ rows t !! n = Some r
        /\ assign (dadosAtualizacao d) r = Some r'
        /\ (col_enunciado r' = col_enunciado r
            \/ statement_free (col_enunciado r') t)
        /\ updateQuestion v d t
           = (Ok (select_fields (Some select_all) (n, touch_ (now t) r')),
              written n (touch_ (now t) r') t)).
Proof.
  destruct (question_id_cases v) as [H|[[n H]|[H1 H2]]].
  - left. eexists. now apply updateQuestion_invalid.
  - destruct (rows t !! n) as [r|] eqn:Hn;
      [|left; eexists; now apply (updateQuestion_absent v n)].
    destruct (updateQuestion_present v n r d t H Hn)
      as [(e & He & _)|(r' & Ha & Hs & _ & Hu)]; [left; now exists e|right].
    exists n, r, r'. split; [exact H|]. split; [exact Hn|].
    split; [exact Ha|]. split; [exact Hs|exact Hu].
  - left. eexists. unfold updateQuestion, bind. rewrite H1. unfold ret at 1.
    change Id with (key (F := Field)).
    now rewrite (findUnique_key_invalid _ _ t H2).
Qed.

Lemma deleteQuestion_cases v (t : Store) :
  (exists e, deleteQuestion v t = (Throw e, t))
  \/ (exists n r,
        designates v n
        /\ rows t !! n = Some r
        /\ deleteQuestion v t
           = (Ok (select_fields (Some select_snapshot) (n, r)), removed n t)).
Proof.
  destruct (question_id_cases v) as [H|[[n H]|[H1 H2]]].
  - left. eexists. now apply deleteQuestion_invalid.
  - destruct (rows t !! n) as [r|] eqn:Hn.
    + right. exists n, r. split; [exact H|]. split; [exact Hn|].
      now apply deleteQuestion_present.
    + left. eexists. now apply (deleteQuestion_absent v n).
  - left. eexists. unfold deleteQuestion, bind. rewrite H1. unfold ret at 1.
    change Id with (key (F := Field)).
    now rewrite (findUnique_key_invalid _ _ t H2).
Qed.

End QuestionCases.

Module SubjectCases.
Import Subject SubjectOutcomes.

Lemma subject_id_cases v :
  invalid_id v = true
  \/ (exists n, designates v n)
  \/ (invalid_id v = false /\ to_int (parseInt v) = None).
Proof. exact (QuestionOutcomes.question_id_cases v). Qed.

Lemma updateSubject_invalid v d (t : Store) :
  invalid_id v = true -> updateSubject v d t = (Throw (Error IdInvalido), t).
Proof. intros H. unfold updateSubject, bind. now rewrite H. Qed.

Lemma deleteSubject_invalid v (t : Store) :
  invalid_id v = true -> deleteSubject v t = (Throw (Error IdInvalido), t).
Proof. intros H. unfold deleteSubject, bind. now rewrite H. Qed.

Lemma getSubjectById_cases v (t : Store) :
  (exists e, getSubjectById v t = (Throw e, t))
  \/ (exists n, designates v n
        /\ getSubjectById v t
           = (Ok (select_fields (Some select_all)
                    <$> ((fun r => (n, r)) <$> rows t !! n)), t)).
Proof.
  destruct (subject_id_cases v) as [H|[[n H]|[H1 H2]]].
  - left. eexists. apply getSubjectById_invalid.
    rewrite subject_invalid_id_spec in H. now apply negb_true_iff in H.
  - right. exists n. split; [exact H|]. now apply getSubjectById_valid.
  - left. eexists. unfold getSubjectById, bind. rewrite H1. unfold ret at 1.
    change Id with (key (F := Field)).
    now rewrite (findUnique_key_invalid _ _ t H2).
Qed.

Lemma updateSubject_cases v d (t : Store) :
  (exists e, updateSubject v d t = (Throw e, t))
  \/ (exists n r r',
        designates v n
        /\ rows t !! n = Some r
        /\ assign (dadosAtualizacao d) r = Some r'
        /\ (col_nome r' = col_nome r \/ name_free (col_nome r') t)
        /\ updateSubject v d t
           = (Ok (select_fields (Some select_all) (n, touch_ (now t) r')),
              written n (touch_ (now t) r') t)).
Proof.
  destruct (subject_id_cases v) as [H|[[n H]|[H1 H2]]].
  - left. eexists. now apply updateSubject_invalid.
  - destruct (rows t !! n) as [r|] eqn:Hn;
      [|left; eexists; now apply (updateSubject_absent v n)].
    destruct (updateSubject_present v n r d t H Hn)
      as [(e & He & _)|(r' & Ha & Hs & Hu)]; [left; now exists e|right].
    exists n, r, r'. split; [exact H|]. split; [exact Hn|].
    split; [exact Ha|]. split; [exact Hs|exact Hu].
  - left. eexists. unfold updateSubject, bind. rewrite H1. unfold ret at 1.
    change Id with (key (F := Field)).
    now rewrite (findUnique_key_invalid _ _ t H2).
Qed.

Lemma deleteSubject_cases v (t : Store) :
  (exists e, deleteSubject v t = (Throw e, t))
  \/ (exists n r,
        designates v n
        /\ rows t !! n = Some r
        /\ deleteSubject v t
           = (Ok (select_fields (Some select_snapshot) (n, r)), removed n t)).
Proof.
  destruct (subject_id_cases v) as [H|[[n H]|[H1 H2]]].
  - left. eexists. now apply deleteSubject_invalid.
  - destruct (rows t !! n) as [r|] eqn:Hn.
    + right. exists n, r. split; [exact H|]. split; [exact Hn|].
      now apply deleteSubject_present.
    + left. eexists. now apply (deleteSubject_absent v n).
  - left. eexists. unfold deleteSubject, bind. rewrite H1. unfold ret at 1.
    change Id with (key (F := Field)).
    now rewrite (findUnique_key_invalid _ _ t H2).
Qed.

End SubjectCases.

Import QuestionOutcomes SubjectOutcomes QuestionCases SubjectCases.

(** *** Creation *)

Lemma question_fields_present_typed q :
  question_fields_present (question_data q) = true <-> ~ empty_or_zero q.
Proof.
  unfold question_fields_present, empty_or_zero, question_data.
  cbn [Question.enunciado Question.dificuldade Question.respostaCorreta
       Question.disciplinaId Question.autorId].
  rewrite !truthy_of_Z. cbn [truthy].
  rewrite !andb_true_iff, !negb_true_iff, !Z.eqb_neq, !String.eqb_neq.
  tauto.
Qed.

Lemma subject_fields_present_typed s :
  subject_fields_present (subject_data s) = true <-> ~ subject_empty_or_zero s.
Proof.
  unfold subject_fields_present, subject_empty_or_zero, subject_data.
  cbn [Subject.nome Subject.professorId].
  rewrite !truthy_of_Z. cbn [truthy].
  rewrite !andb_true_iff, !negb_true_iff, !Z.eqb_neq, !String.eqb_neq.
  tauto.
Qed.

Lemma outside_1_5_int k : outside_1_5 (Finite k 0) = (k <? 1) || (5 <? k).
Proof.
  unfold outside_1_5. rewrite !fin_compare_int.
  destruct (Z.compare_spec k 1), (Z.compare_spec k 5);
    destruct (Z.ltb_spec k 1), (Z.ltb_spec 5 k); try reflexivity; lia.
Qed.

Lemma createQuestion_missing d (t : Question.Store) :
  question_fields_present d = false ->
  Question.createQuestion d t = (Throw (Error QuestaoCamposObrigatorios), t).
Proof.
  intros H. unfold Question.createQuestion, bind.
  now rewrite question_validate_outcome, H.
Qed.

Lemma createSubject_missing d (t : Subject.Store) :
  subject_fields_present d = false ->
  Subject.createSubject d t = (Throw (Error DisciplinaCamposObrigatorios), t).
Proof.
  intros H. unfold Subject.createSubject, bind.
  now rewrite subject_validate_outcome, H.
Qed.

(** X1. [createQuestion] fails with the required-fields error exactly when
    one of [enunciado], [dificuldade], [respostaCorreta], [disciplinaId] and
    [autorId] is not truthy, and [createSubject] exactly when [nome] or
    [professorId] is not; whatever the values are and whatever is stored.
    The store is left as it was. *)
Theorem create_requires_every_field
    (dq : Question.QuestionData) (ds : Subject.SubjectData)
    (tq : Question.Store) (ts : Subject.Store) :
  (question_fields_present dq = false
   <-> Question.createQuestion dq tq
       = (Throw (Error QuestaoCamposObrigatorios), tq))
  /\ (subject_fields_present ds = false
      <-> Subject.createSubject ds ts
          = (Throw (Error DisciplinaCamposObrigatorios), ts))
  /\ kind (Error QuestaoCamposObrigatorios) = ValidationError
  /\ kind (Error DisciplinaCamposObrigatorios) = ValidationError.
Proof.
  split; [|split; [|split; reflexivity]].
  - destruct (createQuestion_cases dq tq)
      as [[Hp E]|[(Hp & _ & E)|(Hp & _ & [(s & _ & _ & E)|[(e & Ke & E)
                                   |(r & _ & _ & _ & _ & E)]])]];
      rewrite E, Hp; (split; intros H); try done; try discriminate H;
      injection H as ->; discriminate Ke.
  - destruct (createSubject_cases ds ts)
      as [[Hp E]|(Hp & [(s & _ & _ & E)|[(e & Ke & E)
                         |(r & _ & _ & _ & _ & E)]])];
      rewrite E, Hp; (split; intros H); try done; try discriminate H;
      injection H as ->; discriminate Ke.
Qed.

(** A typed creation with every required field given: the range check,
    the uniqueness check, the write. *)
Lemma createQuestion_typed q (t : Question.Store) :
  ~ empty_or_zero q ->
  Question.createQuestion (question_data q) t
  = if (difficulty q <? 1) || (5 <? difficulty q)
    then (Throw (Error DificuldadeEntre1e5), t)
    else match Question.enunciadoExists (Str (statement q)) t with
         | (Ok true, _) => (Throw (Error EnunciadoJaCadastrado), t)
         | (Ok false, _) =>
             (Ok (select_fields (Some Question.select_all)
                    (nextId t, new_question_row q (now t))),
              inserted (new_question_row q (now t)) t)
         | (Throw e, _) => (Throw e, t)
         end.
Proof.
  intros Hp%question_fields_present_typed.
  unfold Question.createQuestion, bind. rewrite question_validate_outcome, Hp.
  cbn [negb]. change (ToNumber (Question.dificuldade (question_data q)))
    with (Finite (difficulty q) 0).
  rewrite outside_1_5_int.
  destruct ((difficulty q <? 1) || (5 <? difficulty q)); [reflexivity|].
  change (Question.enunciado (question_data q)) with (Str (statement q)).
  destruct (enunciadoExists_outcome (Str (statement q)) t)
    as [(s0 & _ & _ & ->)|[(s0 & _ & _ & ->)|(_ & ->)]]; try reflexivity.
  cbv beta iota zeta delta [ret].
  cbn [question_data Question.dificuldade Question.respostaCorreta
       Question.disciplinaId Question.autorId Question.ativa].
  now rewrite question_create_row.
Qed.

Lemma createSubject_typed s (t : Subject.Store) :
  ~ subject_empty_or_zero s ->
  Subject.createSubject (subject_data s) t
  = match Subject.nomeExists (Str (name s)) t with
    | (Ok true, _) => (Throw (Error NomeJaCadastrado), t)
    | (Ok false, _) =>
        (Ok (select_fields (Some Subject.select_all)
               (nextId t, new_subject_row s (now t))),
         inserted (new_subject_row s (now t)) t)
    | (Throw e, _) => (Throw e, t)
    end.
Proof.
  intros Hp%subject_fields_present_typed.
  unfold Subject.createSubject, bind.
  rewrite subject_validate_outcome, Hp. cbn [negb].
  change (Subject.nome (subject_data s)) with (Str (name s)).
  destruct (nomeExists_outcome (Str (name s)) t)
    as [(s0 & _ & _ & ->)|[(s0 & _ & _ & ->)|(_ & ->)]]; try reflexivity.
  cbv beta iota zeta delta [ret].
  cbn [subject_data Subject.professorId Subject.ativa].
  now rewrite subject_create_row.
Qed.

Lemma not_true_false (b : bool) : b <> true -> b = false.
Proof. destruct b; congruence. Qed.

(** X2. The outcome of a creation with typed fields, case by case, in the
    order of the checks: an empty text or a zero among the required fields
    is the required-fields error; otherwise a difficulty outside 1..5 is
    the range error, also when the statement is stored already; otherwise
    a stored statement (name) is the conflict; otherwise the record is
    stored under the next key with the fields given.  A negative
    [disciplinaId], [autorId] or [professorId] passes every check. *)
Theorem create_decision
    (q : NewQuestion) (s : NewSubject)
    (tq : Question.Store) (ts : Subject.Store) :
  (empty_or_zero q ->
     Question.createQuestion (question_data q) tq
     = (Throw (Error QuestaoCamposObrigatorios), tq))
  /\ (~ empty_or_zero q -> difficulty q < 1 \/ 5 < difficulty q ->
        Question.createQuestion (question_data q) tq
        = (Throw (Error DificuldadeEntre1e5), tq))
  /\ (~ empty_or_zero q -> 1 <= difficulty q <= 5 ->
      statement_taken (statement q) tq ->
        Question.createQuestion (question_data q) tq
        = (Throw (Error EnunciadoJaCadastrado), tq))
  /\ (~ empty_or_zero q -> 1 <= difficulty q <= 5 ->
      statement_free (statement q) tq ->
        Question.createQuestion (question_data q) tq
        = (Ok (select_fields (Some Question.select_all)
                 (nextId tq, new_question_row q (now tq))),
           inserted (new_question_row q (now tq)) tq))
  /\ (subject_empty_or_zero s ->
        Subject.createSubject (subject_data s) ts
        = (Throw (Error DisciplinaCamposObrigatorios), ts))
  /\ (~ subject_empty_or_zero s -> name_taken (name s) ts ->
        Subject.createSubject (subject_data s) ts
        = (Throw (Error NomeJaCadastrado), ts))
  /\ (~ subject_empty_or_zero s -> name_free (name s) ts ->
        Subject.createSubject (subject_data s) ts
        = (Ok (select_fields (Some Subject.select_all)
                 (nextId ts, new_subject_row s (now ts))),
           inserted (new_subject_row s (now ts)) ts)).
Proof.
  split; [|split; [|split; [|split; [|split; [|split]]]]].
  - intros He. apply createQuestion_missing.
    apply not_true_false. now rewrite question_fields_present_typed.
  - intros Hp Hr. rewrite (createQuestion_typed q tq Hp).
    destruct (Z.ltb_spec (difficulty q) 1), (Z.ltb_spec 5 (difficulty q));
      try reflexivity; lia.
  - intros Hp Hr Ht. rewrite (createQuestion_typed q tq Hp).
    destruct (Z.ltb_spec (difficulty q) 1), (Z.ltb_spec 5 (difficulty q));
      try lia. cbn [orb]. now rewrite (enunciadoExists_taken _ _ Ht).
  - intros Hp Hr Hf. rewrite (createQuestion_typed q tq Hp).
    destruct (Z.ltb_spec (difficulty q) 1), (Z.ltb_spec 5 (difficulty q));
      try lia. cbn [orb]. now rewrite (enunciadoExists_free _ _ Hf).
  - intros He. apply createSubject_missing.
    apply not_true_false. now rewrite subject_fields_present_typed.
  - intros Hp Ht. rewrite (createSubject_typed s ts Hp).
    now rewrite (nomeExists_taken _ _ Ht).
  - intros Hp Hf. rewrite (createSubject_typed s ts Hp).
    now rewrite (nomeExists_free _ _ Hf).
Qed.

Lemma create_decision_witness :
  Question.createQuestion
    (question_data
       {| statement := "3*3=?"; difficulty := 2; correctAnswer := "9";
          subjectId := -1; authorId := -3; active := None |})
    (Examples.questions 1)
  = (Ok (select_fields (Some Question.select_all)
           (2, new_question_row
                 {| statement := "3*3=?"; difficulty := 2;
                    correctAnswer := "9"; subjectId := -1; authorId := -3;
                    active := None |} 1001)),
     inserted
       (new_question_row
          {| statement := "3*3=?"; difficulty := 2; correctAnswer := "9";
             subjectId := -1; authorId := -3; active := None |} 1001)
       (Examples.questions 1))
  /\ Question.createQuestion
       (question_data
          {| statement := "2+2=?"; difficulty := 6; correctAnswer := "4";
             subjectId := 1; authorId := 3; active := None |})
       (Examples.questions 1)
     = (Throw (Error DificuldadeEntre1e5), Examples.questions 1).
Proof.
  split.
  - apply (create_decision
             {| statement := "3*3=?"; difficulty := 2; correctAnswer := "9";
                subjectId := -1; authorId := -3; active := None |}
             Examples.new_subject (Examples.questions 1)
             (Examples.subjects 1)).
    + unfold empty_or_zero. cbn. intros [H|[H|[H|[H|H]]]]; discriminate H.
    + cbn. lia.
    + exact example_statement_free.
  - apply (create_decision
             {| statement := "2+2=?"; difficulty := 6; correctAnswer := "4";
                subjectId := 1; authorId := 3; active := None |}
             Examples.new_subject (Examples.questions 1)
             (Examples.subjects 1)).
    + unfold empty_or_zero. cbn. intros [H|[H|[H|[H|H]]]]; discriminate H.
    + cbn. lia.
Defined.

(** *** The range of the difficulty *)

(** X3. The range check compares numeric values.  [createQuestion] fails
    with the range error exactly when the required fields are truthy and
    the numeric value of [dificuldade] is below 1 or above 5, whatever kind
    of value it is; a value with no numeric value is not caught.  On a
    stored question [updateQuestion] fails with it only for a truthy
    [dificuldade] whose numeric value is outside, and does so for every
    such value when no statement is given. *)
Theorem range_check_is_numeric
    (d : Question.QuestionData) (v : JsValue) (n : Z) (r : Question.Row)
    (t : Question.Store) :
  (Question.createQuestion d t = (Throw (Error DificuldadeEntre1e5), t)
   <-> question_fields_present d = true
       /\ outside_1_5 (ToNumber (Question.dificuldade d)) = true)
  /\ (designates v n -> rows t !! n = Some r ->
        (Question.updateQuestion v d t
         = (Throw (Error DificuldadeEntre1e5), t) ->
           truthy (Question.dificuldade d) = true
           /\ outside_1_5 (ToNumber (Question.dificuldade d)) = true)
        /\ (truthy (Question.enunciado d) = false ->
            truthy (Question.dificuldade d) = true ->
            outside_1_5 (ToNumber (Question.dificuldade d)) = true ->
              Question.updateQuestion v d t
              = (Throw (Error DificuldadeEntre1e5), t)))
  /\ (forall k, outside_1_5 (Finite k 0) = (k <? 1) || (5 <? k))
  /\ outside_1_5 NaN = false
  /\ kind (Error DificuldadeEntre1e5) = ValidationError.
Proof.
  split; [|split; [|split; [exact outside_1_5_int|split; reflexivity]]].
  - destruct (createQuestion_cases d t)
      as [[Hp E]|[(Hp & Ho & E)|(Hp & Ho & [(s & _ & _ & E)|[(e & Ke & E)
                                   |(r0 & _ & _ & _ & _ & E)]])]];
      rewrite E, Hp, ?Ho; (split; [intros H|intros [H1 H2]]);
      try done; try discriminate H.
    injection H as ->. discriminate Ke.
  - intros Hv Hn. split.
    + destruct (updateQuestion_present v n r d t Hv Hn)
        as [(e & -> & [->|[(-> & Ht & Ho)| Ke]])|(r' & _ & _ & _ & ->)];
        intros H; try done.
      injection H as ->. discriminate Ke.
    + intros He Ht Ho. rewrite (updateQuestion_unfold v n r d t Hv Hn).
      unfold statement_check. rewrite He. cbn [andb ret].
      now rewrite range_check_numeric, Ht, Ho.
Qed.

Lemma range_check_is_numeric_witness :
  Question.updateQuestion (of_Z 1)
    {| Question.enunciado := Undefined;
       Question.dificuldade := Str "7";
       Question.respostaCorreta := Undefined;
       Question.disciplinaId := Undefined;
       Question.autorId := Undefined;
       Question.ativa := Undefined |} (Examples.questions 1)
  = (Throw (Error DificuldadeEntre1e5), Examples.questions 1).
Proof.
  apply (range_check_is_numeric _ (of_Z 1) 1 Examples.question_1);
    [exact designates_1|reflexivity..].
Defined.

(** *** Ids *)

Lemma invalid_id_iff v :
  Question.invalid_id v = true
  <-> missing v \/ non_numeric v \/ non_positive v.
Proof.
  rewrite question_invalid_id_spec, negb_true_iff. split.
  - unfold non_numeric, non_positive, positive_number.
    destruct (ToNumber v) as [|[]|m e]; intros H; try discriminate; auto.
    right. right. now apply Z.ltb_ge in H.
  - apply invalid_not_positive.
Qed.

(** X4. An id is rejected exactly when it is missing, has no numeric value
    or has one that is not greater than zero.  [update] and [delete] then
    fail with [InvalidArgument] before anything is looked at: whatever the
    data, whatever is stored, and the store is left as it was.  In both
    services. *)
Theorem invalid_id_rejected
    (v : JsValue) (dq : Question.QuestionData) (ds : Subject.SubjectData)
    (tq : Question.Store) (ts : Subject.Store) :
  (Question.invalid_id v = true
   <-> missing v \/ non_numeric v \/ non_positive v)
  /\ (Subject.invalid_id v = true
      <-> missing v \/ non_numeric v \/ non_positive v)
  /\ (missing v \/ non_numeric v \/ non_positive v ->
        Question.updateQuestion v dq tq = (Throw (Error IdInvalido), tq)
        /\ Question.deleteQuestion v tq = (Throw (Error IdInvalido), tq)
        /\ Subject.updateSubject v ds ts = (Throw (Error IdInvalido), ts)
        /\ Subject.deleteSubject v ts = (Throw (Error IdInvalido), ts))
  /\ kind (Error IdInvalido) = InvalidArgument.
Proof.
  split; [exact (invalid_id_iff v)|]. split; [exact (invalid_id_iff v)|].
  split; [|reflexivity].
  intros H%invalid_id_iff.
  split; [now apply updateQuestion_invalid|].
  split; [now apply deleteQuestion_invalid|].
  split; [now apply updateSubject_invalid|now apply deleteSubject_invalid].
Qed.

Lemma invalid_id_rejected_witness :
  Question.updateQuestion (Str "abc") (question_patch empty_question_patch)
    (Examples.questions 1)
  = (Throw (Error IdInvalido), Examples.questions 1)
  /\ Subject.deleteSubject (of_Z 0) (Examples.subjects 1)
     = (Throw (Error IdInvalido), Examples.subjects 1).
Proof.
  split.
  - apply (invalid_id_rejected (Str "abc")
             (question_patch empty_question_patch)
             (subject_patch empty_subject_patch)
             (Examples.questions 1) (Examples.subjects 1)).
    right. left. reflexivity.
  - apply (invalid_id_rejected (of_Z 0)
             (question_patch empty_question_patch)
             (subject_patch empty_subject_patch)
             (Examples.questions 1) (Examples.subjects 1)).
    right. right. unfold non_positive. simpl. lia.
Defined.

(** X5. [update] of an id that designates no stored record fails with
    [NotFound], reported for the id as it was given, whatever the data: the
    lookup comes before the uniqueness and the range check.  On an id that
    designates the key [n] it fails with [NotFound] only when no record has
    that key.  The store is left as it was.  In both services. *)
Theorem update_absent_not_found
    (v : JsValue) (n : Z) (dq : Question.QuestionData)
    (ds : Subject.SubjectData) (tq : Question.Store) (ts : Subject.Store) :
  designates v n ->
  (rows tq !! n = None ->
     Question.updateQuestion v dq tq
     = (Throw (Error (QuestaoNaoEncontrada v)), tq))
  /\ (forall e t', Question.updateQuestion v dq tq = (Throw e, t') ->
        kind e = NotFound -> rows tq !! n = None)
  /\ (rows ts !! n = None ->
        Subject.updateSubject v ds ts
        = (Throw (Error (DisciplinaNaoEncontrada v)), ts))
  /\ (forall e t', Subject.updateSubject v ds ts = (Throw e, t') ->
        kind e = NotFound -> rows ts !! n = None)
  /\ kind (Error (QuestaoNaoEncontrada v)) = NotFound
  /\ kind (Error (DisciplinaNaoEncontrada v)) = NotFound.
Proof.
  intros Hv.
  split; [now apply updateQuestion_absent|].
  split; [|split; [now apply updateSubject_absent|split; [|split; reflexivity]]].
  - intros e t' E K. destruct (rows tq !! n) as [r|] eqn:Hn; [|reflexivity].
    destruct (updateQuestion_present v n r dq tq Hv Hn)
      as [(e' & E' & [->|[(-> & _)| Ke]])|(r' & _ & _ & _ & E')];
      rewrite E' in E; try discriminate E; injection E as <- <-;
      cbn in K; congruence.
  - intros e t' E K. destruct (rows ts !! n) as [r|] eqn:Hn; [|reflexivity].
    destruct (updateSubject_present v n r ds ts Hv Hn)
      as [(e' & E' & [->| Ke])|(r' & _ & _ & E')];
      rewrite E' in E; try discriminate E; injection E as <- <-;
      cbn in K; congruence.
Qed.

Lemma update_absent_not_found_witness :
  Question.updateQuestion (of_Z 1) (question_data Examples.same_statement)
    (Examples.questions 2)
  = (Throw (Error (QuestaoNaoEncontrada (of_Z 1))), Examples.questions 2).
Proof.
  apply (update_absent_not_found (of_Z 1) 1
           (question_data Examples.same_statement)
           (subject_patch empty_subject_patch)
           (Examples.questions 2) (Examples.subjects 1) designates_1).
  reflexivity.
Defined.

(** *** Failures write nothing *)

(** X6. Every check of a service comes before its one write: when
    [create], [update] or [delete] raises, whatever the id and the data,
    the store is the one the call was given.  [getById] and [listAll] never
    change it.  In both services. *)
Theorem failure_leaves_store
    (v : JsValue) (dq : Question.QuestionData) (ds : Subject.SubjectData)
    (tq : Question.Store) (ts : Subject.Store) :
  (forall e t', Question.createQuestion dq tq = (Throw e, t') -> t' = tq)
  /\ (forall e t', Question.updateQuestion v dq tq = (Throw e, t') -> t' = tq)
  /\ (forall e t', Question.deleteQuestion v tq = (Throw e, t') -> t' = tq)
  /\ snd (Question.getQuestionById v tq) = tq
  /\ snd (Question.getAllQuestions tq) = tq
  /\ (forall e t', Subject.createSubject ds ts = (Throw e, t') -> t' = ts)
  /\ (forall e t', Subject.updateSubject v ds ts = (Throw e, t') -> t' = ts)
  /\ (forall e t', Subject.deleteSubject v ts = (Throw e, t') -> t' = ts)
  /\ snd (Subject.getSubjectById v ts) = ts
  /\ snd (Subject.getAllSubjects ts) = ts.
Proof.
  repeat match goal with |- _ /\ _ => split end; try reflexivity.
  - intros e t' E.
    destruct (createQuestion_cases dq tq)
      as [[_ E']|[(_ & _ & E')|(_ & _ & [(s & _ & _ & E')|[(e' & _ & E')
                               |(r & _ & _ & _ & _ & E')]])]];
      rewrite E' in E; congruence.
  - intros e t' E.
    destruct (updateQuestion_cases v dq tq)
      as [[e' E']|(n & r & r' & _ & _ & _ & _ & E')];
      rewrite E' in E; congruence.
  - intros e t' E.
    destruct (deleteQuestion_cases v tq) as [[e' E']|(n & r & _ & _ & E')];
      rewrite E' in E; congruence.
  - destruct (getQuestionById_cases v tq) as [[e' ->]|(n & _ & ->)];
      reflexivity.
  - intros e t' E.
    destruct (createSubject_cases ds ts)
      as [[_ E']|(_ & [(s & _ & _ & E')|[(e' & _ & E')
                       |(r & _ & _ & _ & _ & E')]])];
      rewrite E' in E; congruence.
  - intros e t' E.
    destruct (updateSubject_cases v ds ts)
      as [[e' E']|(n & r & r' & _ & _ & _ & _ & E')];
      rewrite E' in E; congruence.
  - intros e t' E.
    destruct (deleteSubject_cases v ts) as [[e' E']|(n & r & _ & _ & E')];
      rewrite E' in E; congruence.
  - destruct (getSubjectById_cases v ts) as [[e' ->]|(n & _ & ->)];
      reflexivity.
Qed.

Lemma failure_leaves_store_witness :
  snd (Question.updateQuestion (of_Z 2) (question_patch Examples.rename_to_1)
         Examples.two_questions)
  = Examples.two_questions.
Proof.
  apply (proj1 (proj2 (failure_leaves_store (of_Z 2)
                         (question_patch Examples.rename_to_1)
                         (subject_patch empty_subject_patch)
                         Examples.two_questions (Examples.subjects 1)))
           (Error EnunciadoEmUso)).
  reflexivity.
Defined.

(** *** One call after another *)

Lemma getQuestionById_stored n r (t : Question.Store) v :
  designates v n -> rows t !! n = Some r ->
  Question.getQuestionById v t
  = (Ok (Some (select_fields (Some Question.select_all) (n, r))), t).
Proof. intros H Hn. now rewrite (getQuestionById_valid v n t H), Hn. Qed.

Lemma getSubjectById_stored n r (t : Subject.Store) v :
  designates v n -> rows t !! n = Some r ->
  Subject.getSubjectById v t
  = (Ok (Some (select_fields (Some Subject.select_all) (n, r))), t).
Proof. intros H Hn. now rewrite (getSubjectById_valid v n t H), Hn. Qed.

Lemma getQuestionById_found v o (t t' : Question.Store) :
  Question.getQuestionById v t = (Ok (Some o), t') ->
  exists n r, designates v n /\ rows t !! n = Some r
    /\ o = select_fields (Some Question.select_all) (n, r).
Proof.
  destruct (getQuestionById_cases v t) as [[e ->]|(n & Hv & ->)];
    [discriminate|].
  destruct (rows t !! n) as [r|] eqn:Hn; [|discriminate].
  intros [= <- _]. now exists n, r.
Qed.

Lemma getSubjectById_found v o (t t' : Subject.Store) :
  Subject.getSubjectById v t = (Ok (Some o), t') ->
  exists n r, designates v n /\ rows t !! n = Some r
    /\ o = select_fields (Some Subject.select_all) (n, r).
Proof.
  destruct (getSubjectById_cases v t) as [[e ->]|(n & Hv & ->)];
    [discriminate|].
  destruct (rows t !! n) as [r|] eqn:Hn; [|discriminate].
  intros [= <- _]. now exists n, r.
Qed.

(** X7. What [create] returns can be read back: when the next key is a
    positive integer (below the 10^21 from which a number prints with an
    exponent), [getById] on the id of the returned record gives that same
    record.  The creation takes the next key, advances it by one and
    leaves every other key as it was.  Whatever the data, in both
    services. *)
Theorem create_then_getById
    (dq : Question.QuestionData) (ds : Subject.SubjectData)
    (tq : Question.Store) (ts : Subject.Store) :
  (0 < nextId tq < 10 ^ 21 ->
   forall o t', Question.createQuestion dq tq = (Ok o, t') ->
     prop o Question.Id = of_Z (nextId tq)
     /\ Question.getQuestionById (prop o Question.Id) t' = (Ok (Some o), t')
     /\ nextId t' = nextId tq + 1
     /\ (forall k, k <> nextId tq -> rows t' !! k = rows tq !! k))
  /\ (0 < nextId ts < 10 ^ 21 ->
      forall o t', Subject.createSubject ds ts = (Ok o, t') ->
        prop o Subject.Id = of_Z (nextId ts)
        /\ Subject.getSubjectById (prop o Subject.Id) t' = (Ok (Some o), t')
        /\ nextId t' = nextId ts + 1
        /\ (forall k, k <> nextId ts -> rows t' !! k = rows ts !! k)).
Proof.
  split; intros Hk o t' E.
  - destruct (createQuestion_cases dq tq)
      as [[_ E']|[(_ & _ & E')|(_ & _ & [(s & _ & _ & E')|[(e' & _ & E')
                               |(r & _ & _ & _ & _ & E')]])]];
      rewrite E' in E; try discriminate E.
    injection E as <- <-.
    change (prop (select_fields (Some Question.select_all) (nextId tq, r))
              Question.Id) with (of_Z (nextId tq)).
    split; [reflexivity|]. split; [|split; [reflexivity|]].
    + apply (getQuestionById_stored (nextId tq));
        [now apply of_Z_designates|apply lookup_insert_eq].
    + intros k Hne. now apply lookup_insert_ne.
  - destruct (createSubject_cases ds ts)
      as [[_ E']|(_ & [(s & _ & _ & E')|[(e' & _ & E')
                       |(r & _ & _ & _ & _ & E')]])];
      rewrite E' in E; try discriminate E.
    injection E as <- <-.
    change (prop (select_fields (Some Subject.select_all) (nextId ts, r))
              Subject.Id) with (of_Z (nextId ts)).
    split; [reflexivity|]. split; [|split; [reflexivity|]].
    + apply (getSubjectById_stored (nextId ts));
        [now apply of_Z_designates|apply lookup_insert_eq].
    + intros k Hne. now apply lookup_insert_ne.
Qed.

Lemma create_then_getById_witness :
  Question.getQuestionById
    (prop (select_fields (Some Question.select_all)
             (2, new_question_row Examples.new_question 1001)) Question.Id)
    (inserted (new_question_row Examples.new_question 1001)
       (Examples.questions 1))
  = (Ok (Some (select_fields (Some Question.select_all)
                 (2, new_question_row Examples.new_question 1001))),
     inserted (new_question_row Examples.new_question 1001)
       (Examples.questions 1)).
Proof.
  apply (create_then_getById (question_data Examples.new_question)
           (subject_data Examples.new_subject)
           (Examples.questions 1) (Examples.subjects 1)).
  - cbn. lia.
  - reflexivity.
Defined.

(** X8. What [update] returns can be read back: after a successful update
    [getById] on the same id gives the record the update returned.  That
    record has the id and the creation time of the one stored before.
    Whatever the data, in both services. *)
Theorem update_then_getById
    (v : JsValue) (dq : Question.QuestionData) (ds : Subject.SubjectData)
    (tq : Question.Store) (ts : Subject.Store) :
  (forall o t', Question.updateQuestion v dq tq = (Ok o, t') ->
     Question.getQuestionById v t' = (Ok (Some o), t')
     /\ (exists o0,
           Question.getQuestionById v tq = (Ok (Some o0), tq)
           /\ prop o Question.Id = prop o0 Question.Id
           /\ prop o Question.CreatedAt = prop o0 Question.CreatedAt))
  /\ (forall o t', Subject.updateSubject v ds ts = (Ok o, t') ->
        Subject.getSubjectById v t' = (Ok (Some o), t')
        /\ (exists o0,
              Subject.getSubjectById v ts = (Ok (Some o0), ts)
              /\ prop o Subject.Id = prop o0 Subject.Id
              /\ prop o Subject.CreatedAt = prop o0 Subject.CreatedAt)).
Proof.
  split; intros o t' E.
  - destruct (updateQuestion_cases v dq tq)
      as [[e' E']|(n & r & r' & Hv & Hn & Ha & _ & E')];
      rewrite E' in E; [discriminate E|]. injection E as <- <-.
    split.
    + apply (getQuestionById_stored n); [exact Hv|apply lookup_insert_eq].
    + eexists. split; [exact (getQuestionById_stored n r tq v Hv Hn)|].
      split; [reflexivity|].
      change (of_Z (Question.col_createdAt r')
              = of_Z (Question.col_createdAt r)).
      now rewrite (question_assign_keeps_createdAt _ _ _ Ha).
  - destruct (updateSubject_cases v ds ts)
      as [[e' E']|(n & r & r' & Hv & Hn & Ha & _ & E')];
      rewrite E' in E; [discriminate E|]. injection E as <- <-.
    split.
    + apply (getSubjectById_stored n); [exact Hv|apply lookup_insert_eq].
    + eexists. split; [exact (getSubjectById_stored n r ts v Hv Hn)|].
      split; [reflexivity|].
      change (of_Z (Subject.col_createdAt r') = of_Z (Subject.col_createdAt r)).
      now rewrite (subject_assign_keeps_createdAt _ _ _ Ha).
Qed.

Lemma update_then_getById_witness :
  Question.getQuestionById (of_Z 1)
    (written 1
       (Question.touch_ 1001
          (Question.set_enunciado "3+3=?" Examples.question_1))
       (Examples.questions 1))
  = (Ok (Some (select_fields (Some Question.select_all)
                 (1, Question.touch_ 1001
                       (Question.set_enunciado "3+3=?"
                          Examples.question_1)))),
     written 1
       (Question.touch_ 1001
          (Question.set_enunciado "3+3=?" Examples.question_1))
       (Examples.questions 1)).
Proof.
  apply (proj1 (update_then_getById (of_Z 1)
                  (question_patch Examples.rename_to_2)
                  (subject_patch empty_subject_patch)
                  (Examples.questions 1) (Examples.subjects 1))).
  reflexivity.
Defined.

(** X9. After a successful [delete] the id is gone for the writes as well:
    an [update] with any data and a second [delete] on the same id fail
    with [NotFound].  The snapshot the delete returned agrees, on every
    property it has, with what [getById] gave for that id before.  In both
    services. *)
Theorem delete_then_not_found
    (v : JsValue) (dq : Question.QuestionData) (ds : Subject.SubjectData)
    (tq : Question.Store) (ts : Subject.Store) :
  (forall o t', Question.deleteQuestion v tq = (Ok o, t') ->
     Question.updateQuestion v dq t'
     = (Throw (Error (QuestaoNaoEncontrada v)), t')
     /\ Question.deleteQuestion v t'
        = (Throw (Error (QuestaoNaoEncontrada v)), t')
     /\ exists o0,
          Question.getQuestionById v tq = (Ok (Some o0), tq)
          /\ forall f, In f (keys o) -> prop o f = prop o0 f)
  /\ (forall o t', Subject.deleteSubject v ts = (Ok o, t') ->
        Subject.updateSubject v ds t'
        = (Throw (Error (DisciplinaNaoEncontrada v)), t')
        /\ Subject.deleteSubject v t'
           = (Throw (Error (DisciplinaNaoEncontrada v)), t')
        /\ exists o0,
             Subject.getSubjectById v ts = (Ok (Some o0), ts)
             /\ forall f, In f (keys o) -> prop o f = prop o0 f).
Proof.
  split; intros o t' E.
  - destruct (deleteQuestion_cases v tq) as [[e' E']|(n & r & Hv & Hn & E')];
      rewrite E' in E; [discriminate E|]. injection E as <- <-.
    assert (rows (removed n tq) !! n = None) as Hd by apply lookup_delete_eq.
    split; [exact (updateQuestion_absent v n dq _ Hv Hd)|].
    split; [exact (deleteQuestion_absent v n _ Hv Hd)|].
    eexists. split; [exact (getQuestionById_stored n r tq v Hv Hn)|].
    intros f Hf. cbn in Hf.
    repeat (destruct Hf as [<-|Hf]; [reflexivity|]). destruct Hf.
  - destruct (deleteSubject_cases v ts) as [[e' E']|(n & r & Hv & Hn & E')];
      rewrite E' in E; [discriminate E|]. injection E as <- <-.
    assert (rows (removed n ts) !! n = None) as Hd by apply lookup_delete_eq.
    split; [exact (updateSubject_absent v n ds _ Hv Hd)|].
    split; [exact (deleteSubject_absent v n _ Hv Hd)|].
    eexists. split; [exact (getSubjectById_stored n r ts v Hv Hn)|].
    intros f Hf. cbn in Hf.
    repeat (destruct Hf as [<-|Hf]; [reflexivity|]). destruct Hf.
Qed.

Lemma delete_then_not_found_witness :
  Subject.updateSubject (of_Z 1) (subject_data Examples.new_subject)
    (removed 1 (Examples.subjects 1))
  = (Throw (Error (DisciplinaNaoEncontrada (of_Z 1))),
     removed 1 (Examples.subjects 1)).
Proof.
  apply (proj2 (delete_then_not_found (of_Z 1)
                  (question_patch empty_question_patch)
                  (subject_data Examples.new_subject)
                  (Examples.questions 1) (Examples.subjects 1))
           (select_fields (Some Subject.select_snapshot)
              (1, Examples.subject_1))).
  reflexivity.
Defined.

(** *** The listing and the single reads *)

Lemma getAllQuestions_listing (t : Question.Store) l :
  fst (Question.getAllQuestions t) = Ok l ->
  exists l0, l = map (select_fields (Some Question.select_all)) l0
    /\ l0 ≡ₚ map_to_list (rows t).
Proof.
  destruct (getAllQuestions_sorted t) as (l0 & -> & Hp & _).
  intros [= <-]. now exists l0.
Qed.

Lemma getAllSubjects_listing (t : Subject.Store) l :
  fst (Subject.getAllSubjects t) = Ok l ->
  exists l0, l = map (select_fields (Some Subject.select_all)) l0
    /\ l0 ≡ₚ map_to_list (rows t).
Proof.
  destruct (getAllSubjects_sorted t) as (l0 & -> & Hp & _).
  intros [= <-]. now exists l0.
Qed.

Lemma listing_stored {R} (m : gmap Z R) (l0 : list (Z * R)) k r :
  l0 ≡ₚ map_to_list m -> (In (k, r) l0 <-> m !! k = Some r).
Proof.
  intros Hp. rewrite <- list_elem_of_In, Hp. apply elem_of_map_to_list.
Qed.

(** X10. [listAll] and [getById] agree.  Every record [getById] returns is
    in the list [listAll] returns; every record of that list carries the
    key of a stored record as its id, and when that key is a positive
    integer below 10^21, [getById] on the id returns this very record.  In
    both services. *)
Theorem listAll_agrees_with_getById
    (v : JsValue) (tq : Question.Store) (ts : Subject.Store) :
  (forall l, fst (Question.getAllQuestions tq) = Ok l ->
     (forall o, Question.getQuestionById v tq = (Ok (Some o), tq) -> In o l)
     /\ (forall o, In o l ->
           exists k r, rows tq !! k = Some r
             /\ prop o Question.Id = of_Z k
             /\ (0 < k < 10 ^ 21 ->
                   Question.getQuestionById (prop o Question.Id) tq
                   = (Ok (Some o), tq))))
  /\ (forall l, fst (Subject.getAllSubjects ts) = Ok l ->
        (forall o, Subject.getSubjectById v ts = (Ok (Some o), ts) -> In o l)
        /\ (forall o, In o l ->
              exists k r, rows ts !! k = Some r
                /\ prop o Subject.Id = of_Z k
                /\ (0 < k < 10 ^ 21 ->
                      Subject.getSubjectById (prop o Subject.Id) ts
                      = (Ok (Some o), ts)))).
Proof.
  split; intros l Hl.
  - destruct (getAllQuestions_listing tq l Hl) as (l0 & -> & Hp). split.
    + intros o (n & r & _ & Hn & ->)%getQuestionById_found.
      apply in_map. now apply (listing_stored (rows tq) l0).
    + intros o ([k r] & <- & Hin)%List.in_map_iff.
      apply (listing_stored (rows tq) l0 k r Hp) in Hin.
      exists k, r. split; [exact Hin|]. split; [reflexivity|].
      intros Hk. apply (getQuestionById_stored k); [|exact Hin].
      now apply of_Z_designates.
  - destruct (getAllSubjects_listing ts l Hl) as (l0 & -> & Hp). split.
    + intros o (n & r & _ & Hn & ->)%getSubjectById_found.
      apply in_map. now apply (listing_stored (rows ts) l0).
    + intros o ([k r] & <- & Hin)%List.in_map_iff.
      apply (listing_stored (rows ts) l0 k r Hp) in Hin.
      exists k, r. split; [exact Hin|]. split; [reflexivity|].
      intros Hk. apply (getSubjectById_stored k); [|exact Hin].
      now apply of_Z_designates.
Qed.

Lemma listAll_agrees_with_getById_witness :
  In (select_fields (Some Question.select_all) (2, Examples.question_2))
     (map (select_fields (Some Question.select_all))
        [(2, Examples.question_2); (1, Examples.question_1)]).
Proof.
  apply (listAll_agrees_with_getById (of_Z 2) Examples.two_questions
           (Examples.subjects 1)); reflexivity.
Defined.

(** X11. A write changes the listing by exactly one record.  After a
    [create] on a store whose next key is unused, [listAll] lists the
    record returned and those listed before.  After a [delete] it lists
    those listed before without the record [getById] gave for the id.
    After an [update] it lists the record returned in place of that one.
    Each up to the order; whatever the data, in both services. *)
Theorem listAll_after_write
    (v : JsValue) (dq : Question.QuestionData) (ds : Subject.SubjectData)
    (tq : Question.Store) (ts : Subject.Store) :
  (forall o t' l l',
     rows tq !! nextId tq = None ->
     Question.createQuestion dq tq = (Ok o, t') ->
     fst (Question.getAllQuestions tq) = Ok l ->
     fst (Question.getAllQuestions t') = Ok l' ->
     l' ≡ₚ o :: l)
  /\ (forall o t' l l',
        Question.deleteQuestion v tq = (Ok o, t') ->
        fst (Question.getAllQuestions tq) = Ok l ->
        fst (Question.getAllQuestions t') = Ok l' ->
        exists o0, Question.getQuestionById v tq = (Ok (Some o0), tq)
          /\ l ≡ₚ o0 :: l')
  /\ (forall o t' l l',
        Question.updateQuestion v dq tq = (Ok o, t') ->
        fst (Question.getAllQuestions tq) = Ok l ->
        fst (Question.getAllQuestions t') = Ok l' ->
        exists o0 rest, Question.getQuestionById v tq = (Ok (Some o0), tq)
          /\ l ≡ₚ o0 :: rest /\ l' ≡ₚ o :: rest)
  /\ (forall o t' l l',
        rows ts !! nextId ts = None ->
        Subject.createSubject ds ts = (Ok o, t') ->
        fst (Subject.getAllSubjects ts) = Ok l ->
        fst (Subject.getAllSubjects t') = Ok l' ->
        l' ≡ₚ o :: l)
  /\ (forall o t' l l',
        Subject.deleteSubject v ts = (Ok o, t') ->
        fst (Subject.getAllSubjects ts) = Ok l ->
        fst (Subject.getAllSubjects t') = Ok l' ->
        exists o0, Subject.getSubjectById v ts = (Ok (Some o0), ts)
          /\ l ≡ₚ o0 :: l')
  /\ (forall o t' l l',
        Subject.updateSubject v ds ts = (Ok o, t') ->
        fst (Subject.getAllSubjects ts) = Ok l ->
        fst (Subject.getAllSubjects t') = Ok l' ->
        exists o0 rest, Subject.getSubjectById v ts = (Ok (Some o0), ts)
          /\ l ≡ₚ o0 :: rest /\ l' ≡ₚ o :: rest).
Proof.
  split; [|split; [|split; [|split; [|split]]]]; intros o t' l l'.
  - intros Hfresh E Hl Hl'.
    destruct (createQuestion_cases dq tq)
      as [[_ E']|[(_ & _ & E')|(_ & _ & [(s & _ & _ & E')|[(e' & _ & E')
                               |(r & _ & _ & _ & _ & E')]])]];
      rewrite E' in E; try discriminate E.
    injection E as <- <-.
    destruct (getAllQuestions_listing _ l Hl) as (l0 & -> & Hp).
    destruct (getAllQuestions_listing _ l' Hl') as (l1 & -> & Hp').
    rewrite Hp, Hp'. cbn [inserted rows].
    rewrite (map_to_list_insert _ _ _ Hfresh). reflexivity.
  - intros E Hl Hl'.
    destruct (deleteQuestion_cases v tq) as [[e' E']|(n & r & Hv & Hn & E')];
      rewrite E' in E; [discriminate E|]. injection E as <- <-.
    destruct (getAllQuestions_listing _ l Hl) as (l0 & -> & Hp).
    destruct (getAllQuestions_listing _ l' Hl') as (l1 & -> & Hp').
    eexists. split; [exact (getQuestionById_stored n r tq v Hv Hn)|].
    rewrite Hp, Hp'. cbn [removed rows].
    rewrite <- (map_to_list_delete _ _ _ Hn). reflexivity.
  - intros E Hl Hl'.
    destruct (updateQuestion_cases v dq tq)
      as [[e' E']|(n & r & r' & Hv & Hn & Ha & _ & E')];
      rewrite E' in E; [discriminate E|]. injection E as <- <-.
    destruct (getAllQuestions_listing _ l Hl) as (l0 & -> & Hp).
    destruct (getAllQuestions_listing _ l' Hl') as (l1 & -> & Hp').
    eexists. exists (map (select_fields (Some Question.select_all))
                       (map_to_list (delete n (rows tq)))).
    split; [exact (getQuestionById_stored n r tq v Hv Hn)|].
    rewrite Hp, Hp'. cbn [written rows]. split.
    + rewrite <- (map_to_list_delete _ _ _ Hn). reflexivity.
    + rewrite <- insert_delete_eq.
      rewrite map_to_list_insert by apply lookup_delete_eq. reflexivity.
  - intros Hfresh E Hl Hl'.
    destruct (createSubject_cases ds ts)
      as [[_ E']|(_ & [(s & _ & _ & E')|[(e' & _ & E')
                       |(r & _ & _ & _ & _ & E')]])];
      rewrite E' in E; try discriminate E.
    injection E as <- <-.
    destruct (getAllSubjects_listing _ l Hl) as (l0 & -> & Hp).
    destruct (getAllSubjects_listing _ l' Hl') as (l1 & -> & Hp').
    rewrite Hp, Hp'. cbn [inserted rows].
    rewrite (map_to_list_insert _ _ _ Hfresh). reflexivity.
  - intros E Hl Hl'.
    destruct (deleteSubject_cases v ts) as [[e' E']|(n & r & Hv & Hn & E')];
      rewrite E' in E; [discriminate E|]. injection E as <- <-.
    destruct (getAllSubjects_listing _ l Hl) as (l0 & -> & Hp).
    destruct (getAllSubjects_listing _ l' Hl') as (l1 & -> & Hp').
    eexists. split; [exact (getSubjectById_stored n r ts v Hv Hn)|].
    rewrite Hp, Hp'. cbn [removed rows].
    rewrite <- (map_to_list_delete _ _ _ Hn). reflexivity.
  - intros E Hl Hl'.
    destruct (updateSubject_cases v ds ts)
      as [[e' E']|(n & r & r' & Hv & Hn & Ha & _ & E')];
      rewrite E' in E; [discriminate E|]. injection E as <- <-.
    destruct (getAllSubjects_listing _ l Hl) as (l0 & -> & Hp).
    destruct (getAllSubjects_listing _ l' Hl') as (l1 & -> & Hp').
    eexists. exists (map (select_fields (Some Subject.select_all))
                       (map_to_list (delete n (rows ts)))).
    split; [exact (getSubjectById_stored n r ts v Hv Hn)|].
    rewrite Hp, Hp'. cbn [written rows]. split.
    + rewrite <- (map_to_list_delete _ _ _ Hn). reflexivity.
    + rewrite <- insert_delete_eq.
      rewrite map_to_list_insert by apply lookup_delete_eq. reflexivity.
Qed.

Lemma listAll_after_write_witness :
  exists l l',
    fst (Question.getAllQuestions (Examples.questions 1)) = Ok l
    /\ fst (Question.getAllQuestions
              (inserted (new_question_row Examples.new_question 1001)
                 (Examples.questions 1))) = Ok l'
    /\ l' ≡ₚ select_fields (Some Question.select_all)
               (2, new_question_row Examples.new_question 1001) :: l.
Proof.
  eexists _, _. split; [reflexivity|]. split; [reflexivity|].
  apply (proj1 (listAll_after_write (of_Z 1)
                  (question_data Examples.new_question)
                  (subject_data Examples.new_subject)
                  (Examples.questions 1) (Examples.subjects 1))
           _ (inserted (new_question_row Examples.new_question 1001)
                (Examples.questions 1))); reflexivity.
Defined.

(** *** Uniqueness of statements and names *)





(** The check and the write of a creation are two steps, with an [await]
    between them. *)
Section Again.
Context {F R : Type} `{!Model F R}.



End Again.








(** *** Ids given as text *)

Lemma chars_of_list l : chars (string_of_list_ascii l) = l.
Proof. apply list_ascii_of_string_of_list_ascii. Qed.

Lemma trim_start_digit c l : digit c -> trim_start (c :: l) = c :: l.
Proof. intros H. cbn [trim_start]. now rewrite (digit_not_white c H). Qed.

Lemma trim_end_digits c l :
  Forall digit (c :: l) -> trim_end (c :: l) = c :: l.
Proof.
  intros H. unfold trim_end.
  assert (Forall digit (rev (c :: l))) as Hr by now apply List.Forall_rev.
  destruct (rev (c :: l)) as [|x t] eqn:E.
  - apply (f_equal (@length _)) in E. rewrite length_rev in E. discriminate E.
  - rewrite (trim_start_digit x t (Forall_inv Hr)), <- E. apply rev_involutive.
Qed.

Lemma digit_not_I c l :
  digit c ->
  String.eqb (string_of_list_ascii (c :: l)) "Infinity" = false.
Proof.
  intros H. cbn [string_of_list_ascii]. apply String.eqb_neq. intros [= -> _].
  discriminate H.
Qed.

Lemma StringToNumber_digits p :
  Zpos p < 10 ^ 21 ->
  StringToNumber (string_of_list_ascii (pos_digits p)) = Finite (Zpos p) 0.
Proof.
  intros Hb. unfold StringToNumber. rewrite chars_of_list.
  pose proof (pos_digits_digits p) as Hd.
  pose proof (pos_digits_value p) as Hv.
  destruct (pos_digits_head p) as (c & rest & E & Hz).
  rewrite E in *. pose proof (Forall_inv Hd) as Hc.
  rewrite (trim_start_digit c rest Hc), (trim_end_digits c rest Hd).
  assert (non_decimal (c :: rest) = None) as ->.
  { unfold non_decimal. destruct rest; [reflexivity|].
    now rewrite is_char_zero, Hz. }
  unfold str_decimal. destruct (digit_not_sign c Hc) as [-> ->].
  rewrite (digit_not_I c rest Hc).
  unfold unsigned_decimal.
  assert (span (is_digit 10) (c :: rest) = (c :: rest, [])) as ->.
  { rewrite <- (app_nil_r (c :: rest)) at 1.
    now apply (span_all (is_digit 10) (c :: rest) []). }
  cbn [exponent_part length]. rewrite app_nil_r, Hv.
  change (0 - Z.of_nat 0) with 0.
  unfold round_range. change (Z.abs (Zpos p) =? 0) with false.
  change (0 <=? 0) with true. cbv iota. change (10 ^ 0) with 1.
  assert (10 ^ 21 < 2 ^ 1024 - 2 ^ 970) as Hlt by (vm_compute; reflexivity).
  set (B := 2 ^ 1024 - 2 ^ 970) in *. set (C := 10 ^ 21) in *.
  destruct (B <=? Z.abs (Zpos p) * 1) eqn:E2; [|reflexivity].
  apply Z.leb_le in E2. lia.
Qed.

Lemma parseInt_digits p :
  Zpos p < 10 ^ 21 ->
  to_int (parseInt (Str (string_of_list_ascii (pos_digits p)))) = Some (Zpos p).
Proof.
  intros Hb. unfold parseInt. cbn [ToString]. rewrite chars_of_list.
  pose proof (pos_digits_digits p) as Hd.
  pose proof (pos_digits_value p) as Hv.
  destruct (pos_digits_head p) as (c & rest & E & Hz).
  rewrite E in *.
  rewrite <- (app_nil_r (c :: rest)).
  rewrite (parseInt_chars_digits c rest []); [| exact Hd | exact I |].
  - rewrite Hv. apply to_int_round_range. lia.
  - rewrite app_nil_r. destruct rest; [exact I|].
    now rewrite is_char_zero, Hz.
Qed.

Lemma decimal_string_designates_key n :
  0 < n < 10 ^ 21 -> designates (Str (decimal_string n)) n.
Proof.
  intros [H1 H2]. destruct n as [|p|p]; try lia.
  unfold decimal_string, nat_digits. split.
  - cbn [ToNumber]. now rewrite StringToNumber_digits.
  - now apply parseInt_digits.
Qed.

(** X13. An id may come as text.  The decimal digits of an integer [n]
    from 1 to 2^53 - 1, as a string, have the numeric value [n] and
    designate the key [n]: [getById] answers the string as it answers the
    number, and [update] and [delete] act on the record with key [n].  In
    both services. *)
Theorem decimal_string_id
    (n : Z) (dq : Question.QuestionData) (ds : Subject.SubjectData)
    (tq : Question.Store) (ts : Subject.Store) :
  0 < n < 2 ^ 53 ->
  ToNumber (Str (decimal_string n)) = Finite n 0
  /\ designates (Str (decimal_string n)) n
  /\ Question.getQuestionById (Str (decimal_string n)) tq
     = Question.getQuestionById (of_Z n) tq
  /\ Subject.getSubjectById (Str (decimal_string n)) ts
     = Subject.getSubjectById (of_Z n) ts
  /\ (forall r, rows tq !! n = Some r ->
        Question.updateQuestion (Str (decimal_string n)) dq tq
        = Question.updateQuestion (of_Z n) dq tq
        /\ Question.deleteQuestion (Str (decimal_string n)) tq
           = Question.deleteQuestion (of_Z n) tq)
  /\ (forall r, rows ts !! n = Some r ->
        Subject.updateSubject (Str (decimal_string n)) ds ts
        = Subject.updateSubject (of_Z n) ds ts
        /\ Subject.deleteSubject (Str (decimal_string n)) ts
           = Subject.deleteSubject (of_Z n) ts).
Proof.
  intros [H1 H2].
  assert (2 ^ 53 < 10 ^ 21) as Hb by (vm_compute; reflexivity).
  assert (0 < n < 10 ^ 21) as Hn by lia.
  pose proof (decimal_string_designates_key n Hn) as Hs.
  pose proof (of_Z_designates n Hn) as Hz.
  split.
  { destruct n as [|p|p]; try lia. cbn [ToNumber].
    unfold decimal_string, nat_digits. apply StringToNumber_digits. lia. }
  split; [exact Hs|].
  split; [now rewrite (getQuestionById_valid _ n tq Hs),
            (getQuestionById_valid _ n tq Hz)|].
  split; [now rewrite (getSubjectById_valid _ n ts Hs),
            (getSubjectById_valid _ n ts Hz)|].
  split; intros r Hr; split.
  - rewrite (updateQuestion_unfold _ n r dq tq Hs Hr),
      (updateQuestion_unfold _ n r dq tq Hz Hr).
    destruct Hs as [_ Hs], Hz as [_ Hz].
    destruct (statement_check dq _ tq) as [[[]|e] t']; try reflexivity.
    destruct (_ && _); [reflexivity|].
    unfold update.
    now rewrite (question_locate_id _ n t' Hs), (question_locate_id _ n t' Hz).
  - now rewrite (deleteQuestion_present _ n r tq Hs Hr),
      (deleteQuestion_present _ n r tq Hz Hr).
  - rewrite (updateSubject_unfold _ n r ds ts Hs Hr),
      (updateSubject_unfold _ n r ds ts Hz Hr).
    destruct Hs as [_ Hs], Hz as [_ Hz].
    destruct (name_check ds _ ts) as [[[]|e] t']; try reflexivity.
    unfold update.
    now rewrite (subject_locate_id _ n t' Hs), (subject_locate_id _ n t' Hz).
  - now rewrite (deleteSubject_present _ n r ts Hs Hr),
      (deleteSubject_present _ n r ts Hz Hr).
Qed.

Lemma decimal_string_id_witness :
  Question.getQuestionById (Str "42") (Examples.questions 42)
  = Question.getQuestionById (of_Z 42) (Examples.questions 42).
Proof.
  apply (decimal_string_id 42 (question_patch empty_question_patch)
           (subject_patch empty_subject_patch) (Examples.questions 42)
           (Examples.subjects 42)).
  split; [lia|reflexivity].
Defined.

(** *** A creation repeated, a creation undone *)

Lemma createQuestion_taken d s (t : Question.Store) :
  question_fields_present d = true ->
  outside_1_5 (ToNumber (Question.dificuldade d)) = false ->
  Question.enunciado d = Str s -> statement_taken s t ->
  Question.createQuestion d t = (Throw (Error EnunciadoJaCadastrado), t).
Proof.
  intros Hp Ho Es Ht. unfold Question.createQuestion, bind.
  rewrite question_validate_outcome, Hp, Ho. cbn [negb].
  now rewrite Es, (enunciadoExists_taken s t Ht).
Qed.

Lemma createSubject_taken d s (t : Subject.Store) :
  subject_fields_present d = true ->
  Subject.nome d = Str s -> name_taken s t ->
  Subject.createSubject d t = (Throw (Error NomeJaCadastrado), t).
Proof.
  intros Hp Es Ht. unfold Subject.createSubject, bind.
  rewrite subject_validate_outcome, Hp. cbn [negb].
  now rewrite Es, (nomeExists_taken s t Ht).
Qed.

(** X14. A creation cannot be repeated: after a successful [create] the
    same data, whatever it is, fails with [Conflict] and changes nothing.
    In both services. *)
Theorem create_twice_conflict
    (dq : Question.QuestionData) (ds : Subject.SubjectData)
    (tq : Question.Store) (ts : Subject.Store) :
  (forall o t', Question.createQuestion dq tq = (Ok o, t') ->
     Question.createQuestion dq t'
     = (Throw (Error EnunciadoJaCadastrado), t'))
  /\ (forall o t', Subject.createSubject ds ts = (Ok o, t') ->
        Subject.createSubject ds t' = (Throw (Error NomeJaCadastrado), t'))
  /\ kind (Error EnunciadoJaCadastrado) = Conflict
  /\ kind (Error NomeJaCadastrado) = Conflict.
Proof.
  split; [|split; [|split; reflexivity]]; intros o t' E.
  - destruct (createQuestion_cases dq tq)
      as [[_ E']|[(_ & _ & E')|(Hp & Ho & [(s & _ & _ & E')|[(e' & _ & E')
                               |(r & Es & _ & _ & _ & E')]])]];
      rewrite E' in E; try discriminate E.
    injection E as <- <-.
    apply (createQuestion_taken dq _ _ Hp Ho Es).
    exists (nextId tq), r. split; [apply lookup_insert_eq|reflexivity].
  - destruct (createSubject_cases ds ts)
      as [[_ E']|(Hp & [(s & _ & _ & E')|[(e' & _ & E')
                        |(r & Es & _ & _ & _ & E')]])];
      rewrite E' in E; try discriminate E.
    injection E as <- <-.
    apply (createSubject_taken ds _ _ Hp Es).
    exists (nextId ts), r. split; [apply lookup_insert_eq|reflexivity].
Qed.

Lemma create_twice_conflict_witness :
  Question.createQuestion (question_data Examples.new_question)
    (inserted (new_question_row Examples.new_question 1001)
       (Examples.questions 1))
  = (Throw (Error EnunciadoJaCadastrado),
     inserted (new_question_row Examples.new_question 1001)
       (Examples.questions 1)).
Proof.
  apply (proj1 (create_twice_conflict
                  (question_data Examples.new_question)
                  (subject_data Examples.new_subject)
                  (Examples.questions 1) (Examples.subjects 1))
           (select_fields (Some Question.select_all)
              (2, new_question_row Examples.new_question 1001))).
  reflexivity.
Defined.

(** X15. A [delete] undoes a [create]: on a store whose next key is unused
    (and a positive integer below 10^21), deleting the record just created,
    by the id it was returned with, succeeds and leaves the records that
    were stored before the creation.  The key is not given out again: the
    next key stays advanced.  Whatever the data, in both services. *)
Theorem create_then_delete
    (dq : Question.QuestionData) (ds : Subject.SubjectData)
    (tq : Question.Store) (ts : Subject.Store) :
  (0 < nextId tq < 10 ^ 21 -> rows tq !! nextId tq = None ->
   forall o t', Question.createQuestion dq tq = (Ok o, t') ->
     exists o' t'',
       Question.deleteQuestion (prop o Question.Id) t' = (Ok o', t'')
       /\ rows t'' = rows tq
       /\ nextId t'' = nextId tq + 1
       /\ forall f, In f (keys o') -> prop o' f = prop o f)
  /\ (0 < nextId ts < 10 ^ 21 -> rows ts !! nextId ts = None ->
      forall o t', Subject.createSubject ds ts = (Ok o, t') ->
        exists o' t'',
          Subject.deleteSubject (prop o Subject.Id) t' = (Ok o', t'')
          /\ rows t'' = rows ts
          /\ nextId t'' = nextId ts + 1
          /\ forall f, In f (keys o') -> prop o' f = prop o f).
Proof.
  split; intros Hk Hfresh o t' E.
  - destruct (createQuestion_cases dq tq)
      as [[_ E']|[(_ & _ & E')|(_ & _ & [(s & _ & _ & E')|[(e' & _ & E')
                               |(r & _ & _ & _ & _ & E')]])]];
      rewrite E' in E; try discriminate E.
    injection E as <- <-.
    change (prop (select_fields (Some Question.select_all) (nextId tq, r))
              Question.Id) with (of_Z (nextId tq)).
    eexists _, _. split.
    + apply (deleteQuestion_present _ (nextId tq) r);
        [now apply of_Z_designates|apply lookup_insert_eq].
    + split; [|split; [reflexivity|]].
      * cbn [removed inserted rows]. now apply delete_insert_id.
      * intros f Hf. cbn in Hf.
        repeat (destruct Hf as [<-|Hf]; [reflexivity|]). destruct Hf.
  - destruct (createSubject_cases ds ts)
      as [[_ E']|(_ & [(s & _ & _ & E')|[(e' & _ & E')
                       |(r & _ & _ & _ & _ & E')]])];
      rewrite E' in E; try discriminate E.
    injection E as <- <-.
    change (prop (select_fields (Some Subject.select_all) (nextId ts, r))
              Subject.Id) with (of_Z (nextId ts)).
    eexists _, _. split.
    + apply (deleteSubject_present _ (nextId ts) r);
        [now apply of_Z_designates|apply lookup_insert_eq].
    + split; [|split; [reflexivity|]].
      * cbn [removed inserted rows]. now apply delete_insert_id.
      * intros f Hf. cbn in Hf.
        repeat (destruct Hf as [<-|Hf]; [reflexivity|]). destruct Hf.
Qed.

Lemma create_then_delete_witness :
  exists o' t'',
    Subject.deleteSubject
      (prop (select_fields (Some Subject.select_all)
               (2, new_subject_row Examples.new_subject 1001)) Subject.Id)
      (inserted (new_subject_row Examples.new_subject 1001)
         (Examples.subjects 1)) = (Ok o', t'')
    /\ rows t'' = rows (Examples.subjects 1)
    /\ nextId t'' = nextId (Examples.subjects 1) + 1
    /\ forall f, In f (keys o') ->
         prop o' f
         = prop (select_fields (Some Subject.select_all)
                   (2, new_subject_row Examples.new_subject 1001)) f.
Proof.
  apply (create_then_delete (question_data Examples.new_question)
           (subject_data Examples.new_subject)
           (Examples.questions 1) (Examples.subjects 1)).
  - cbn. lia.
  - reflexivity.
  - reflexivity.
Defined.

(** *** The errors of each call *)

Lemma own_error_not_client m : kind (Error m) <> ClientFailure.
Proof. destruct m; discriminate. Qed.

Lemma updateQuestion_own_errors v d (t t' : Question.Store) m :
  Question.updateQuestion v d t = (Throw (Error m), t') ->
  In m [IdInvalido; QuestaoNaoEncontrada v; EnunciadoEmUso;
        DificuldadeEntre1e5].
Proof.
  intros E. destruct (question_id_cases v) as [H|[[n Hv]|[H1 H2]]].
  - rewrite (updateQuestion_invalid v d t H) in E. injection E as <- _.
    cbn. auto.
  - destruct (rows t !! n) as [r|] eqn:Hn.
    + destruct (updateQuestion_present v n r d t Hv Hn)
        as [(e & E' & [->|[(-> & _)| Ke]])|(r' & _ & _ & _ & E')];
        rewrite E' in E; try discriminate E.
      * injection E as <- _. cbn. auto.
      * injection E as <- _. cbn. auto.
      * injection E as -> _. destruct (own_error_not_client m Ke).
    + rewrite (updateQuestion_absent v n d t Hv Hn) in E.
      injection E as <- _. cbn. auto.
  - revert E. unfold Question.updateQuestion, bind. rewrite H1.
    unfold ret at 1. change Question.Id with (key (F := Question.Field)).
    now rewrite (findUnique_key_invalid _ _ t H2).
Qed.

Lemma deleteQuestion_own_errors v (t t' : Question.Store) m :
  Question.deleteQuestion v t = (Throw (Error m), t') ->
  In m [IdInvalido; QuestaoNaoEncontrada v].
Proof.
  intros E. destruct (question_id_cases v) as [H|[[n Hv]|[H1 H2]]].
  - rewrite (deleteQuestion_invalid v t H) in E. injection E as <- _.
    cbn. auto.
  - destruct (rows t !! n) as [r|] eqn:Hn.
    + rewrite (deleteQuestion_present v n r t Hv Hn) in E. discriminate E.
    + rewrite (deleteQuestion_absent v n t Hv Hn) in E.
      injection E as <- _. cbn. auto.
  - revert E. unfold Question.deleteQuestion, bind. rewrite H1.
    unfold ret at 1. change Question.Id with (key (F := Question.Field)).
    now rewrite (findUnique_key_invalid _ _ t H2).
Qed.

Lemma getQuestionById_own_errors v (t t' : Question.Store) m :
  Question.getQuestionById v t = (Throw (Error m), t') -> m = IdInvalido.
Proof.
  intros E. destruct (question_id_cases v) as [H|[[n Hv]|[H1 H2]]].
  - rewrite question_invalid_id_spec in H. apply negb_true_iff in H.
    rewrite (getQuestionById_invalid v t H) in E. now injection E as <- _.
  - rewrite (getQuestionById_valid v n t Hv) in E. discriminate E.
  - revert E. unfold Question.getQuestionById, bind. rewrite H1.
    unfold ret at 1. change Question.Id with (key (F := Question.Field)).
    now rewrite (findUnique_key_invalid _ _ t H2).
Qed.

Lemma updateSubject_own_errors v d (t t' : Subject.Store) m :
  Subject.updateSubject v d t = (Throw (Error m), t') ->
  In m [IdInvalido; DisciplinaNaoEncontrada v; NomeEmUso].
Proof.
  intros E. destruct (subject_id_cases v) as [H|[[n Hv]|[H1 H2]]].
  - rewrite (updateSubject_invalid v d t H) in E. injection E as <- _.
    cbn. auto.
  - destruct (rows t !! n) as [r|] eqn:Hn.
    + destruct (updateSubject_present v n r d t Hv Hn)
        as [(e & E' & [->| Ke])|(r' & _ & _ & E')];
        rewrite E' in E; try discriminate E.
      * injection E as <- _. cbn. auto.
      * injection E as -> _. destruct (own_error_not_client m Ke).
    + rewrite (updateSubject_absent v n d t Hv Hn) in E.
      injection E as <- _. cbn. auto.
  - revert E. unfold Subject.updateSubject, bind. rewrite H1.
    unfold ret at 1. change Subject.Id with (key (F := Subject.Field)).
    now rewrite (findUnique_key_invalid _ _ t H2).
Qed.

Lemma deleteSubject_own_errors v (t t' : Subject.Store) m :
  Subject.deleteSubject v t = (Throw (Error m), t') ->
  In m [IdInvalido; DisciplinaNaoEncontrada v].
Proof.
  intros E. destruct (subject_id_cases v) as [H|[[n Hv]|[H1 H2]]].
  - rewrite (deleteSubject_invalid v t H) in E. injection E as <- _.
    cbn. auto.
  - destruct (rows t !! n) as [r|] eqn:Hn.
    + rewrite (deleteSubject_present v n r t Hv Hn) in E. discriminate E.
    + rewrite (deleteSubject_absent v n t Hv Hn) in E.
      injection E as <- _. cbn. auto.
  - revert E. unfold Subject.deleteSubject, bind. rewrite H1.
    unfold ret at 1. change Subject.Id with (key (F := Subject.Field)).
    now rewrite (findUnique_key_invalid _ _ t H2).
Qed.

Lemma getSubjectById_own_errors v (t t' : Subject.Store) m :
  Subject.getSubjectById v t = (Throw (Error m), t') -> m = IdInvalido.
Proof.
  intros E. destruct (subject_id_cases v) as [H|[[n Hv]|[H1 H2]]].
  - rewrite subject_invalid_id_spec in H. apply negb_true_iff in H.
    rewrite (getSubjectById_invalid v t H) in E. now injection E as <- _.
  - rewrite (getSubjectById_valid v n t Hv) in E. discriminate E.
  - revert E. unfold Subject.getSubjectById, bind. rewrite H1.
    unfold ret at 1. change Subject.Id with (key (F := Subject.Field)).
    now rewrite (findUnique_key_invalid _ _ t H2).
Qed.

(** X16. Each call raises only the errors of its own checks, whatever the
    id, the data and the store.  Of the errors the services raise
    themselves, [create] raises the required-fields error, the range error
    or its conflict; [update] the invalid id, [NotFound] for the id as
    given, its conflict and, for questions, the range error, never the
    required-fields error; [delete] the invalid id or [NotFound];
    [getById] the invalid id alone.  What the client raises is not
    covered. *)
Theorem own_errors_of_each_call
    (v : JsValue) (dq : Question.QuestionData) (ds : Subject.SubjectData)
    (tq : Question.Store) (ts : Subject.Store) :
  (forall m t', Question.createQuestion dq tq = (Throw (Error m), t') ->
     In m [QuestaoCamposObrigatorios; DificuldadeEntre1e5;
           EnunciadoJaCadastrado])
  /\ (forall m t', Question.updateQuestion v dq tq = (Throw (Error m), t') ->
        In m [IdInvalido; QuestaoNaoEncontrada v; EnunciadoEmUso;
              DificuldadeEntre1e5])
  /\ (forall m t', Question.deleteQuestion v tq = (Throw (Error m), t') ->
        In m [IdInvalido; QuestaoNaoEncontrada v])
  /\ (forall m t', Question.getQuestionById v tq = (Throw (Error m), t') ->
        m = IdInvalido)
  /\ (forall m t', Subject.createSubject ds ts = (Throw (Error m), t') ->
        In m [DisciplinaCamposObrigatorios; NomeJaCadastrado])
  /\ (forall m t', Subject.updateSubject v ds ts = (Throw (Error m), t') ->
        In m [IdInvalido; DisciplinaNaoEncontrada v; NomeEmUso])
  /\ (forall m t', Subject.deleteSubject v ts = (Throw (Error m), t') ->
        In m [IdInvalido; DisciplinaNaoEncontrada v])
  /\ (forall m t', Subject.getSubjectById v ts = (Throw (Error m), t') ->
        m = IdInvalido).
Proof.
  split; [|split; [|split; [|split; [|split; [|split; [|split]]]]]];
    intros m t' E.
  - destruct (createQuestion_cases dq tq)
      as [[_ E']|[(_ & _ & E')|(_ & _ & [(s & _ & _ & E')|[(e' & Ke & E')
                               |(r & _ & _ & _ & _ & E')]])]];
      rewrite E' in E; try discriminate E;
      try (injection E as <- _; cbn; now auto).
    injection E as -> _. destruct (own_error_not_client m Ke).
  - exact (updateQuestion_own_errors v dq tq t' m E).
  - exact (deleteQuestion_own_errors v tq t' m E).
  - exact (getQuestionById_own_errors v tq t' m E).
  - destruct (createSubject_cases ds ts)
      as [[_ E']|(_ & [(s & _ & _ & E')|[(e' & Ke & E')
                       |(r & _ & _ & _ & _ & E')]])];
      rewrite E' in E; try discriminate E;
      try (injection E as <- _; cbn; now auto).
    injection E as -> _. destruct (own_error_not_client m Ke).
  - exact (updateSubject_own_errors v ds ts t' m E).
  - exact (deleteSubject_own_errors v ts t' m E).
  - exact (getSubjectById_own_errors v ts t' m E).
Qed.

Lemma own_errors_of_each_call_witness :
  Question.updateQuestion (of_Z 2) (question_patch Examples.rename_to_1)
    Examples.two_questions
  = (Throw (Error EnunciadoEmUso), Examples.two_questions)
  /\ In EnunciadoEmUso
     [IdInvalido; QuestaoNaoEncontrada (of_Z 2); EnunciadoEmUso;
      DificuldadeEntre1e5]
  /\ In (QuestaoNaoEncontrada (of_Z 2))
        [IdInvalido; QuestaoNaoEncontrada (of_Z 2)].
Proof.
  destruct (own_errors_of_each_call (of_Z 2)
              (question_patch Examples.rename_to_1)
              (subject_patch empty_subject_patch)
              Examples.two_questions (Examples.subjects 1))
    as (_ & U & _).
  destruct (own_errors_of_each_call (of_Z 2)
              (question_patch Examples.rename_to_1)
              (subject_patch empty_subject_patch)
              (Examples.questions 1) (Examples.subjects 1))
    as (_ & _ & D & _).
  split; [reflexivity|]. split.
  - apply (U EnunciadoEmUso Examples.two_questions). reflexivity.
  - apply (D (QuestaoNaoEncontrada (of_Z 2)) (Examples.questions 1)).
    reflexivity.
Defined.

(** *** An update repeated *)

Module QuestionAgain.
Import Question.

(** One entry of the update data always writes the same way. *)
Lemma question_entry_writes c f v (r r1 : Row) :
  assign (question_entry c f v) r = Some r1 ->
  (forall r0, assign (question_entry c f v) r0 = Some r0)
  \/ (accepts_ f v = true
      /\ forall r0, assign (question_entry c f v) r0 = Some (write_ f v r0)).
Proof.
  unfold question_entry. destruct c; [|now left]. cbn [assign].
  destruct (defined v); [|now left].
  destruct (existsb (field_eqb f) writable) eqn:Ew; [|discriminate].
  change (accepts f v) with (accepts_ f v).
  destruct (accepts_ f v) eqn:Ea; [|discriminate].
  intros _. right. split; [reflexivity|]. intros r0. reflexivity.
Qed.

Lemma int_written v : is_int v = true -> exists k, forall d, int_of v d = k.
Proof.
  destruct v as [| |b|x|s]; try discriminate. cbn.
  destruct (to_int x) as [k|]; [|discriminate]. intros _. now exists k.
Qed.

Lemma enunciado_writes c v (r r1 : Row) :
  assign (question_entry c Enunciado v) r = Some r1 ->
  exists w, (w = (fun r => r) \/ exists s, w = set_enunciado s)
    /\ forall r0, assign (question_entry c Enunciado v) r0 = Some (w r0).
Proof.
  intros [H|[Ha H]]%question_entry_writes; [exists (fun r => r); auto|].
  destruct v as [| |b|x|s]; try discriminate Ha.
  exists (set_enunciado s). split; [right; now exists s|exact H].
Qed.

Lemma respostaCorreta_writes c v (r r1 : Row) :
  assign (question_entry c RespostaCorreta v) r = Some r1 ->
  exists w, (w = (fun r => r) \/ exists s, w = set_respostaCorreta s)
    /\ forall r0, assign (question_entry c RespostaCorreta v) r0 = Some (w r0).
Proof.
  intros [H|[Ha H]]%question_entry_writes; [exists (fun r => r); auto|].
  destruct v as [| |b|x|s]; try discriminate Ha.
  exists (set_respostaCorreta s). split; [right; now exists s|exact H].
Qed.

Lemma question_ativa_writes c v (r r1 : Row) :
  assign (question_entry c Ativa v) r = Some r1 ->
  exists w, (w = (fun r => r) \/ exists b, w = set_ativa b)
    /\ forall r0, assign (question_entry c Ativa v) r0 = Some (w r0).
Proof.
  intros [H|[Ha H]]%question_entry_writes; [exists (fun r => r); auto|].
  destruct v as [| |b|x|s]; try discriminate Ha.
  exists (set_ativa b). split; [right; now exists b|exact H].
Qed.

Lemma dificuldade_writes c v (r r1 : Row) :
  assign (question_entry c Dificuldade v) r = Some r1 ->
  exists w, (w = (fun r => r) \/ exists k, w = set_dificuldade k)
    /\ forall r0, assign (question_entry c Dificuldade v) r0 = Some (w r0).
Proof.
  intros [H|[Ha H]]%question_entry_writes; [exists (fun r => r); auto|].
  destruct (int_written v Ha) as [k Hk].
  exists (set_dificuldade k). split; [right; now exists k|].
  intros r0. rewrite H. cbn [write_]. now rewrite Hk.
Qed.

Lemma disciplinaId_writes c v (r r1 : Row) :
  assign (question_entry c DisciplinaId v) r = Some r1 ->
  exists w, (w = (fun r => r) \/ exists k, w = set_disciplinaId k)
    /\ forall r0, assign (question_entry c DisciplinaId v) r0 = Some (w r0).
Proof.
  intros [H|[Ha H]]%question_entry_writes; [exists (fun r => r); auto|].
  destruct (int_written v Ha) as [k Hk].
  exists (set_disciplinaId k). split; [right; now exists k|].
  intros r0. rewrite H. cbn [write_]. now rewrite Hk.
Qed.

Lemma autorId_writes c v (r r1 : Row) :
  assign (question_entry c AutorId v) r = Some r1 ->
  exists w, (w = (fun r => r) \/ exists k, w = set_autorId k)
    /\ forall r0, assign (question_entry c AutorId v) r0 = Some (w r0).
Proof.
  intros [H|[Ha H]]%question_entry_writes; [exists (fun r => r); auto|].
  destruct (int_written v Ha) as [k Hk].
  exists (set_autorId k). split; [right; now exists k|].
  intros r0. rewrite H. cbn [write_]. now rewrite Hk.
Qed.

Lemma question_assign_app_Some (a b : JsObject Field) (r r' : Row) :
  assign (a ++ b) r = Some r' ->
  exists r1, assign a r = Some r1 /\ assign b r1 = Some r'.
Proof.
  rewrite assign_app. destruct (assign a r) as [r1|]; [|discriminate].
  intros H. now exists r1.
Qed.

Lemma question_assign_app_writes (a b : JsObject Field) (wa wb : Row -> Row) :
  (forall r0, assign a r0 = Some (wa r0)) ->
  (forall r0, assign b r0 = Some (wb r0)) ->
  forall r0, assign (a ++ b) r0 = Some (wb (wa r0)).
Proof. intros Ha Hb r0. now rewrite assign_app, Ha, Hb. Qed.

(** The update data that was applied once applies again, and changes
    nothing the second time. *)
Lemma question_assign_again d (r r' : Row) c :
  assign (dadosAtualizacao d) r = Some r' ->
  assign (dadosAtualizacao d) (touch_ c r') = Some (touch_ c r').
Proof.
  rewrite question_dados_split. unfold question_other_entries. intros H.
  apply question_assign_app_Some in H as (r1 & H1 & H).
  apply question_assign_app_Some in H as (r2 & H2 & H).
  apply question_assign_app_Some in H as (r3 & H3 & H).
  apply question_assign_app_Some in H as (r4 & H4 & H).
  apply question_assign_app_Some in H as (r5 & H5 & H6).
  pose proof H1 as (w1 & F1 & W1)%enunciado_writes.
  pose proof H2 as (w2 & F2 & W2)%dificuldade_writes.
  pose proof H3 as (w3 & F3 & W3)%respostaCorreta_writes.
  pose proof H4 as (w4 & F4 & W4)%disciplinaId_writes.
  pose proof H5 as (w5 & F5 & W5)%autorId_writes.
  pose proof H6 as (w6 & F6 & W6)%question_ativa_writes.
  rewrite W1 in H1. rewrite W2 in H2. rewrite W3 in H3. rewrite W4 in H4.
  rewrite W5 in H5. rewrite W6 in H6.
  injection H1 as <-. injection H2 as <-. injection H3 as <-.
  injection H4 as <-. injection H5 as <-. injection H6 as <-.
  rewrite (question_assign_app_writes _ _ w1 _ W1
             (question_assign_app_writes _ _ w2 _ W2
                (question_assign_app_writes _ _ w3 _ W3
                   (question_assign_app_writes _ _ w4 _ W4
                      (question_assign_app_writes _ _ w5 w6 W5 W6))))).
  f_equal.
  destruct F1 as [->|[? ->]], F2 as [->|[? ->]], F3 as [->|[? ->]],
    F4 as [->|[? ->]], F5 as [->|[? ->]], F6 as [->|[? ->]];
    reflexivity.
Qed.

End QuestionAgain.

Module SubjectAgain.
Import Subject.

Lemma subject_entry_writes c f v (r r1 : Row) :
  assign (subject_entry c f v) r = Some r1 ->
  (forall r0, assign (subject_entry c f v) r0 = Some r0)
  \/ (accepts_ f v = true
      /\ forall r0, assign (subject_entry c f v) r0 = Some (write_ f v r0)).
Proof.
  unfold subject_entry. destruct c; [|now left]. cbn [assign].
  destruct (defined v); [|now left].
  destruct (existsb (field_eqb f) writable) eqn:Ew; [|discriminate].
  change (accepts f v) with (accepts_ f v).
  destruct (accepts_ f v) eqn:Ea; [|discriminate].
  intros _. right. split; [reflexivity|]. intros r0. reflexivity.
Qed.

Lemma nome_writes c v (r r1 : Row) :
  assign (subject_entry c Nome v) r = Some r1 ->
  exists w, (w = (fun r => r) \/ exists s, w = set_nome s)
    /\ forall r0, assign (subject_entry c Nome v) r0 = Some (w r0).
Proof.
  intros [H|[Ha H]]%subject_entry_writes; [exists (fun r => r); auto|].
  destruct v as [| |b|x|s]; try discriminate Ha.
  exists (set_nome s). split; [right; now exists s|exact H].
Qed.

Lemma subject_ativa_writes c v (r r1 : Row) :
  assign (subject_entry c Ativa v) r = Some r1 ->
  exists w, (w = (fun r => r) \/ exists b, w = set_ativa b)
    /\ forall r0, assign (subject_entry c Ativa v) r0 = Some (w r0).
Proof.
  intros [H|[Ha H]]%subject_entry_writes; [exists (fun r => r); auto|].
  destruct v as [| |b|x|s]; try discriminate Ha.
  exists (set_ativa b). split; [right; now exists b|exact H].
Qed.

Lemma professorId_writes c v (r r1 : Row) :
  assign (subject_entry c ProfessorId v) r = Some r1 ->
  exists w, (w = (fun r => r) \/ exists k, w = set_professorId k)
    /\ forall r0, assign (subject_entry c ProfessorId v) r0 = Some (w r0).
Proof.
  intros [H|[Ha H]]%subject_entry_writes; [exists (fun r => r); auto|].
  destruct (QuestionAgain.int_written v Ha) as [k Hk].
  exists (set_professorId k). split; [right; now exists k|].
  intros r0. rewrite H. cbn [write_]. now rewrite Hk.
Qed.

Lemma subject_assign_app_Some (a b : JsObject Field) (r r' : Row) :
  assign (a ++ b) r = Some r' ->
  exists r1, assign a r = Some r1 /\ assign b r1 = Some r'.
Proof.
  rewrite assign_app. destruct (assign a r) as [r1|]; [|discriminate].
  intros H. now exists r1.
Qed.

Lemma subject_assign_app_writes (a b : JsObject Field) (wa wb : Row -> Row) :
  (forall r0, assign a r0 = Some (wa r0)) ->
  (forall r0, assign b r0 = Some (wb r0)) ->
  forall r0, assign (a ++ b) r0 = Some (wb (wa r0)).
Proof. intros Ha Hb r0. now rewrite assign_app, Ha, Hb. Qed.

Lemma subject_assign_again d (r r' : Row) c :
  assign (dadosAtualizacao d) r = Some r' ->
  assign (dadosAtualizacao d) (touch_ c r') = Some (touch_ c r').
Proof.
  rewrite subject_dados_split. unfold subject_other_entries. intros H.
  apply subject_assign_app_Some in H as (r1 & H1 & H).
  apply subject_assign_app_Some in H as (r2 & H2 & H3).
  pose proof H1 as (w1 & F1 & W1)%nome_writes.
  pose proof H2 as (w2 & F2 & W2)%subject_ativa_writes.
  pose proof H3 as (w3 & F3 & W3)%professorId_writes.
  rewrite W1 in H1. rewrite W2 in H2. rewrite W3 in H3.
  injection H1 as <-. injection H2 as <-. injection H3 as <-.
  rewrite (subject_assign_app_writes _ _ w1 _ W1
             (subject_assign_app_writes _ _ w2 w3 W2 W3)).
  f_equal.
  destruct F1 as [->|[? ->]], F2 as [->|[? ->]], F3 as [->|[? ->]];
    reflexivity.
Qed.

End SubjectAgain.

Lemma updateQuestion_again v n r' d (t : Question.Store) c :
  designates v n -> rows t !! n = Some (Question.touch_ c r') ->
  (truthy (Question.enunciado d) = true ->
     Question.enunciado d = Str (Question.col_enunciado r')) ->
  (truthy (Question.dificuldade d) = true ->
     outside_1_5 (ToNumber (Question.dificuldade d)) = false) ->
  assign (Question.dadosAtualizacao d) (Question.touch_ c r')
  = Some (Question.touch_ c r') ->
  Question.updateQuestion v d t
  = (Ok (select_fields (Some Question.select_all)
           (n, Question.touch_ (now t) r')),
     written n (Question.touch_ (now t) r') t).
Proof.
  intros Hv Hn He Hd Ha.
  rewrite (updateQuestion_unfold v n _ d t Hv Hn).
  unfold statement_check.
  change (prop (select_fields None (n, Question.touch_ c r'))
            Question.Enunciado) with (Str (Question.col_enunciado r')).
  assert (truthy (Question.enunciado d)
          && strict_ne (Question.enunciado d)
               (Str (Question.col_enunciado r')) = false) as ->.
  { destruct (truthy (Question.enunciado d)); [|reflexivity].
    rewrite (He eq_refl). unfold strict_ne. cbn [andb strict_eq].
    now rewrite String.eqb_refl. }
  unfold ret at 1. rewrite range_check_numeric.
  assert (truthy (Question.dificuldade d)
          && outside_1_5 (ToNumber (Question.dificuldade d)) = false) as ->.
  { destruct (truthy (Question.dificuldade d)); [|reflexivity].
    now rewrite (Hd eq_refl). }
  unfold update. destruct Hv as [_ Hv].
  rewrite (question_locate_id _ n t Hv), Hn.
  cbn [fmap option_fmap option_map]. rewrite Ha. reflexivity.
Qed.

Lemma updateSubject_again v n r' d (t : Subject.Store) c :
  designates v n -> rows t !! n = Some (Subject.touch_ c r') ->
  (truthy (Subject.nome d) = true ->
     Subject.nome d = Str (Subject.col_nome r')) ->
  assign (Subject.dadosAtualizacao d) (Subject.touch_ c r')
  = Some (Subject.touch_ c r') ->
  Subject.updateSubject v d t
  = (Ok (select_fields (Some Subject.select_all)
           (n, Subject.touch_ (now t) r')),
     written n (Subject.touch_ (now t) r') t).
Proof.
  intros Hv Hn He Ha.
  rewrite (updateSubject_unfold v n _ d t Hv Hn).
  unfold name_check.
  change (prop (select_fields None (n, Subject.touch_ c r')) Subject.Nome)
    with (Str (Subject.col_nome r')).
  assert (truthy (Subject.nome d)
          && strict_ne (Subject.nome d) (Str (Subject.col_nome r')) = false)
    as ->.
  { destruct (truthy (Subject.nome d)); [|reflexivity].
    rewrite (He eq_refl). unfold strict_ne. cbn [andb strict_eq].
    now rewrite String.eqb_refl. }
  unfold ret at 1. unfold update. destruct Hv as [_ Hv].
  rewrite (subject_locate_id _ n t Hv), Hn.
  cbn [fmap option_fmap option_map]. rewrite Ha. reflexivity.
Qed.

(** X17. An update can be repeated.  After a successful [update], the same
    call with the same data succeeds again, whatever the data: the
    uniqueness check does not trip over the record's own new statement
    (name).  The second call returns what the first returned, [updatedAt]
    apart, and leaves every other key as it was.  In both services. *)
Theorem update_twice
    (v : JsValue) (dq : Question.QuestionData) (ds : Subject.SubjectData)
    (tq : Question.Store) (ts : Subject.Store) :
  (forall o t', Question.updateQuestion v dq tq = (Ok o, t') ->
     exists o' t'',
       Question.updateQuestion v dq t' = (Ok o', t'')
       /\ (forall f, f <> Question.UpdatedAt -> prop o' f = prop o f)
       /\ (forall k, k <> int_of (prop o Question.Id) 0 ->
             rows t'' !! k = rows t' !! k))
  /\ (forall o t', Subject.updateSubject v ds ts = (Ok o, t') ->
        exists o' t'',
          Subject.updateSubject v ds t' = (Ok o', t'')
          /\ (forall f, f <> Subject.UpdatedAt -> prop o' f = prop o f)
          /\ (forall k, k <> int_of (prop o Subject.Id) 0 ->
                rows t'' !! k = rows t' !! k)).
Proof.
  split; intros o t' E.
  - destruct (question_id_cases v) as [H|[[n Hv]|[H1 H2]]].
    + rewrite (updateQuestion_invalid v dq tq H) in E. discriminate E.
    + destruct (rows tq !! n) as [r|] eqn:Hn;
        [|rewrite (updateQuestion_absent v n dq tq Hv Hn) in E;
          discriminate E].
      destruct (updateQuestion_present v n r dq tq Hv Hn)
        as [(e & E' & _)|(r' & Ha & _ & Hd & E')];
        rewrite E' in E; [discriminate E|]. injection E as <- <-.
      eexists _, _. split.
      * apply (updateQuestion_again v n r' dq _ (now tq) Hv).
        -- apply lookup_insert_eq.
        -- intros Ht. rewrite question_dados_split, Ht in Ha.
           exact (assign_sets_enunciado _ _ _ _ Ht
                    (question_other_entries_fields dq) Ha).
        -- exact Hd.
        -- now apply QuestionAgain.question_assign_again with r.
      * split.
        -- intros f Hf. destruct f; try reflexivity. contradiction.
        -- intros k Hk. cbn [written rows]. apply lookup_insert_ne.
           change (prop (select_fields (Some Question.select_all)
                           (n, Question.touch_ (now tq) r')) Question.Id)
             with (of_Z n) in Hk.
           rewrite int_of_of_Z in Hk. congruence.
    + destruct (updateQuestion_cases v dq tq)
        as [[e E']|(n & _ & _ & Hv & _)];
        [rewrite E' in E; discriminate E|].
      destruct Hv as [_ Hv]. congruence.
  - destruct (subject_id_cases v) as [H|[[n Hv]|[H1 H2]]].
    + rewrite (updateSubject_invalid v ds ts H) in E. discriminate E.
    + destruct (rows ts !! n) as [r|] eqn:Hn;
        [|rewrite (updateSubject_absent v n ds ts Hv Hn) in E;
          discriminate E].
      destruct (updateSubject_present v n r ds ts Hv Hn)
        as [(e & E' & _)|(r' & Ha & _ & E')];
        rewrite E' in E; [discriminate E|]. injection E as <- <-.
      eexists _, _. split.
      * apply (updateSubject_again v n r' ds _ (now ts) Hv).
        -- apply lookup_insert_eq.
        -- intros Ht. rewrite subject_dados_split, Ht in Ha.
           exact (assign_sets_nome _ _ _ _ Ht
                    (subject_other_entries_fields ds) Ha).
        -- now apply SubjectAgain.subject_assign_again with r.
      * split.
        -- intros f Hf. destruct f; try reflexivity. contradiction.
        -- intros k Hk. cbn [written rows]. apply lookup_insert_ne.
           change (prop (select_fields (Some Subject.select_all)
                           (n, Subject.touch_ (now ts) r')) Subject.Id)
             with (of_Z n) in Hk.
           rewrite int_of_of_Z in Hk. congruence.
    + destruct (updateSubject_cases v ds ts)
        as [[e E']|(n & _ & _ & Hv & _)];
        [rewrite E' in E; discriminate E|].
      destruct Hv as [_ Hv]. congruence.
Qed.

Lemma update_twice_witness :
  exists o' t'',
    Question.updateQuestion (of_Z 1) (question_patch Examples.rename_to_2)
      (written 1
         (Question.touch_ 1001
            (Question.set_enunciado "3+3=?" Examples.question_1))
         (Examples.questions 1)) = (Ok o', t'')
    /\ prop o' Question.Enunciado = Str "3+3=?".
Proof.
  destruct (proj1 (update_twice (of_Z 1)
                     (question_patch Examples.rename_to_2)
                     (subject_patch empty_subject_patch)
                     (Examples.questions 1) (Examples.subjects 1))
              (select_fields (Some Question.select_all)
                 (1, Question.touch_ 1001
                       (Question.set_enunciado "3+3=?" Examples.question_1)))
              (written 1
                 (Question.touch_ 1001
                    (Question.set_enunciado "3+3=?" Examples.question_1))
                 (Examples.questions 1)) eq_refl)
    as (o' & t'' & E & Hf & _).
  exists o', t''. split; [exact E|]. now rewrite Hf.
Defined.

(** *** The existence checks *)

(** X18. [enunciadoExists] answers [true] exactly when some stored question
    has the statement asked for, character for character, and
    [nomeExists] exactly when some stored subject has the name; neither
    raises on a string, neither changes the store. *)
Theorem exists_iff_stored
    (s : string) (tq : Question.Store) (ts : Subject.Store) :
  (exists b, Question.enunciadoExists (Str s) tq = (Ok b, tq)
     /\ (b = true <-> statement_taken s tq))
  /\ (exists b, Subject.nomeExists (Str s) ts = (Ok b, ts)
        /\ (b = true <-> name_taken s ts)).
Proof.
  split.
  - destruct (question_taken_or_free s tq) as [Ht|Hf].
    + exists true. split; [now apply enunciadoExists_taken|tauto].
    + exists false. split; [now apply enunciadoExists_free|].
      split; [discriminate|]. intros (k & r & Hk & Hs). destruct (Hf k r Hk Hs).
  - destruct (subject_taken_or_free s ts) as [Ht|Hf].
    + exists true. split; [now apply nomeExists_taken|tauto].
    + exists false. split; [now apply nomeExists_free|].
      split; [discriminate|]. intros (k & r & Hk & Hs). destruct (Hf k r Hk Hs).
Qed.
